(** * JSF Decoder: parameter classification and analysis pipeline

    A shallow embedding of the TypeScript sources of the JSF decoder
    (decoder.ts, parser.ts, detector.ts, annotations.ts, categorizer.ts,
    componentId.ts, viewstate.ts, valueAnalyzer.ts) together with the
    properties of the pipeline that the design document states. *)

From Stdlib Require Import Ascii String DecimalString.
From Stdlib Require Import List Bool Arith NArith ZArith Lia.
Import ListNotations.
Local Open Scope list_scope.

(** ** JavaScript values and strings

    A JavaScript string is a finite sequence of UTF-16 code units.  The
    code units are kept as [N]; every function below maps sequences of
    16-bit units to sequences of 16-bit units. *)

Definition jsstring := list N.

(** ASCII literals of the sources. *)
Definition lit (s : string) : jsstring :=
  map N_of_ascii (list_ascii_of_string s).
Arguments lit s%_string.

(** The dynamically typed values that can reach a function declared with a
    [string] parameter.  Numbers are kept as integers: only their
    truthiness and their [typeof] matter here. *)
Inductive jsval :=
| JUndefined
| JNull
| JBoolean (b : bool)
| JNumber (z : Z)
| JString (s : jsstring).

(** ToBoolean. *)
Definition truthy (v : jsval) : bool :=
  match v with
  | JUndefined | JNull => false
  | JBoolean b => b
  | JNumber z => negb (z =? 0)%Z
  | JString s => match s with [] => false | _ :: _ => true end
  end.

(** [typeof v === "string"]. *)
Definition typeof_string (v : jsval) : bool :=
  match v with JString _ => true | _ => false end.

(** The guard [!v || typeof v !== "string"] that opens most functions. *)
Definition not_a_string (v : jsval) : bool :=
  negb (truthy v) || negb (typeof_string v).

(** The string behind a value that passed the guard. *)
Definition str_of (v : jsval) : jsstring :=
  match v with JString s => s | _ => [] end.

(** [s.length] *)
Definition strlen (s : jsstring) : Z := Z.of_nat (length s).

(** [xs.length] of an array. *)
Definition arrlen {A : Type} (xs : list A) : Z := Z.of_nat (length xs).

(** [a === b] on strings. *)
Fixpoint streq (a b : jsstring) : bool :=
  match a, b with
  | [], [] => true
  | x :: a', y :: b' => (x =? y)%N && streq a' b'
  | _, _ => false
  end.

(** [s.startsWith(p)] *)
Fixpoint startsWith (s p : jsstring) {struct p} : bool :=
  match p, s with
  | [], _ => true
  | x :: p', y :: s' => (x =? y)%N && startsWith s' p'
  | _ :: _, [] => false
  end.

(** [s.endsWith(p)]: compare the last [p.length] units. *)
Definition endsWith (s p : jsstring) : bool :=
  (length p <=? length s)%nat && streq (skipn (length s - length p) s) p.

(** [s.indexOf(p)], counting from position [k]; -1 when absent. *)
Fixpoint indexOf_from (s p : jsstring) (k : Z) : Z :=
  if startsWith s p then k
  else match s with
       | [] => (-1)%Z
       | _ :: s' => indexOf_from s' p (k + 1)
       end.

Definition indexOf (s p : jsstring) : Z := indexOf_from s p 0.

(** [s.includes(p)] *)
Fixpoint includes (s p : jsstring) : bool :=
  startsWith s p ||
  match s with
  | [] => false
  | _ :: s' => includes s' p
  end.

(** [s.substring(a, b)]: both ends are clamped to [0, length] and swapped
    when out of order. *)
Definition clamp (len x : Z) : Z := Z.min (Z.max x 0) len.

Definition substring (s : jsstring) (a b : Z) : jsstring :=
  let len := strlen s in
  let a' := clamp len a in
  let b' := clamp len b in
  let from := Z.min a' b' in
  let to := Z.max a' b' in
  firstn (Z.to_nat (to - from)) (skipn (Z.to_nat from) s).

(** [s.substring(a)] *)
Definition substring_from (s : jsstring) (a : Z) : jsstring :=
  substring s a (strlen s).

(** [s.split(sep)] for a separator of one code unit (the sources split on
    ":" and on "&" only).  The empty string splits into one empty token. *)
Fixpoint split (s : jsstring) (sep : N) : list jsstring :=
  match s with
  | [] => [[]]
  | c :: s' =>
      if (c =? sep)%N then [] :: split s' sep
      else match split s' sep with
           | h :: t => (c :: h) :: t
           | [] => [[c]]
           end
  end.

(** [parts.join(sep)] *)
Fixpoint join (parts : list jsstring) (sep : jsstring) : jsstring :=
  match parts with
  | [] => []
  | x :: rest =>
      match rest with
      | [] => x
      | _ :: _ => x ++ sep ++ join rest sep
      end
  end.

(** [xs.map((x, index) => f(x, index))] *)
Fixpoint mapi_from {A B : Type} (f : A -> Z -> B) (xs : list A) (k : Z)
  : list B :=
  match xs with
  | [] => []
  | x :: xs' => f x k :: mapi_from f xs' (k + 1)
  end.

Definition mapi {A B : Type} (f : A -> Z -> B) (xs : list A) : list B :=
  mapi_from f xs 0.

(** Character classes of the regular expressions in the sources. *)
Definition is_digit (c : N) : bool := (48 <=? c)%N && (c <=? 57)%N.
Definition is_upper (c : N) : bool := (65 <=? c)%N && (c <=? 90)%N.
Definition is_lower (c : N) : bool := (97 <=? c)%N && (c <=? 122)%N.

(** [/^\d+$/.test(s)]: one or more ASCII digits and nothing else. *)
Definition re_digits (s : jsstring) : bool :=
  match s with
  | [] => false
  | _ :: _ => forallb is_digit s
  end.

Definition COLON : N := 58.
Definition AMPERSAND : N := 38.
Definition EQUALS : N := 61.
Definition PERCENT : N := 37.

(** ** Exceptions

    [decodeURIComponent] throws [URIError] and [atob] throws
    [InvalidCharacterError]; code that may throw lives in [Exc]. *)

Inductive exn := URIError | InvalidCharacterError.

Inductive Exc (A : Type) : Type :=
| Ok (a : A)
| Throw (e : exn).
Arguments Ok {A} a.
Arguments Throw {A} e.

Definition ret {A : Type} (a : A) : Exc A := Ok a.

Definition bind {A B : Type} (m : Exc A) (k : A -> Exc B) : Exc B :=
  match m with
  | Ok a => k a
  | Throw e => Throw e
  end.

(** [try { m } catch (e) { h e }] *)
Definition try_catch {A : Type} (m : Exc A) (h : exn -> Exc A) : Exc A :=
  match m with
  | Ok a => Ok a
  | Throw e => h e
  end.

Notation "x <- m ;; k" := (bind m (fun x => k))
  (at level 61, m at next level, right associativity).

(** ** The built-in [decodeURIComponent] (ECMAScript, abstract operation
       Decode with an empty set of preserved escapes) *)

(** Value of one hexadecimal digit. *)
Definition hexval (c : N) : option N :=
  if is_digit c then Some (c - 48)%N
  else if (65 <=? c)%N && (c <=? 70)%N then Some (c - 55)%N
  else if (97 <=? c)%N && (c <=? 102)%N then Some (c - 87)%N
  else None.

Definition ParseHexOctet (h1 h2 : N) : option N :=
  match hexval h1, hexval h2 with
  | Some a, Some b => Some (16 * a + b)%N
  | _, _ => None
  end.

(** Number of leading 1 bits of an octet. *)
Definition leading_ones (B : N) : nat :=
  if (B <? 128)%N then 0
  else if (B <? 192)%N then 1
  else if (B <? 224)%N then 2
  else if (B <? 240)%N then 3
  else if (B <? 248)%N then 4
  else 5.

Definition is_continuation (b : N) : bool := (128 <=? b)%N && (b <=? 191)%N.

(** The code point that a list of octets encodes in UTF-8; [None] when the
    octets are not the valid UTF-8 encoding of one code point (a bad
    continuation byte, an overlong form, a surrogate, or a value above
    U+10FFFF). *)
Definition utf8_code_point (octets : list N) : option N :=
  match octets with
  | [b0; b1] =>
      let V := N.lor (N.shiftl (N.land b0 31) 6) (N.land b1 63) in
      if is_continuation b1 && (128 <=? V)%N then Some V else None
  | [b0; b1; b2] =>
      let V := N.lor (N.shiftl (N.land b0 15) 12)
                 (N.lor (N.shiftl (N.land b1 63) 6) (N.land b2 63)) in
      if is_continuation b1 && is_continuation b2 && (2048 <=? V)%N
         && negb ((55296 <=? V)%N && (V <=? 57343)%N)
      then Some V else None
  | [b0; b1; b2; b3] =>
      let V := N.lor (N.shiftl (N.land b0 7) 18)
                 (N.lor (N.shiftl (N.land b1 63) 12)
                    (N.lor (N.shiftl (N.land b2 63) 6) (N.land b3 63))) in
      if is_continuation b1 && is_continuation b2 && is_continuation b3
         && (65536 <=? V)%N && (V <=? 1114111)%N
      then Some V else None
  | _ => None
  end.

Definition UTF16EncodeCodePoint (V : N) : jsstring :=
  if (V <=? 65535)%N then [V]
  else [((V - 65536) / 1024 + 55296)%N; ((V - 65536) mod 1024 + 56320)%N].

(** The scan of Decode.  [need] counts the continuation escapes that the
    multi-byte sequence under way still lacks and [octets] holds the ones
    read so far. *)
Fixpoint Decode (s : jsstring) (need : nat) (octets : list N) : Exc jsstring :=
  match s with
  | [] => match need with
          | O => ret []
          | S _ => Throw URIError
          end
  | c :: rest =>
      if (c =? PERCENT)%N then
        match rest with
        | h1 :: h2 :: rest' =>
            match ParseHexOctet h1 h2 with
            | None => Throw URIError
            | Some B =>
                match need with
                | O =>
                    let n := leading_ones B in
                    if (n =? 0)%nat then
                      r <- Decode rest' 0 [] ;; ret (B :: r)
                    else if (n =? 1)%nat || (4 <? n)%nat then Throw URIError
                    else Decode rest' (n - 1) [B]
                | S need' =>
                    if is_continuation B then
                      let octets' := octets ++ [B] in
                      match need' with
                      | O =>
                          match utf8_code_point octets' with
                          | None => Throw URIError
                          | Some V =>
                              r <- Decode rest' 0 [] ;;
                              ret (UTF16EncodeCodePoint V ++ r)
                          end
                      | S _ => Decode rest' need' octets'
                      end
                    else Throw URIError
                end
            end
        | _ => Throw URIError
        end
      else
        match need with
        | O => r <- Decode rest 0 [] ;; ret (c :: r)
        | S _ => Throw URIError
        end
  end.

Definition decodeURIComponent (s : jsstring) : Exc jsstring := Decode s 0 [].

(** ** The built-in [atob] (HTML, forgiving-base64 decode) *)

Definition is_ascii_whitespace (c : N) : bool :=
  (c =? 9)%N || (c =? 10)%N || (c =? 12)%N || (c =? 13)%N || (c =? 32)%N.

(** Position of a unit in the base64 alphabet. *)
Definition b64val (c : N) : option N :=
  if is_upper c then Some (c - 65)%N
  else if is_lower c then Some (c - 71)%N
  else if is_digit c then Some (c + 4)%N
  else if (c =? 43)%N then Some 62%N
  else if (c =? 47)%N then Some 63%N
  else None.

Definition is_b64 (c : N) : bool :=
  match b64val c with Some _ => true | None => false end.

(** Remove one or two trailing "=". *)
Definition strip_padding (data : jsstring) : jsstring :=
  match rev data with
  | 61%N :: 61%N :: r => rev r
  | 61%N :: r => rev r
  | _ => data
  end.

(** Four sextets give three octets; two trailing sextets give one octet
    and three give two, the unused low bits being dropped. *)
Fixpoint b64_octets (sextets : list N) : list N :=
  match sextets with
  | a :: b :: c :: d :: more =>
      let w := (((a * 64 + b) * 64 + c) * 64 + d)%N in
      (w / 65536)%N :: ((w / 256) mod 256)%N :: (w mod 256)%N
        :: b64_octets more
  | [a; b; c] =>
      let w := (((a * 64 + b) * 64 + c) / 4)%N in
      [(w / 256)%N; (w mod 256)%N]
  | [a; b] => [((a * 64 + b) / 16)%N]
  | _ => []
  end.

Definition atob (s : jsstring) : Exc jsstring :=
  let data := filter (fun c => negb (is_ascii_whitespace c)) s in
  let data := if (length data mod 4 =? 0)%nat then strip_padding data
              else data in
  if (length data mod 4 =? 1)%nat then Throw InvalidCharacterError
  else if negb (forallb is_b64 data) then Throw InvalidCharacterError
  else ret (b64_octets
              (map (fun c => match b64val c with Some v => v | None => 0%N end)
                 data)).

(** ** The built-in [encodeURIComponent] (ECMAScript, abstract operation
       Encode with no extra unescaped characters) *)

(** The units that are copied as they are: the ASCII word characters and
    "-.!~*'()". *)
Definition is_unescaped (c : N) : bool :=
  is_upper c || is_lower c || is_digit c || (c =? 95)%N
  || (c =? 45)%N || (c =? 46)%N || (c =? 33)%N || (c =? 126)%N
  || (c =? 42)%N || (c =? 39)%N || (c =? 40)%N || (c =? 41)%N.

Definition is_leading_surrogate (c : N) : bool :=
  (55296 <=? c)%N && (c <=? 56319)%N.

Definition is_trailing_surrogate (c : N) : bool :=
  (56320 <=? c)%N && (c <=? 57343)%N.

Definition UTF16SurrogatePairToCodePoint (lead trail : N) : N :=
  ((lead - 55296) * 1024 + (trail - 56320) + 65536)%N.

(** The octets of the UTF-8 encoding of a code point. *)
Definition utf8_octets (V : N) : list N :=
  if (V <? 128)%N then [V]
  else if (V <? 2048)%N then [(192 + V / 64)%N; (128 + V mod 64)%N]
  else if (V <? 65536)%N then
    [(224 + V / 4096)%N; (128 + (V / 64) mod 64)%N; (128 + V mod 64)%N]
  else
    [(240 + V / 262144)%N; (128 + (V / 4096) mod 64)%N;
     (128 + (V / 64) mod 64)%N; (128 + V mod 64)%N].

(** One upper-case hexadecimal digit. *)
Definition hexdigit (d : N) : N :=
  if (d <? 10)%N then (48 + d)%N else (55 + d)%N.

(** "%" followed by the two hexadecimal digits of an octet. *)
Definition escape_octet (B : N) : jsstring :=
  [PERCENT; hexdigit (B / 16); hexdigit (B mod 16)].

Definition escape_code_point (V : N) : jsstring :=
  flat_map escape_octet (utf8_octets V).

(** The scan of Encode: an unescaped unit is copied, any other code point
    is escaped octet by octet, and an unpaired surrogate is an error. *)
Fixpoint Encode (s : jsstring) : Exc jsstring :=
  match s with
  | [] => ret []
  | C :: rest =>
      if is_unescaped C then r <- Encode rest ;; ret (C :: r)
      else if is_trailing_surrogate C then Throw URIError
      else if negb (is_leading_surrogate C) then
        r <- Encode rest ;; ret (escape_code_point C ++ r)
      else
        match rest with
        | [] => Throw URIError
        | second :: rest' =>
            if negb (is_trailing_surrogate second) then Throw URIError
            else
              let cp := UTF16SurrogatePairToCodePoint C second in
              r <- Encode rest' ;; ret (escape_code_point cp ++ r)
        end
  end.

Definition encodeURIComponent (s : jsstring) : Exc jsstring := Encode s.

(** ** types.ts *)

Inductive ParameterCategory :=
| standard_jsf | component_id | viewstate | form_submit | custom.

Record ParsedParameter := mkParsedParameter {
  name : jsstring;
  decodedName : jsstring;
  value : jsstring;
  decodedValue : jsstring
}.

Record ParseResult := mkParseResult {
  parameters : list ParsedParameter;
  rawBody : jsstring
}.

(** An interface that extends [ParsedParameter] carries the spread
    parameter as its first field. *)
Record AnnotatedParameter := mkAnnotatedParameter {
  ap_param : ParsedParameter;
  annotation : jsstring
}.

Inductive LevelType := component | index | unknown.

Record ComponentIdLevel := mkLevel {
  id : jsstring;
  type : LevelType;
  depth : Z
}.

Record ComponentIdParameter := mkComponentIdParameter {
  cp_param : ParsedParameter;
  hierarchy : list ComponentIdLevel
}.

Inductive Encoding := base64 | encrypted | unknown_encoding.

Record ViewStateParameter := mkViewStateParameter {
  vp_param : ParsedParameter;
  vp_encoding : Encoding;
  vp_decodedContent : option jsstring;
  vp_warnings : list jsstring
}.

Record CategorizedParameters := mkCategorizedParameters {
  standardJsf : list AnnotatedParameter;
  componentIds : list ComponentIdParameter;
  viewState : option ViewStateParameter;
  formSubmit : list AnnotatedParameter;
  custom_ : list ParsedParameter
}.

Record ViewStateAnalysis := mkViewStateAnalysis {
  encoding : Encoding;
  decodedContent : option jsstring;
  isSerializedJava : bool;
  warnings : list jsstring
}.

Inductive Confidence := high | medium | low.

Record JsfDetectionResult := mkJsfDetectionResult {
  isJsf : bool;
  confidence : Confidence;
  indicators : list jsstring
}.

(** ** componentId.ts *)

Module ComponentId.

Definition parseComponentId (v : jsval) : list ComponentIdLevel :=
  if not_a_string v then []
  else
    let parts := split (str_of v) COLON in
    mapi (fun part i =>
            let isNumeric := re_digits part in
            {| id := part;
               type := if isNumeric then index
                       else if truthy (JString part) then component
                       else unknown;
               depth := i |}) parts.

Definition formatComponentIdTree (levels : list ComponentIdLevel) : jsstring :=
  match levels with
  | [] => []
  | _ :: _ => join (map id levels) (lit ":")
  end.

(** [\d+:] at the start of [s]; [seen] tells whether a digit was read.
    The digits are taken greedily: the unit after them has to be ":", and
    giving a digit back would leave a digit there. *)
Fixpoint digits_then_colon (s : jsstring) (seen : bool) : bool :=
  match s with
  | [] => false
  | c :: r =>
      if is_digit c then digits_then_colon r true
      else seen && (c =? COLON)%N
  end.

(** [/:\d+:/.test(s)] *)
Fixpoint re_colon_digits_colon (s : jsstring) : bool :=
  match s with
  | [] => false
  | c :: r =>
      ((c =? COLON)%N && digits_then_colon r false)
      || re_colon_digits_colon r
  end.

(** [/j_id_/.test(v) || /:\d+:/.test(v) || /^j_id_/.test(v)] *)
Definition isComponentId (value : jsval) : bool :=
  if not_a_string value then false
  else
    let value := str_of value in
    includes value (lit "j_id_")
    || re_colon_digits_colon value
    || startsWith value (lit "j_id_").

End ComponentId.

(** ** decoder.ts *)

Module Decoder.

Definition decodeParameter (encoded : jsval) : Exc jsstring :=
  if not_a_string encoded then ret []
  else
    try_catch (decodeURIComponent (str_of encoded))
              (fun _ => ret (str_of encoded)).

(** No [try] here: a [URIError] of [encodeURIComponent] reaches the
    caller. *)
Definition encodeParameter (decoded : jsval) : Exc jsstring :=
  if not_a_string decoded then ret []
  else encodeURIComponent (str_of decoded).

Definition is_hex (c : N) : bool :=
  match hexval c with Some _ => true | None => false end.

(** [/%[0-9A-Fa-f]{2}/.test(s)]: somewhere a "%" with two hexadecimal
    digits after it. *)
Fixpoint re_percent_hex2 (s : jsstring) : bool :=
  match s with
  | [] => false
  | c :: rest =>
      ((c =? PERCENT)%N &&
       match rest with
       | h1 :: h2 :: _ => is_hex h1 && is_hex h2
       | _ => false
       end)
      || re_percent_hex2 rest
  end.

Definition isUrlEncoded (value : jsval) : bool :=
  if not_a_string value then false
  else re_percent_hex2 (str_of value).

End Decoder.

(** ** parser.ts *)

Module Parser.
Import Decoder.

Definition CRLFCRLF : jsstring := [13; 10; 13; 10]%N.
Definition LFLF : jsstring := [10; 10]%N.

Definition extractBodyFromRaw (raw : jsval) : jsstring :=
  if not_a_string raw then []
  else
    let raw := str_of raw in
    let crlfIndex := indexOf raw CRLFCRLF in
    let lfIndex := indexOf raw LFLF in
    let bodyStartIndex := (-1)%Z in
    let bodyStartIndex :=
      if negb (crlfIndex =? -1)%Z then (crlfIndex + 4)%Z
      else if negb (lfIndex =? -1)%Z then (lfIndex + 2)%Z
      else bodyStartIndex in
    if (bodyStartIndex =? -1)%Z then []
    else substring_from raw bodyStartIndex.

(** One turn of the loop over [pairs]: [parameters] is the array built so
    far and [push] appends at its end. *)
Definition parse_pair (parameters : list ParsedParameter) (pair : jsstring)
  : Exc (list ParsedParameter) :=
  if negb (truthy (JString pair)) then ret parameters
  else
    let eqIndex := indexOf pair (lit "=") in
    let '(name, value) :=
      if (eqIndex =? -1)%Z then (pair, [])
      else (substring pair 0 eqIndex, substring_from pair (eqIndex + 1)) in
    decodedName <- decodeParameter (JString name) ;;
    decodedValue <- decodeParameter (JString value) ;;
    ret (parameters ++
           [{| name := name; decodedName := decodedName;
               value := value; decodedValue := decodedValue |}]).

Definition parseUrlEncodedBody (body : jsval) : Exc (list ParsedParameter) :=
  if not_a_string body then ret []
  else
    let pairs := split (str_of body) AMPERSAND in
    fold_left (fun acc pair => parameters <- acc ;; parse_pair parameters pair)
              pairs (ret []).

Definition parseJsfBody (body : jsval) : Exc ParseResult :=
  if not_a_string body then ret {| parameters := []; rawBody := [] |}
  else
    let s := str_of body in
    let actualBody :=
      if includes s CRLFCRLF || includes s LFLF
      then extractBodyFromRaw body else s in
    parameters <- parseUrlEncodedBody (JString actualBody) ;;
    ret {| parameters := parameters; rawBody := actualBody |}.

End Parser.

(** ** annotations.ts *)

Module Annotations.

(** An object literal used as a lookup table: its entries in insertion
    order, which is also the order of [Object.entries]. *)
Definition table := list (jsstring * jsstring).

Definition entry (k v : string) : jsstring * jsstring := (lit k, lit v).
Arguments entry (k v)%_string.

(** [table[key]] for an own property of the literal. *)
Fixpoint lookup (t : table) (key : jsstring) : option jsstring :=
  match t with
  | [] => None
  | (k, v) :: t' => if streq key k then Some v else lookup t' key
  end.

Definition JSF_ANNOTATIONS : table :=
  [ entry "javax.faces.partial.ajax" "Indicates AJAX partial request - When 'true', only specified components are processed and rendered";
    entry "javax.faces.source" "Component that triggered the request - Client ID of the component that initiated the AJAX request";
    entry "javax.faces.partial.execute" "Components to process on server - Space-separated list of component IDs to execute during Apply Request Values, Process Validations, and Update Model phases";
    entry "javax.faces.partial.render" "Components to re-render on client - Space-separated list of component IDs whose markup should be returned in the response";
    entry "javax.faces.behavior.event" "Client behavior event type - The name of the behavior event that triggered this request (e.g., 'action', 'valueChange', 'click')";
    entry "javax.faces.partial.event" "Partial request event type - The DOM event that triggered the partial request (e.g., 'click', 'change', 'blur')";
    entry "javax.faces.ViewState" "Serialized server-side state - Contains the component tree state, can be stateful (server-side) or stateless (client-side encrypted)";
    entry "javax.faces.FormSignature" "Form signature for CSRF protection - Cryptographic signature to prevent Cross-Site Request Forgery attacks";
    entry "javax.faces.ClientWindow" "Client window identifier - Tracks browser tabs/windows for multi-window support in JSF 2.2+";
    entry "javax.faces.encodedURL" "Encoded URL for navigation - URL with view parameters and conversation state encoded";
    entry "javax.faces.resource" "Resource identifier - Identifies a JSF resource (CSS, JS, images) to be served by the ResourceHandler";
    entry "ln" "Resource library name - Groups related resources together (e.g., 'primefaces', 'css', 'js')";
    entry "v" "Resource version - Version number for cache busting and resource versioning";
    entry "javax.faces.validator.REQUIRED" "Required field validation - Indicates a required field validation message";
    entry "javax.faces.converter.STRING" "String converter - Converts between String and Object representations";
    entry "javax.faces.converter.DateTimeConverter.PATTERN" "Date/time pattern - Format pattern for date/time conversion";
    entry "jffi" "Faces Flow instance identifier - Tracks the current Faces Flow instance (JSF 2.2+)";
    entry "jffi.token" "Flow token - Security token for Faces Flow transitions";
    entry "cid" "Conversation ID - CDI conversation identifier for stateful conversations";
    entry "primefaces.resetvalues" "PrimeFaces reset values - Resets input components to their initial values";
    entry "primefaces.ignoreautoupdate" "PrimeFaces ignore auto-update - Prevents automatic update of components" ].

Definition SUBMIT_ANNOTATION : jsstring :=
  lit "Form submission marker - Indicates which form was submitted".

Definition IMPLEMENTATION_INDICATORS : table :=
  [ entry "com.sun.faces" "Mojarra (Oracle/Sun JSF Reference Implementation)";
    entry "org.apache.myfaces" "Apache MyFaces";
    entry "org.primefaces" "PrimeFaces Component Library";
    entry "org.richfaces" "RichFaces Component Library";
    entry "org.icefaces" "ICEfaces Component Library" ].

(** [JSF_ANNOTATIONS[paramName]] for the own keys of the literal.  The
    members that the literal inherits from [Object.prototype]
    (constructor, toString, hasOwnProperty, __proto__ and the like) are
    not modelled: the categorizer, the only caller, passes names under
    "javax.faces." only, and none of the inherited names starts so. *)
Definition getAnnotation (paramName : jsstring) : option jsstring :=
  lookup JSF_ANNOTATIONS paramName.

(** The inner loop of [detectImplementation]: the value of the first entry
    whose key occurs in [paramName]. *)
Fixpoint first_fingerprint (entries : table) (paramName : jsstring)
  : option jsstring :=
  match entries with
  | [] => None
  | (key, value) :: entries' =>
      if includes paramName key then Some value
      else first_fingerprint entries' paramName
  end.

Fixpoint detectImplementation (paramNames : list jsstring) : option jsstring :=
  match paramNames with
  | [] => None
  | paramName :: paramNames' =>
      match first_fingerprint IMPLEMENTATION_INDICATORS paramName with
      | Some value => Some value
      | None => detectImplementation paramNames'
      end
  end.

End Annotations.

(** ** detector.ts *)

Module Detector.
Import Parser Annotations.

Definition STANDARD_JSF_PARAMS : list jsstring :=
  [ lit "javax.faces.partial.ajax"; lit "javax.faces.source";
    lit "javax.faces.partial.execute"; lit "javax.faces.partial.render";
    lit "javax.faces.behavior.event"; lit "javax.faces.partial.event";
    lit "javax.faces.ViewState"; lit "javax.faces.ClientWindow";
    lit "javax.faces.FormSignature" ].

Definition VERSION_INDICATORS : table :=
  [ entry "javax.faces.ClientWindow" "JSF 2.2+ (Multi-window support)";
    entry "javax.faces.FormSignature" "JSF 2.2+ (CSRF protection)";
    entry "jffi" "JSF 2.2+ (Faces Flow)";
    entry "javax.faces.partial.ajax" "JSF 2.0+ (AJAX support)";
    entry "javax.faces.ViewState" "JSF 1.0+ (Core framework)" ].

(** The result returned on every early exit and by the [catch] clause. *)
Definition negative : JsfDetectionResult :=
  {| isJsf := false; confidence := low; indicators := [] |}.

(** The variables that the loop over the parameters updates. *)
Record LoopVars := mkLoopVars {
  v_indicators : list jsstring;
  hasStandardJsf : bool;
  hasAjax : bool;
  hasViewState : bool;
  versionFeatures : list jsstring
}.

Definition push_indicator (s : jsstring) (st : LoopVars) : LoopVars :=
  {| v_indicators := v_indicators st ++ [s];
     hasStandardJsf := hasStandardJsf st;
     hasAjax := hasAjax st;
     hasViewState := hasViewState st;
     versionFeatures := versionFeatures st |}.

Definition set_hasStandardJsf (st : LoopVars) : LoopVars :=
  {| v_indicators := v_indicators st;
     hasStandardJsf := true;
     hasAjax := hasAjax st;
     hasViewState := hasViewState st;
     versionFeatures := versionFeatures st |}.

Definition set_hasAjax (st : LoopVars) : LoopVars :=
  {| v_indicators := v_indicators st;
     hasStandardJsf := hasStandardJsf st;
     hasAjax := true;
     hasViewState := hasViewState st;
     versionFeatures := versionFeatures st |}.

Definition set_hasViewState (st : LoopVars) : LoopVars :=
  {| v_indicators := v_indicators st;
     hasStandardJsf := hasStandardJsf st;
     hasAjax := hasAjax st;
     hasViewState := true;
     versionFeatures := versionFeatures st |}.

Definition set_versionFeatures (vf : list jsstring) (st : LoopVars) : LoopVars :=
  {| v_indicators := v_indicators st;
     hasStandardJsf := hasStandardJsf st;
     hasAjax := hasAjax st;
     hasViewState := hasViewState st;
     versionFeatures := vf |}.

(** [versionFeatures.includes(version)] *)
Definition array_includes (xs : list jsstring) (x : jsstring) : bool :=
  existsb (streq x) xs.

(** One turn of the inner loop over [Object.entries(VERSION_INDICATORS)]. *)
Definition version_step (decodedName : jsstring) (vf : list jsstring)
  (e : jsstring * jsstring) : list jsstring :=
  let '(key, version) := e in
  if streq decodedName key && negb (array_includes vf version)
  then vf ++ [version] else vf.

(** One turn of the loop over [parameters]. *)
Definition param_step (st : LoopVars) (param : ParsedParameter) : LoopVars :=
  let decodedName := decodedName param in
  let st :=
    if startsWith decodedName (lit "javax.faces.") then
      let st := set_hasStandardJsf st in
      let st := push_indicator (lit "Standard JSF parameter: " ++ decodedName) st in
      let st := if streq decodedName (lit "javax.faces.partial.ajax")
                then set_hasAjax st else st in
      if streq decodedName (lit "javax.faces.ViewState")
      then set_hasViewState st else st
    else st in
  let st :=
    if endsWith decodedName (lit "_SUBMIT")
    then push_indicator (lit "Form submission marker: " ++ decodedName) st
    else st in
  set_versionFeatures
    (fold_left (version_step decodedName) VERSION_INDICATORS (versionFeatures st))
    st.

Definition init_vars : LoopVars :=
  {| v_indicators := []; hasStandardJsf := false; hasAjax := false;
     hasViewState := false; versionFeatures := [] |}.

(** The statements of the [try] block that follow the loop. *)
Definition conclude (paramNames : list jsstring) (st : LoopVars)
  : JsfDetectionResult :=
  let indicators := v_indicators st in
  let implementation := detectImplementation paramNames in
  let indicators :=
    match implementation with
    | Some impl =>
        if truthy (JString impl)
        then indicators ++ [lit "Implementation: " ++ impl]
        else indicators
    | None => indicators
    end in
  let indicators :=
    if (0 <? arrlen (versionFeatures st))%Z
    then indicators ++
           [lit "Version features: " ++ join (versionFeatures st) (lit ", ")]
    else indicators in
  let indicators :=
    if hasAjax st then indicators ++ [lit "Request type: AJAX Partial Request"]
    else if hasViewState st
         then indicators ++ [lit "Request type: Full Page Postback"]
         else indicators in
  let isJsf := (0 <? arrlen indicators)%Z in
  let confidence := low in
  let confidence :=
    if isJsf then (if hasStandardJsf st then high else medium)
    else confidence in
  {| isJsf := isJsf; confidence := confidence; indicators := indicators |}.

Definition detectJsf_try (raw : jsval) : Exc JsfDetectionResult :=
  parseResult <- parseJsfBody raw ;;
  let parameters := parameters parseResult in
  if (arrlen parameters =? 0)%Z then ret negative
  else
    let paramNames := map decodedName parameters in
    let st := fold_left param_step parameters init_vars in
    ret (conclude paramNames st).

(** The [catch] clause. *)
Definition detectJsf_catch (error : exn) : Exc JsfDetectionResult :=
  ret negative.

Definition detectJsf (raw : jsval) : Exc JsfDetectionResult :=
  if not_a_string raw then ret negative
  else try_catch (detectJsf_try raw) detectJsf_catch.

Definition isJsfRequest (raw : jsval) : Exc bool :=
  result <- detectJsf raw ;; ret (isJsf result).

End Detector.

(** ** categorizer.ts *)

Module Categorizer.
Import Annotations.

(** The module's own placeholder for component ID parsing. *)
Definition parseComponentId (id : jsstring) : list ComponentIdLevel :=
  [ {| id := id; type := unknown; depth := 0 |} ].

(** The module's own placeholder for ViewState analysis. *)
Definition analyzeViewState (value : jsstring) : ViewStateAnalysis :=
  {| encoding := unknown_encoding;
     decodedContent := None;
     isSerializedJava := false;
     warnings := [] |}.

Definition isStandardJsfParameter (name : jsstring) : bool :=
  startsWith name (lit "javax.faces.").

Definition isComponentIdParameter (name : jsstring) : bool :=
  includes name (lit "j_id_").

Definition isFormSubmitParameter (name : jsstring) : bool :=
  endsWith name (lit "_SUBMIT").

Definition isViewStateParameter (name : jsstring) : bool :=
  streq name (lit "javax.faces.ViewState").

(** The union that [categorizeParameter] returns: the spread parameter,
    its [category] tag and the fields of that category. *)
Inductive Categorized :=
| ViewStateCat (p : ViewStateParameter)
| StandardJsfCat (p : AnnotatedParameter)
| ComponentIdCat (p : ComponentIdParameter)
| FormSubmitCat (p : AnnotatedParameter)
| CustomCat (p : ParsedParameter).

Definition category (c : Categorized) : ParameterCategory :=
  match c with
  | ViewStateCat _ => viewstate
  | StandardJsfCat _ => standard_jsf
  | ComponentIdCat _ => component_id
  | FormSubmitCat _ => form_submit
  | CustomCat _ => custom
  end.

(** [annotation || ""] *)
Definition or_empty (annotation : option jsstring) : jsstring :=
  match annotation with
  | Some a => if truthy (JString a) then a else []
  | None => []
  end.

Definition categorizeParameter (param : ParsedParameter) : Categorized :=
  let decodedName := decodedName param in
  if isViewStateParameter decodedName then
    let analysis := analyzeViewState (decodedValue param) in
    ViewStateCat {| vp_param := param;
                    vp_encoding := encoding analysis;
                    vp_decodedContent := decodedContent analysis;
                    vp_warnings := warnings analysis |}
  else if isStandardJsfParameter decodedName then
    let annotation := getAnnotation decodedName in
    StandardJsfCat {| ap_param := param; annotation := or_empty annotation |}
  else if isComponentIdParameter decodedName then
    let hierarchy := parseComponentId decodedName in
    ComponentIdCat {| cp_param := param; hierarchy := hierarchy |}
  else if isFormSubmitParameter decodedName then
    FormSubmitCat {| ap_param := param; annotation := SUBMIT_ANNOTATION |}
  else
    CustomCat param.

Definition empty_result : CategorizedParameters :=
  {| standardJsf := []; componentIds := []; viewState := None;
     formSubmit := []; custom_ := [] |}.

(** One turn of the loop of [categorizeParameters]: the [switch] on the
    category either pushes onto one array or assigns the ViewState slot. *)
Definition place (result : CategorizedParameters) (param : ParsedParameter)
  : CategorizedParameters :=
  match categorizeParameter param with
  | StandardJsfCat c =>
      {| standardJsf := standardJsf result ++ [c];
         componentIds := componentIds result;
         viewState := viewState result;
         formSubmit := formSubmit result;
         custom_ := custom_ result |}
  | ComponentIdCat c =>
      {| standardJsf := standardJsf result;
         componentIds := componentIds result ++ [c];
         viewState := viewState result;
         formSubmit := formSubmit result;
         custom_ := custom_ result |}
  | ViewStateCat c =>
      {| standardJsf := standardJsf result;
         componentIds := componentIds result;
         viewState := Some c;
         formSubmit := formSubmit result;
         custom_ := custom_ result |}
  | FormSubmitCat c =>
      {| standardJsf := standardJsf result;
         componentIds := componentIds result;
         viewState := viewState result;
         formSubmit := formSubmit result ++ [c];
         custom_ := custom_ result |}
  | CustomCat c =>
      {| standardJsf := standardJsf result;
         componentIds := componentIds result;
         viewState := viewState result;
         formSubmit := formSubmit result;
         custom_ := custom_ result ++ [c] |}
  end.

Definition categorizeParameters (params : list ParsedParameter)
  : CategorizedParameters :=
  fold_left place params empty_result.

End Categorizer.

(** ** viewstate.ts *)

Module ViewState.

Definition JAVA_SERIALIZATION_MAGIC : list N := [172; 237]%N.

(** [new Uint8Array(decoded.length)] filled with [decoded.charCodeAt(i)]:
    a store into a byte array keeps the low eight bits. *)
Definition to_Uint8Array (decoded : jsstring) : list N :=
  map (fun c => (c mod 256)%N) decoded.

Definition detectSerializedJava (decoded : list N) : bool :=
  if (arrlen decoded <? 2)%Z then false
  else
    match nth_error decoded 0, nth_error JAVA_SERIALIZATION_MAGIC 0,
          nth_error decoded 1, nth_error JAVA_SERIALIZATION_MAGIC 1 with
    | Some d0, Some m0, Some d1, Some m1 => (d0 =? m0)%N && (d1 =? m1)%N
    | _, _, _, _ => false
    end.

(** The rest of a string after its longest prefix of base64 letters. *)
Fixpoint after_b64 (s : jsstring) : jsstring :=
  match s with
  | [] => []
  | c :: s' => if is_b64 c then after_b64 s' else s
  end.

(** [/^[A-Za-z0-9+/]*={0,2}$/.test(s)].  "=" is not a base64 letter, so the
    match succeeds exactly when the longest prefix of letters is followed
    by at most two "=" and nothing else. *)
Definition base64Regex_test (s : jsstring) : bool :=
  match after_b64 s with
  | [] => true
  | [61%N] => true
  | [61%N; 61%N] => true
  | _ => false
  end.

Definition isBase64 (value : jsval) : Exc bool :=
  if not_a_string value then ret false
  else
    let value := str_of value in
    if negb (base64Regex_test value) then ret false
    else if negb (strlen value mod 4 =? 0)%Z then ret false
    else
      try_catch
        (decoded <- atob value ;; ret (0 <? strlen decoded)%Z)
        (fun _ => ret false).

Definition push_warning (w : jsstring) (a : ViewStateAnalysis)
  : ViewStateAnalysis :=
  {| encoding := encoding a;
     decodedContent := decodedContent a;
     isSerializedJava := isSerializedJava a;
     warnings := warnings a ++ [w] |}.

Definition set_encoding (e : Encoding) (a : ViewStateAnalysis)
  : ViewStateAnalysis :=
  {| encoding := e;
     decodedContent := decodedContent a;
     isSerializedJava := isSerializedJava a;
     warnings := warnings a |}.

Definition set_decodedContent (d : jsstring) (a : ViewStateAnalysis)
  : ViewStateAnalysis :=
  {| encoding := encoding a;
     decodedContent := Some d;
     isSerializedJava := isSerializedJava a;
     warnings := warnings a |}.

Definition set_isSerializedJava (a : ViewStateAnalysis) : ViewStateAnalysis :=
  {| encoding := encoding a;
     decodedContent := decodedContent a;
     isSerializedJava := true;
     warnings := warnings a |}.

Definition EMPTY_WARNING : jsstring :=
  lit "ViewState value is empty or invalid".
Definition JAVA_WARNING : jsstring :=
  lit "ViewState contains serialized Java object - potential deserialization vulnerability".
Definition DECODE_WARNING : jsstring :=
  lit "Failed to decode Base64 ViewState".
Definition NOT_BASE64_WARNING : jsstring :=
  lit "ViewState is not Base64 encoded - likely encrypted or using custom encoding".

Definition analyzeViewState (value : jsval) : Exc ViewStateAnalysis :=
  if not_a_string value then
    ret {| encoding := unknown_encoding;
           decodedContent := None;
           isSerializedJava := false;
           warnings := [EMPTY_WARNING] |}
  else
    let analysis :=
      {| encoding := unknown_encoding;
         decodedContent := None;
         isSerializedJava := false;
         warnings := [] |} in
    b <- isBase64 value ;;
    if b then
      let analysis := set_encoding base64 analysis in
      try_catch
        (decoded <- atob (str_of value) ;;
         let analysis := set_decodedContent decoded analysis in
         let uint8Array := to_Uint8Array decoded in
         if detectSerializedJava uint8Array then
           ret (push_warning JAVA_WARNING (set_isSerializedJava analysis))
         else ret analysis)
        (fun _ => ret (push_warning DECODE_WARNING analysis))
    else
      let analysis := set_encoding encrypted analysis in
      ret (push_warning NOT_BASE64_WARNING analysis).

End ViewState.

(** ** valueAnalyzer.ts (the ViewState branch of the value explainer) *)

Module ValueAnalyzer.

Record ValueAnalysis := mkValueAnalysis {
  va_type : jsstring;
  explanation : jsstring;
  details : option (list jsstring);
  warning : option jsstring
}.

(** The rest of a string after its longest prefix of "=". *)
Fixpoint after_equals (s : jsstring) : jsstring :=
  match s with
  | [] => []
  | c :: s' => if (c =? EQUALS)%N then after_equals s' else s
  end.

(** [/^[A-Za-z0-9+/]+=*$/.test(s)] *)
Definition base64Pattern_test (s : jsstring) : bool :=
  match s with
  | [] => false
  | c :: _ =>
      is_b64 c &&
      match after_equals (ViewState.after_b64 s) with
      | [] => true
      | _ :: _ => false
      end
  end.

Definition isBase64 (str : jsstring) : bool :=
  if negb (truthy (JString str)) || (strlen str <? 4)%Z then false
  else base64Pattern_test str && (strlen str mod 4 =? 0)%Z.

(** Decimal digits of a non-negative integer. *)
Definition digits (n : Z) : jsstring :=
  lit (NilZero.string_of_uint (N.to_uint (Z.to_N n))).

(** [(len / 1024).toFixed(2)] for an integer length.  The quotient
    is a binary fraction that a double holds exactly, so the result is
    the decimal expansion of [len * 100 / 1024] rounded to the nearest
    integer, ties upwards, with a point before its last two digits. *)
Definition sizeKB_toFixed2 (len : Z) : jsstring :=
  let n := ((len * 100 * 2 + 1024) / 2048)%Z in
  let m := digits n in
  let m := repeat 48%N (3 - length m) ++ m in
  firstn (length m - 2) m ++ lit "." ++ skipn (length m - 2) m.

Definition LARGE_WARNING : jsstring :=
  lit "Large ViewState detected - may impact performance and bandwidth".
Definition SHORT_WARNING : jsstring :=
  lit "Short ViewState may indicate client-side state storage".

Definition analyzeViewState (value : jsstring) : ValueAnalysis :=
  let details : list jsstring := [] in
  let warning : option jsstring := None in
  let '(details, warning) :=
    if isBase64 value then
      let details := details ++ [lit "Encoding: Base64"] in
      if (100 <? strlen value)%Z then
        (details ++ [lit "Likely encrypted or compressed"]
                 ++ [lit "Contains serialized component tree state"],
         warning)
      else
        (details ++ [lit "Short ViewState - possibly stateless mode"],
         Some SHORT_WARNING)
    else if startsWith value (lit "stateless") then
      (details ++ [lit "Stateless mode enabled"]
               ++ [lit "No server-side state stored"]
               ++ [lit "State is reconstructed on each request"],
       warning)
    else (details ++ [lit "Custom ViewState format"], warning) in
  let sizeKB := sizeKB_toFixed2 (strlen value) in
  let details :=
    details ++ [lit "Size: " ++ digits (strlen value) ++ lit " bytes ("
                  ++ sizeKB ++ lit " KB)"] in
  let warning :=
    if (10000 <? strlen value)%Z then Some LARGE_WARNING else warning in
  {| va_type := lit "ViewState";
     explanation := lit "Contains the serialized state of the JSF component tree";
     details := Some details;
     warning := warning |}.

End ValueAnalyzer.

(** ** The properties of the design document, as definitions *)

Module Spec.
Import Parser Annotations Detector.

(** A token "matches [^\d+$] exactly". *)
Definition matches_digits (tok : jsstring) : Prop :=
  tok <> [] /\ Forall (fun c => (48 <= c <= 57)%N) tok.

(** *** Form decoder, in the words of section 4.2 *)

Definition nonempty (s : jsstring) : bool :=
  match s with [] => false | _ :: _ => true end.

(** The non-empty "&"-delimited segments of a body, in order. *)
Definition segments (body : jsstring) : list jsstring :=
  filter nonempty (split body AMPERSAND).

(** What precedes the first "=" of a segment (all of it without one). *)
Fixpoint name_part (seg : jsstring) : jsstring :=
  match seg with
  | [] => []
  | c :: r => if (c =? EQUALS)%N then [] else c :: name_part r
  end.

(** What follows the first "=" of a segment (nothing without one). *)
Fixpoint value_part (seg : jsstring) : jsstring :=
  match seg with
  | [] => []
  | c :: r => if (c =? EQUALS)%N then r else value_part r
  end.

(** One pass of percent-decoding; a malformed field keeps its raw form. *)
Definition percent_decode_once (field : jsstring) : jsstring :=
  match decodeURIComponent field with
  | Ok d => d
  | Throw _ => field
  end.

Definition segment_parameter (seg : jsstring) : ParsedParameter :=
  {| name := name_part seg;
     decodedName := percent_decode_once (name_part seg);
     value := value_part seg;
     decodedValue := percent_decode_once (value_part seg) |}.

(** *** Detector *)

(** The decoded parameter names of a raw message or body. *)
Definition decodedNames (raw : jsstring) : list jsstring :=
  match parseJsfBody (JString raw) with
  | Ok r => map decodedName (parameters r)
  | Throw _ => []
  end.

Definition is_canonical (n : jsstring) : bool :=
  existsb (streq n) STANDARD_JSF_PARAMS.

Definition is_submit (n : jsstring) : bool := endsWith n (lit "_SUBMIT").

(** Detection consistency as section 8 states it. *)
Definition detection_consistency (raw : jsstring) (r : JsfDetectionResult)
  : Prop :=
  let canonical := existsb is_canonical (decodedNames raw) in
  let submit := existsb is_submit (decodedNames raw) in
  isJsf r = (canonical || submit) /\
  confidence r = (if canonical then high else if submit then medium else low).

(** The signals that the detector reacts to. *)
Definition in_namespace (n : jsstring) : bool :=
  startsWith n (lit "javax.faces.").

Definition is_version_key (n : jsstring) : bool :=
  existsb (fun e => streq n (fst e)) VERSION_INDICATORS.

Definition has_fingerprint (n : jsstring) : bool :=
  existsb (fun e => includes n (fst e)) IMPLEMENTATION_INDICATORS.

Definition is_signal (n : jsstring) : bool :=
  in_namespace n || is_submit n || is_version_key n || has_fingerprint n.

(** A field that the percent-decoder rejects. *)
Definition malformed_field (field : jsstring) : bool :=
  match decodeURIComponent field with
  | Ok _ => false
  | Throw _ => true
  end.

(** A body with a malformed name or value. *)
Definition malformed_input (body : jsstring) : bool :=
  existsb (fun seg => malformed_field (name_part seg)
                      || malformed_field (value_part seg))
          (segments body).

(** "Malformed input produces the all-false/low-confidence result." *)
Definition malformed_is_negative : Prop :=
  forall body, malformed_input body = true ->
               detectJsf (JString body) = Ok negative.

(** *** Categorizer *)

Definition category_eqb (a b : ParameterCategory) : bool :=
  match a, b with
  | standard_jsf, standard_jsf
  | component_id, component_id
  | viewstate, viewstate
  | form_submit, form_submit
  | custom, custom => true
  | _, _ => false
  end.

Definition category_of (p : ParsedParameter) : ParameterCategory :=
  Categorizer.category (Categorizer.categorizeParameter p).

(** The input parameters of one category, in input order. *)
Definition of_category (c : ParameterCategory) (params : list ParsedParameter)
  : list ParsedParameter :=
  filter (fun p => category_eqb (category_of p) c) params.

Definition last_opt {A : Type} (xs : list A) : option A :=
  match rev xs with
  | [] => None
  | x :: _ => Some x
  end.

(** The parameters held by each of the five buckets of a result. *)
Definition buckets (r : CategorizedParameters) : list (list ParsedParameter) :=
  [ map ap_param (standardJsf r);
    map cp_param (componentIds r);
    match viewState r with Some v => [vp_param v] | None => [] end;
    map ap_param (formSubmit r);
    custom_ r ].

(** The position of each category's bucket in [buckets]. *)
Definition bucket_index (c : ParameterCategory) : nat :=
  match c with
  | standard_jsf => 0
  | component_id => 1
  | viewstate => 2
  | form_submit => 3
  | custom => 4
  end.

(** "Every input parameter appears in exactly one of the five buckets." *)
Definition in_exactly_one_bucket (p : ParsedParameter)
  (r : CategorizedParameters) : Prop :=
  exists i, (i < 5)%nat /\ In p (nth i (buckets r) []) /\
            forall j, (j < 5)%nat -> In p (nth j (buckets r) []) -> j = i.

Definition exhaustive_and_exclusive (params : list ParsedParameter) : Prop :=
  forall p, In p params ->
            in_exactly_one_bucket p (Categorizer.categorizeParameters params).

(** Equality of parsed parameters, field by field. *)
Definition same_param (p q : ParsedParameter) : bool :=
  streq (name p) (name q) && streq (decodedName p) (decodedName q)
  && streq (value p) (value q) && streq (decodedValue p) (decodedValue q).

(** The number of occurrences of a parameter in a list. *)
Definition occurrences (p : ParsedParameter) (l : list ParsedParameter) : nat :=
  length (filter (same_param p) l).

Definition viewstate_named (p : ParsedParameter) : bool :=
  streq (decodedName p) (lit "javax.faces.ViewState").

(** The number of occurrences of [p] that the buckets should hold: all of
    them when [p] is not ViewState-named; of a ViewState-named one, a
    single occurrence when it is the last ViewState-named parameter of the
    input, and none otherwise. *)
Definition kept (params : list ParsedParameter) (p : ParsedParameter) : nat :=
  if viewstate_named p then
    match last_opt (filter viewstate_named params) with
    | Some q => if same_param p q then 1 else 0
    | None => 0
    end
  else occurrences p params.

End Spec.

(** ** Loop invariants *)

(** The parameter that a categorized parameter was spread from. *)
Definition param_of (c : Categorizer.Categorized) : ParsedParameter :=
  match c with
  | Categorizer.ViewStateCat v => vp_param v
  | Categorizer.StandardJsfCat a => ap_param a
  | Categorizer.ComponentIdCat c => cp_param c
  | Categorizer.FormSubmitCat a => ap_param a
  | Categorizer.CustomCat p => p
  end.

(** The request-type flags are raised only together with an indicator. *)
Definition flags_have_indicator (st : Detector.LoopVars) : Prop :=
  Detector.hasAjax st || Detector.hasViewState st = true ->
  (0 <? arrlen (Detector.v_indicators st))%Z = true.

(** ** Further notions for the properties of the code *)

(** The units that the encoder can produce. *)
Definition url_safe (c : N) : Prop := is_unescaped c = true \/ c = PERCENT.

(** The value of a base64 letter, as [atob] reads it. *)
Definition sextet (c : N) : N :=
  match b64val c with Some v => v | None => 0%N end.

Definition AJAX_NAME : jsstring := lit "javax.faces.partial.ajax".
Definition VIEWSTATE_NAME : jsstring := lit "javax.faces.ViewState".
Definition AJAX_LINE : jsstring := lit "Request type: AJAX Partial Request".
Definition POSTBACK_LINE : jsstring := lit "Request type: Full Page Postback".

(** An indicator that does not start with "R": every line but the two
    request-type lines. *)
Definition loop_line (l : jsstring) : Prop :=
  exists c t, l = c :: t /\ c <> 82%N.

(** What each categorized parameter carries besides the parameter. *)
Definition payload_ok (r : CategorizedParameters) : Prop :=
  Forall (fun a => annotation a
                   = Categorizer.or_empty
                       (Annotations.getAnnotation (decodedName (ap_param a))))
         (standardJsf r) /\
  Forall (fun c => hierarchy c
                   = [ {| id := decodedName (cp_param c);
                          type := unknown; depth := 0 |} ])
         (componentIds r) /\
  Forall (fun a => annotation a = Annotations.SUBMIT_ANNOTATION) (formSubmit r) /\
  match viewState r with
  | Some v => vp_encoding v = unknown_encoding /\
              vp_decodedContent v = None /\ vp_warnings v = []
  | None => True
  end.

(** A token of digits that is neither the first nor the last one. *)
Definition interior_index (tokens : list jsstring) : Prop :=
  exists i tok,
    (0 < i)%nat /\ (S i < length tokens)%nat /\
    nth_error tokens i = Some tok /\ re_digits tok = true.

(** Arithmetic with quotients and remainders by constants. *)
Ltac ndiv := zify; Z.to_euclidean_division_equations; lia.

(** Case analysis on the comparisons of a goal. *)
Ltac bool_to_prop :=
  repeat match goal with
         | H : context [(?a <=? ?b)%N] |- _ =>
             let E := fresh "E" in
             destruct (N.leb_spec a b) as [E|E]
         | |- context [(?a <=? ?b)%N] =>
             let E := fresh "E" in
             destruct (N.leb_spec a b) as [E|E]
         | H : context [(?a =? ?b)%N] |- _ =>
             let E := fresh "E" in
             destruct (N.eqb_spec a b) as [E|E]
         | |- context [(?a =? ?b)%N] =>
             let E := fresh "E" in
             destruct (N.eqb_spec a b) as [E|E]
         end.

(** The units of a literal, one by one. *)
Ltac all_units :=
  repeat first
    [ apply Forall_nil
    | apply Forall_cons; [first [vm_compute; reflexivity
                                | left; vm_compute; reflexivity
                                | right; vm_compute; reflexivity] |] ].

(** * Proofs *)

(** ** Strings and arrays *)

Lemma streq_eq (a b : jsstring) : streq a b = true <-> a = b.
Proof.
  revert b; induction a as [|x a IH]; intros [|y b]; simpl;
    try (split; [discriminate | discriminate]); try tauto.
  rewrite andb_true_iff, N.eqb_eq, IH.
  split; [intros [-> ->]; reflexivity | intros H; inversion H; auto].
Qed.

Lemma streq_refl (a : jsstring) : streq a a = true.
Proof. apply streq_eq; reflexivity. Qed.

Lemma streq_neq (a b : jsstring) : streq a b = false <-> a <> b.
Proof.
  rewrite <- streq_eq. destruct (streq a b); split; congruence.
Qed.

(** The guard lets through the non-empty strings and nothing else. *)
Lemma not_a_string_false (v : jsval) :
  not_a_string v = false -> exists c s, v = JString (c :: s).
Proof.
  unfold not_a_string.
  destruct v as [| |b|z|[|c s]]; simpl; rewrite ?orb_true_r;
    try discriminate.
  intros _; exists c, s; reflexivity.
Qed.

Lemma split_not_nil (s : jsstring) (sep : N) : split s sep <> [].
Proof.
  destruct s as [|c s]; simpl; [discriminate|].
  destruct (c =? sep)%N; [discriminate|].
  destruct (split s sep); discriminate.
Qed.

(** Joining the tokens of a split with the separator gives the string back. *)
Lemma join_split (s : jsstring) (sep : N) : join (split s sep) [sep] = s.
Proof.
  induction s as [|c s IH]; simpl; [reflexivity|].
  destruct (c =? sep)%N eqn:E.
  - apply N.eqb_eq in E; subst c.
    pose proof (split_not_nil s sep) as Hn.
    destruct (split s sep) as [|h t]; [congruence|].
    simpl. simpl in IH. rewrite IH. reflexivity.
  - pose proof (split_not_nil s sep) as Hn.
    destruct (split s sep) as [|h t]; [congruence|].
    simpl in *. destruct t; simpl in *; rewrite <- IH; reflexivity.
Qed.

Lemma map_mapi_from {A B : Type} (g : B -> A) (f : A -> Z -> B)
  (xs : list A) (k : Z) :
  (forall x i, g (f x i) = x) -> map g (mapi_from f xs k) = xs.
Proof.
  intros H; revert k; induction xs as [|x xs IH]; intros k; simpl;
    [reflexivity|]. rewrite H, IH; reflexivity.
Qed.

Lemma nth_error_mapi_from {A B : Type} (f : A -> Z -> B) (xs : list A)
  (k : Z) (i : nat) :
  nth_error (mapi_from f xs k) i =
  option_map (fun x => f x (k + Z.of_nat i)%Z) (nth_error xs i).
Proof.
  revert k i; induction xs as [|x xs IH]; intros k [|i]; simpl; try reflexivity.
  - rewrite Z.add_0_r; reflexivity.
  - rewrite IH. destruct (nth_error xs i); simpl; [|reflexivity].
    do 2 f_equal. lia.
Qed.

Lemma is_digit_iff (c : N) : is_digit c = true <-> (48 <= c <= 57)%N.
Proof.
  unfold is_digit. rewrite andb_true_iff, !N.leb_le. tauto.
Qed.

Lemma re_digits_iff (tok : jsstring) :
  re_digits tok = true <-> Spec.matches_digits tok.
Proof.
  unfold Spec.matches_digits, re_digits.
  destruct tok as [|c tok]; [split; [discriminate | intros [H _]; congruence]|].
  rewrite forallb_forall, Forall_forall.
  split.
  - intros H; split; [discriminate|].
    intros x Hx; apply is_digit_iff; auto.
  - intros [_ H] x Hx; apply is_digit_iff; auto.
Qed.

(** ** Component-ID parser *)

(** C4: for every input string, joining the ids of the parsed levels with
    ":" gives the input back, also with leading, trailing or doubled
    colons and for the empty string. *)
Theorem parse_format_roundtrip (s : jsstring) :
  ComponentId.formatComponentIdTree (ComponentId.parseComponentId (JString s))
  = s.
Proof.
  unfold ComponentId.parseComponentId, ComponentId.formatComponentIdTree.
  destruct s as [|c s]; [reflexivity|].
  cbn [not_a_string truthy typeof_string negb orb str_of].
  unfold mapi.
  pose proof (split_not_nil (c :: s) COLON) as Hn.
  pose proof (join_split (c :: s) COLON) as Hj.
  set (f := fun (part : jsstring) (i : Z) => _) in *.
  assert (Hm : map id (mapi_from f (split (c :: s) COLON) 0) = split (c :: s) COLON)
    by (apply map_mapi_from; reflexivity).
  destruct (mapi_from f (split (c :: s) COLON) 0) as [|l ls] eqn:E.
  - exfalso. apply Hn. symmetry. exact Hm.
  - rewrite Hm. exact Hj.
Qed.

(** C6: the level made from the token at position [i] of the split of a
    component identifier keeps the token, has depth [i], and its type is
    [index] iff the token matches [^\d+$], [unknown] iff the token is
    empty, [component] otherwise.  (The parser returns no level at all for
    the empty identifier.) *)
Theorem level_classification (s : jsstring) (i : nat) (tok : jsstring) :
  s <> [] ->
  nth_error (split s COLON) i = Some tok ->
  exists lvl,
    nth_error (ComponentId.parseComponentId (JString s)) i = Some lvl /\
    id lvl = tok /\
    depth lvl = Z.of_nat i /\
    (type lvl = index <-> Spec.matches_digits tok) /\
    (type lvl = unknown <-> tok = []) /\
    (type lvl = component <-> tok <> [] /\ ~ Spec.matches_digits tok).
Proof.
  intros Hs Hi.
  unfold ComponentId.parseComponentId.
  destruct s as [|c s]; [congruence|].
  cbn [not_a_string truthy typeof_string negb orb str_of].
  unfold mapi. rewrite nth_error_mapi_from, Hi. simpl option_map.
  eexists; split; [reflexivity|]. simpl id; simpl depth; simpl type.
  split; [reflexivity|]. split; [reflexivity|].
  pose proof (re_digits_iff tok) as Hd.
  destruct (re_digits tok) eqn:E.
  - assert (Hm : Spec.matches_digits tok) by (apply Hd; reflexivity).
    assert (Hne : tok <> []) by (destruct Hm; assumption).
    split; [tauto|]. split.
    + split; [discriminate | contradiction].
    + split; [discriminate | tauto].
  - assert (Hm : ~ Spec.matches_digits tok)
      by (intros H; apply Hd in H; discriminate).
    destruct tok as [|t tok]; simpl.
    + split; [split; [discriminate | contradiction]|].
      split; [tauto|].
      split; [discriminate | intros [H _]; congruence].
    + split; [split; [discriminate | contradiction]|].
      split; [split; discriminate|].
      split; [intros _; split; [discriminate | assumption] | reflexivity].
Qed.

Lemma level_classification_witness :
  exists lvl,
    nth_error (ComponentId.parseComponentId
                 (JString (lit "j_id_3x:j_id_40:0:j_id_42"))) 2 = Some lvl /\
    id lvl = lit "0" /\
    depth lvl = 2%Z /\
    (type lvl = index <-> Spec.matches_digits (lit "0")) /\
    (type lvl = unknown <-> lit "0" = []) /\
    (type lvl = component <-> lit "0" <> [] /\ ~ Spec.matches_digits (lit "0")).
Proof.
  apply (level_classification (lit "j_id_3x:j_id_40:0:j_id_42") 2 (lit "0")).
  - vm_compute; discriminate.
  - vm_compute; reflexivity.
Defined.

(** ** Form decoder *)

Lemma decodeParameter_once (s : jsstring) :
  Decoder.decodeParameter (JString s) = Ok (Spec.percent_decode_once s).
Proof.
  unfold Decoder.decodeParameter, Spec.percent_decode_once.
  destruct s as [|c s]; [reflexivity|].
  cbn [not_a_string truthy typeof_string negb orb str_of].
  destruct (decodeURIComponent (c :: s)); reflexivity.
Qed.

(** [indexOf("=")] finds the place where [name_part] stops. *)
Lemma indexOf_equals (s : jsstring) (k : Z) :
  (indexOf_from s (lit "=") k = (-1)%Z /\
   Spec.name_part s = s /\ Spec.value_part s = []) \/
  (exists i : nat,
      indexOf_from s (lit "=") k = (k + Z.of_nat i)%Z /\
      (i < length s)%nat /\
      firstn i s = Spec.name_part s /\
      skipn (S i) s = Spec.value_part s).
Proof.
  revert k; induction s as [|c s IH]; intros k.
  - left; repeat split; reflexivity.
  - change (lit "=") with [EQUALS] in *.
    cbn [indexOf_from startsWith Spec.name_part Spec.value_part].
    rewrite andb_true_r, N.eqb_sym.
    destruct (c =? EQUALS)%N eqn:E.
    + right; exists 0%nat. simpl. repeat split; [lia | lia].
    + destruct (IH (k + 1)%Z) as [(H1 & H2 & H3) | (i & H1 & H2 & H3 & H4)].
      * left. rewrite H1, H2, H3. repeat split.
      * right; exists (S i). rewrite H1. simpl length.
        repeat split; [lia | lia | |].
        -- simpl. rewrite H3; reflexivity.
        -- simpl. simpl in H4. exact H4.
Qed.

Lemma substring_prefix (s : jsstring) (i : nat) :
  (i <= length s)%nat -> substring s 0 (Z.of_nat i) = firstn i s.
Proof.
  intros H. unfold substring, clamp, strlen.
  replace (Z.min (Z.max 0 0) (Z.of_nat (length s))) with 0%Z by lia.
  replace (Z.min (Z.max (Z.of_nat i) 0) (Z.of_nat (length s)))
    with (Z.of_nat i) by lia.
  replace (Z.min 0 (Z.of_nat i)) with 0%Z by lia.
  replace (Z.max 0 (Z.of_nat i)) with (Z.of_nat i) by lia.
  rewrite Z.sub_0_r, Nat2Z.id. reflexivity.
Qed.

Lemma substring_suffix (s : jsstring) (i : nat) :
  (i <= length s)%nat -> substring_from s (Z.of_nat i) = skipn i s.
Proof.
  intros H. unfold substring_from, substring, clamp, strlen.
  replace (Z.min (Z.max (Z.of_nat i) 0) (Z.of_nat (length s)))
    with (Z.of_nat i) by lia.
  replace (Z.min (Z.max (Z.of_nat (length s)) 0) (Z.of_nat (length s)))
    with (Z.of_nat (length s)) by lia.
  replace (Z.min (Z.of_nat i) (Z.of_nat (length s))) with (Z.of_nat i) by lia.
  replace (Z.max (Z.of_nat i) (Z.of_nat (length s)))
    with (Z.of_nat (length s)) by lia.
  rewrite Nat2Z.id, <- Nat2Z.inj_sub, Nat2Z.id by lia.
  apply firstn_all2. rewrite length_skipn. lia.
Qed.

(** One turn of the loop: an empty segment is skipped, any other segment
    adds the parameter that the specification describes. *)
Lemma parse_pair_spec (parameters : list ParsedParameter) (pair : jsstring) :
  Parser.parse_pair parameters pair =
  Ok (if Spec.nonempty pair
      then parameters ++ [Spec.segment_parameter pair]
      else parameters).
Proof.
  unfold Parser.parse_pair.
  destruct pair as [|c pair]; [reflexivity|].
  cbn [truthy negb Spec.nonempty].
  unfold indexOf.
  destruct (indexOf_equals (c :: pair) 0) as [(H1 & H2 & H3) | (i & H1 & H2 & H3 & H4)].
  - rewrite H1, Z.eqb_refl. cbv beta iota zeta.
    rewrite !decodeParameter_once. cbn [bind ret].
    unfold Spec.segment_parameter. rewrite H2, H3. reflexivity.
  - rewrite H1. rewrite Z.add_0_l.
    destruct (Z.of_nat i =? -1)%Z eqn:E; [apply Z.eqb_eq in E; lia|].
    cbv beta iota zeta.
    rewrite substring_prefix by lia.
    replace (Z.of_nat i + 1)%Z with (Z.of_nat (S i)) by lia.
    rewrite substring_suffix by lia.
    rewrite H3, H4.
    rewrite !decodeParameter_once. cbn [bind ret].
    reflexivity.
Qed.

Lemma parse_loop_spec (pairs : list jsstring) (acc : list ParsedParameter) :
  fold_left (fun acc pair => parameters <- acc ;; Parser.parse_pair parameters pair)
            pairs (Ok acc)
  = Ok (acc ++ map Spec.segment_parameter (filter Spec.nonempty pairs)).
Proof.
  revert acc; induction pairs as [|p pairs IH]; intros acc; simpl.
  - rewrite app_nil_r; reflexivity.
  - rewrite parse_pair_spec.
    destruct (Spec.nonempty p); rewrite IH; simpl; [|reflexivity].
    rewrite <- app_assoc; reflexivity.
Qed.

Lemma parseUrlEncodedBody_segments (body : jsstring) :
  Parser.parseUrlEncodedBody (JString body)
  = Ok (map Spec.segment_parameter (Spec.segments body)).
Proof.
  unfold Parser.parseUrlEncodedBody, Spec.segments.
  destruct body as [|c body]; [reflexivity|].
  cbn [not_a_string truthy typeof_string negb orb str_of].
  unfold ret. rewrite parse_loop_spec. reflexivity.
Qed.

(** C7: the form decoder returns, without raising, one parameter for each
    non-empty "&"-delimited segment, in order; the segment is cut at its
    first "=" (the value is empty without one); each decoded field is one
    pass of percent-decoding over the raw field, and a field whose escapes
    are malformed keeps its raw form. *)
Theorem form_decoder_contract (body : jsstring) :
  Parser.parseUrlEncodedBody (JString body)
  = Ok (map Spec.segment_parameter (Spec.segments body)).
Proof. exact (parseUrlEncodedBody_segments body). Qed.

(** Decoding is not repeated: a doubly encoded space stays encoded once. *)
Example decode_once_example :
  Spec.percent_decode_once (lit "hello%2520world") = lit "hello%20world".
Proof. vm_compute; reflexivity. Qed.

(** A malformed escape leaves that field raw and the others decoded. *)
Example malformed_field_example :
  Parser.parseUrlEncodedBody (JString (lit "a%20b=%ZZ&c"))
  = Ok [ {| name := lit "a%20b"; decodedName := lit "a b";
            value := lit "%ZZ"; decodedValue := lit "%ZZ" |};
         {| name := lit "c"; decodedName := lit "c";
            value := []; decodedValue := [] |} ].
Proof. vm_compute; reflexivity. Qed.

(** ** Detector *)

Lemma arrlen_zero {A : Type} (xs : list A) :
  (arrlen xs =? 0)%Z = match xs with [] => true | _ :: _ => false end.
Proof. destruct xs; reflexivity. Qed.

Lemma arrlen_pos {A : Type} (xs : list A) :
  (0 <? arrlen xs)%Z = match xs with [] => false | _ :: _ => true end.
Proof. destruct xs; reflexivity. Qed.

Lemma arrlen_pos_app {A : Type} (xs ys : list A) :
  (0 <? arrlen (xs ++ ys))%Z = (0 <? arrlen xs)%Z || (0 <? arrlen ys)%Z.
Proof. rewrite !arrlen_pos. destruct xs, ys; reflexivity. Qed.

Lemma existsb_orb {A : Type} (f g : A -> bool) (xs : list A) :
  existsb (fun x => f x || g x) xs = existsb f xs || existsb g xs.
Proof.
  induction xs as [|x xs IH]; simpl; [reflexivity|].
  rewrite IH. destruct (f x), (g x), (existsb f xs), (existsb g xs); reflexivity.
Qed.

(** Parsing never raises: the body is found and decoded as section 4.2
    describes. *)
Lemma parseJsfBody_string (s : jsstring) :
  exists body,
    Parser.parseJsfBody (JString s)
    = Ok {| parameters := map Spec.segment_parameter (Spec.segments body);
            rawBody := body |}.
Proof.
  unfold Parser.parseJsfBody.
  destruct s as [|c s]; [exists []; reflexivity|].
  cbn [not_a_string truthy typeof_string negb orb str_of].
  match goal with
  | |- context [Parser.parseUrlEncodedBody (JString ?b)] => exists b
  end.
  rewrite parseUrlEncodedBody_segments. reflexivity.
Qed.

Lemma parseJsfBody_total (raw : jsval) :
  exists pr, Parser.parseJsfBody raw = Ok pr.
Proof.
  destruct (not_a_string raw) eqn:G.
  - unfold Parser.parseJsfBody. rewrite G. eexists; reflexivity.
  - destruct (not_a_string_false raw G) as (c & s & ->).
    destruct (parseJsfBody_string (c :: s)) as [body H]. eexists; exact H.
Qed.

(** The inner loop leaves [versionFeatures] non-empty exactly when it was
    so before or the name is one of the keys. *)
Lemma version_loop (n : jsstring) (entries : Annotations.table)
  (vf : list jsstring) :
  (0 <? arrlen (fold_left (Detector.version_step n) entries vf))%Z
  = (0 <? arrlen vf)%Z || existsb (fun e => streq n (fst e)) entries.
Proof.
  revert vf; induction entries as [|[key version] entries IH]; intros vf;
    simpl; [rewrite orb_false_r; reflexivity|].
  rewrite IH. destruct (streq n key) eqn:E; simpl; [|reflexivity].
  unfold Detector.array_includes.
  destruct (existsb (streq version) vf) eqn:I; simpl.
  - destruct vf; [discriminate|]. reflexivity.
  - rewrite arrlen_pos_app. destruct (0 <? arrlen vf)%Z; reflexivity.
Qed.

Lemma param_step_spec (st : Detector.LoopVars) (p : ParsedParameter) :
  let st' := Detector.param_step st p in
  let n := decodedName p in
  Detector.hasStandardJsf st'
    = Detector.hasStandardJsf st || Spec.in_namespace n /\
  (0 <? arrlen (Detector.v_indicators st'))%Z
    = (0 <? arrlen (Detector.v_indicators st))%Z
      || (Spec.in_namespace n || Spec.is_submit n) /\
  (0 <? arrlen (Detector.versionFeatures st'))%Z
    = (0 <? arrlen (Detector.versionFeatures st))%Z || Spec.is_version_key n /\
  (flags_have_indicator st -> flags_have_indicator st').
Proof.
  unfold Detector.param_step, Spec.in_namespace, Spec.is_submit,
    Spec.is_version_key, flags_have_indicator.
  destruct st as [ind std ajax vs vf].
  destruct (startsWith (decodedName p) (lit "javax.faces."));
    destruct (streq (decodedName p) (lit "javax.faces.partial.ajax"));
    destruct (streq (decodedName p) (lit "javax.faces.ViewState"));
    destruct (endsWith (decodedName p) (lit "_SUBMIT"));
    cbn [Detector.set_hasStandardJsf Detector.push_indicator
         Detector.set_hasAjax Detector.set_hasViewState
         Detector.set_versionFeatures Detector.v_indicators
         Detector.hasStandardJsf Detector.hasAjax Detector.hasViewState
         Detector.versionFeatures];
    rewrite version_loop, ?arrlen_pos_app, ?orb_true_r, ?orb_false_r;
    repeat split; auto;
    try (cbn [arrlen length Z.ltb Z.of_nat Z.compare orb];
         rewrite ?orb_true_r; reflexivity).
Qed.

Lemma param_loop_spec (ps : list ParsedParameter) (st : Detector.LoopVars) :
  let st' := fold_left Detector.param_step ps st in
  let names := map decodedName ps in
  Detector.hasStandardJsf st'
    = Detector.hasStandardJsf st || existsb Spec.in_namespace names /\
  (0 <? arrlen (Detector.v_indicators st'))%Z
    = (0 <? arrlen (Detector.v_indicators st))%Z
      || (existsb Spec.in_namespace names || existsb Spec.is_submit names) /\
  (0 <? arrlen (Detector.versionFeatures st'))%Z
    = (0 <? arrlen (Detector.versionFeatures st))%Z
      || existsb Spec.is_version_key names /\
  (flags_have_indicator st -> flags_have_indicator st').
Proof.
  revert st; induction ps as [|p ps IH]; intros st.
  - simpl. rewrite !orb_false_r. auto.
  - cbn [fold_left map existsb].
    destruct (param_step_spec st p) as (S1 & S2 & S3 & S4).
    destruct (IH (Detector.param_step st p)) as (L1 & L2 & L3 & L4).
    cbv zeta in *. rewrite L1, L2, L3, S1, S2, S3.
    repeat split; auto.
    + rewrite orb_assoc; reflexivity.
    + destruct (0 <? arrlen (Detector.v_indicators st))%Z,
        (Spec.in_namespace (decodedName p)), (Spec.is_submit (decodedName p)),
        (existsb Spec.in_namespace (map decodedName ps)),
        (existsb Spec.is_submit (map decodedName ps)); reflexivity.
    + rewrite orb_assoc; reflexivity.
Qed.

(** A fingerprint is reported exactly when some name contains a key of the
    table, and the reported library name is never empty. *)
Lemma first_fingerprint_spec (n : jsstring) :
  match Annotations.first_fingerprint Annotations.IMPLEMENTATION_INDICATORS n with
  | Some v => Spec.has_fingerprint n = true /\ truthy (JString v) = true
  | None => Spec.has_fingerprint n = false
  end.
Proof.
  unfold Spec.has_fingerprint, Annotations.IMPLEMENTATION_INDICATORS,
    Annotations.entry.
  cbn [Annotations.first_fingerprint existsb fst].
  repeat match goal with
         | |- context [includes n ?k] => destruct (includes n k)
         end; cbn [orb]; auto.
Qed.

Lemma detectImplementation_spec (names : list jsstring) :
  match Annotations.detectImplementation names with
  | Some v => existsb Spec.has_fingerprint names = true /\
              truthy (JString v) = true
  | None => existsb Spec.has_fingerprint names = false
  end.
Proof.
  induction names as [|n names IH]; [reflexivity|].
  cbn [Annotations.detectImplementation existsb].
  pose proof (first_fingerprint_spec n) as F.
  destruct (Annotations.first_fingerprint Annotations.IMPLEMENTATION_INDICATORS n).
  - destruct F as [-> F]. auto.
  - rewrite F. exact IH.
Qed.

(** What the end of the [try] block makes of the loop variables. *)
Lemma conclude_spec (names : list jsstring) (st : Detector.LoopVars) :
  flags_have_indicator st ->
  let r := Detector.conclude names st in
  isJsf r = (0 <? arrlen (indicators r))%Z /\
  isJsf r = (0 <? arrlen (Detector.v_indicators st))%Z
            || existsb Spec.has_fingerprint names
            || (0 <? arrlen (Detector.versionFeatures st))%Z /\
  confidence r = (if isJsf r
                  then if Detector.hasStandardJsf st then high else medium
                  else low).
Proof.
  intros Hinv. unfold Detector.conclude.
  cbn [isJsf indicators confidence].
  split; [reflexivity|]. split; [|reflexivity].
  pose proof (detectImplementation_spec names) as D.
  unfold flags_have_indicator in Hinv.
  destruct (Annotations.detectImplementation names) as [impl|].
  - destruct D as [-> ->].
    destruct (0 <? arrlen (Detector.versionFeatures st))%Z;
      destruct (Detector.hasAjax st); destruct (Detector.hasViewState st);
      rewrite ?arrlen_pos_app, ?orb_true_r; reflexivity.
  - rewrite D.
    destruct (0 <? arrlen (Detector.versionFeatures st))%Z;
      destruct (Detector.hasAjax st); destruct (Detector.hasViewState st);
      rewrite ?arrlen_pos_app, ?orb_true_r, ?orb_false_r;
      try reflexivity;
      try (rewrite Hinv by reflexivity; reflexivity).
Qed.

Lemma flags_have_indicator_init : flags_have_indicator Detector.init_vars.
Proof. unfold flags_have_indicator; simpl; discriminate. Qed.

(** The detector on a string: no exception leaves it, and its result is
    the negative one or the conclusion drawn from the loop. *)
Lemma detectJsf_string (s : jsstring) :
  exists pr,
    Parser.parseJsfBody (JString s) = Ok pr /\
    Detector.detectJsf (JString s)
    = Ok (match parameters pr with
          | [] => Detector.negative
          | _ :: _ =>
              Detector.conclude (map decodedName (parameters pr))
                (fold_left Detector.param_step (parameters pr)
                   Detector.init_vars)
          end).
Proof.
  destruct (parseJsfBody_total (JString s)) as [pr H].
  exists pr; split; [exact H|].
  unfold Detector.detectJsf.
  destruct s as [|c s].
  - cbn [not_a_string truthy typeof_string negb orb].
    unfold Parser.parseJsfBody in H. simpl in H. inversion H; subst pr.
    reflexivity.
  - cbn [not_a_string truthy typeof_string negb orb].
    unfold Detector.detectJsf_try. rewrite H. cbn [bind try_catch].
    rewrite arrlen_zero. destruct (parameters pr); reflexivity.
Qed.

(** C8: every result of the detector, for every input, has
    [isJsf == (indicators.length > 0)]. *)
Theorem isJsf_iff_indicators (raw : jsval) :
  exists r,
    Detector.detectJsf raw = Ok r /\
    isJsf r = (0 <? arrlen (indicators r))%Z.
Proof.
  destruct (not_a_string raw) eqn:G.
  - exists Detector.negative. unfold Detector.detectJsf. rewrite G.
    split; reflexivity.
  - destruct (not_a_string_false raw G) as (c & s & ->).
    destruct (detectJsf_string (c :: s)) as (pr & _ & ->).
    eexists; split; [reflexivity|].
    destruct (parameters pr) as [|p ps]; [reflexivity|].
    apply conclude_spec.
    apply param_loop_spec. apply flags_have_indicator_init.
Qed.

Lemma decodedNames_of (s : jsstring) (pr : ParseResult) :
  Parser.parseJsfBody (JString s) = Ok pr ->
  Spec.decodedNames s = map decodedName (parameters pr).
Proof. unfold Spec.decodedNames; intros ->; reflexivity. Qed.

(** C1, as the code has it: a request is detected iff some decoded name
    lies under the "javax.faces." prefix, ends in "_SUBMIT", is a
    version-feature key, or contains an implementation fingerprint;
    confidence is high iff some name lies under the prefix, medium iff the
    request is detected without such a name, low iff it is not detected. *)
Theorem detection_signals (raw : jsstring) :
  exists r,
    Detector.detectJsf (JString raw) = Ok r /\
    isJsf r = existsb Spec.is_signal (Spec.decodedNames raw) /\
    confidence r =
      (if existsb Spec.in_namespace (Spec.decodedNames raw) then high
       else if existsb Spec.is_signal (Spec.decodedNames raw) then medium
       else low).
Proof.
  destruct (detectJsf_string raw) as (pr & Hp & Hd).
  rewrite (decodedNames_of raw pr Hp).
  eexists; split; [exact Hd|].
  destruct (parameters pr) as [|p ps] eqn:E; [split; reflexivity|].
  rewrite <- E. clear E p ps Hp Hd.
  set (ps := parameters pr). set (names := map decodedName ps).
  destruct (param_loop_spec ps Detector.init_vars) as (L1 & L2 & L3 & L4).
  destruct (conclude_spec names (fold_left Detector.param_step ps Detector.init_vars)
              (L4 flags_have_indicator_init)) as (_ & C2 & C3).
  cbv zeta in *. fold names in L1, L2, L3.
  rewrite C3, C2, L1, L2, L3.
  cbn [Detector.init_vars Detector.hasStandardJsf Detector.v_indicators
       Detector.versionFeatures arrlen length Z.of_nat Z.ltb Z.compare orb].
  unfold Spec.is_signal.
  rewrite !existsb_orb.
  destruct (existsb Spec.in_namespace names), (existsb Spec.is_submit names),
    (existsb Spec.is_version_key names), (existsb Spec.has_fingerprint names);
    split; reflexivity.
Qed.

(** C1 fails as stated: the body "jffi=1" holds no canonical name and no
    name ending in "_SUBMIT", yet it is detected, with medium confidence,
    through the version-feature key "jffi". *)
Lemma detection_consistency_counterexample :
  exists r,
    Detector.detectJsf (JString (lit "jffi=1")) = Ok r /\
    isJsf r = true /\ confidence r = medium /\
    existsb Spec.is_canonical (Spec.decodedNames (lit "jffi=1")) = false /\
    existsb Spec.is_submit (Spec.decodedNames (lit "jffi=1")) = false /\
    ~ Spec.detection_consistency (lit "jffi=1") r.
Proof.
  eexists; split; [vm_compute; reflexivity|].
  repeat split; try (vm_compute; reflexivity).
  unfold Spec.detection_consistency. intros [H _].
  vm_compute in H. discriminate.
Qed.

(** Two more bodies without a canonical or "_SUBMIT" name: a name under
    the prefix that is not in the closed list gives high confidence, and
    an implementation fingerprint alone gives medium confidence. *)
Example detection_other_signals :
  (exists r,
      Detector.detectJsf (JString (lit "javax.faces.foo=1")) = Ok r /\
      isJsf r = true /\ confidence r = high /\
      existsb Spec.is_canonical (Spec.decodedNames (lit "javax.faces.foo=1"))
      = false) /\
  (exists r,
      Detector.detectJsf (JString (lit "org.primefaces.x=1")) = Ok r /\
      isJsf r = true /\ confidence r = medium).
Proof.
  split; eexists; (split; [vm_compute; reflexivity|]);
    repeat split; vm_compute; reflexivity.
Qed.

(** The result is the negative one exactly when no decoded name carries a
    signal. *)
Lemma negative_iff_no_signal (ps : list ParsedParameter) :
  match ps with
  | [] => Detector.negative
  | _ :: _ => Detector.conclude (map decodedName ps)
                (fold_left Detector.param_step ps Detector.init_vars)
  end = Detector.negative
  <-> existsb Spec.is_signal (map decodedName ps) = false.
Proof.
  destruct ps as [|p ps'] eqn:E; [split; reflexivity|]. rewrite <- E.
  clear E p ps'.
  set (names := map decodedName ps).
  destruct (param_loop_spec ps Detector.init_vars) as (L1 & L2 & L3 & L4).
  destruct (conclude_spec names
              (fold_left Detector.param_step ps Detector.init_vars)
              (L4 flags_have_indicator_init)) as (C1 & C2 & C3).
  cbv zeta in *. fold names in L1, L2, L3, C1, C2, C3 |- *.
  assert (S : isJsf (Detector.conclude names
                       (fold_left Detector.param_step ps Detector.init_vars))
              = existsb Spec.is_signal names).
  { rewrite C2, L2, L3.
    cbn [Detector.init_vars Detector.v_indicators Detector.versionFeatures
         arrlen length Z.of_nat Z.ltb Z.compare orb].
    unfold Spec.is_signal. rewrite !existsb_orb.
    destruct (existsb Spec.in_namespace names), (existsb Spec.is_submit names),
      (existsb Spec.is_version_key names),
      (existsb Spec.has_fingerprint names); reflexivity. }
  rewrite <- S. clear S C2 L1 L2 L3 L4.
  destruct (Detector.conclude names
              (fold_left Detector.param_step ps Detector.init_vars))
    as [j c ind].
  cbn [isJsf confidence indicators] in *. split.
  - intros H. inversion H. reflexivity.
  - intros ->. rewrite C3. rewrite arrlen_pos in C1.
    destruct ind; [reflexivity | discriminate C1].
Qed.

(** C9, as the code has it: the detector never raises.  For every value,
    string or not, it returns a result, and so does the body parser; when
    the [try] block is entered it returns by itself, so that the [catch]
    clause, which maps every exception to the negative result, is never
    taken.  The result is the negative one when the value is empty or not
    a string and when the body yields no parameter.  Malformed escapes do
    not lead to it: a malformed field keeps its raw form as its decoded
    form, and the result is the negative one exactly when no decoded name
    carries a signal. *)
Theorem detectJsf_never_raises (raw : jsval) :
  exists r pr,
    Detector.detectJsf raw = Ok r /\
    Parser.parseJsfBody raw = Ok pr /\
    (not_a_string raw = false -> Detector.detectJsf_try raw = Ok r) /\
    (forall e : exn, Detector.detectJsf_catch e = Ok Detector.negative) /\
    (not_a_string raw = true \/ parameters pr = [] -> r = Detector.negative) /\
    parameters pr = map Spec.segment_parameter (Spec.segments (rawBody pr)) /\
    (r = Detector.negative <->
     existsb Spec.is_signal (map decodedName (parameters pr)) = false).
Proof.
  destruct (not_a_string raw) eqn:G.
  - exists Detector.negative, {| parameters := []; rawBody := [] |}.
    unfold Detector.detectJsf, Parser.parseJsfBody. rewrite G.
    split; [reflexivity|]. split; [reflexivity|].
    split; [discriminate|]. split; [reflexivity|].
    split; [reflexivity|]. split; [reflexivity|].
    split; reflexivity.
  - destruct (not_a_string_false raw G) as (c & s & ->).
    destruct (parseJsfBody_string (c :: s)) as [body Hp].
    destruct (detectJsf_string (c :: s)) as (pr & Hp' & Hd).
    rewrite Hp in Hp'. inversion Hp'; subst pr. clear Hp'.
    cbn [parameters rawBody] in *.
    eexists; eexists. split; [exact Hd|]. split; [exact Hp|].
    cbn [parameters rawBody].
    split.
    { intros _. unfold Detector.detectJsf_try. rewrite Hp.
      cbn [bind parameters]. rewrite arrlen_zero.
      destruct (map Spec.segment_parameter (Spec.segments body));
        reflexivity. }
    split; [reflexivity|].
    split.
    { intros [H|H]; [discriminate H|]. rewrite H. reflexivity. }
    split; [reflexivity|].
    apply negative_iff_no_signal.
Qed.

(** C9 fails as stated: the value of the body "javax.faces.ViewState=%ZZ"
    is malformed, yet the request is detected, with high confidence and
    three indicators. *)
Lemma malformed_input_counterexample :
  exists r,
    Detector.detectJsf (JString (lit "javax.faces.ViewState=%ZZ")) = Ok r /\
    Spec.malformed_input (lit "javax.faces.ViewState=%ZZ") = true /\
    isJsf r = true /\ confidence r = high /\
    length (indicators r) = 3%nat /\
    r <> Detector.negative /\
    ~ Spec.malformed_is_negative.
Proof.
  eexists; split; [vm_compute; reflexivity|].
  assert (M : Spec.malformed_input (lit "javax.faces.ViewState=%ZZ") = true)
    by (vm_compute; reflexivity).
  split; [exact M|].
  split; [reflexivity|]. split; [reflexivity|]. split; [reflexivity|].
  split; [intros H; discriminate H|].
  intros H. specialize (H (lit "javax.faces.ViewState=%ZZ") M).
  vm_compute in H. discriminate H.
Qed.

(** Inputs without any signal end in the negative result, malformed or
    not: malformed escapes, a missing body, an empty message and values
    that are no strings. *)
Example detectJsf_malformed_inputs :
  Detector.detectJsf (JString (lit "%ZZ=%E0%80&%=%4")) = Ok Detector.negative /\
  Detector.detectJsf (JString (lit "invalid request")) = Ok Detector.negative /\
  Detector.detectJsf (JString (lit "POST /test HTTP/1.1" ++ Parser.CRLFCRLF))
    = Ok Detector.negative /\
  Detector.detectJsf (JString []) = Ok Detector.negative /\
  Detector.detectJsf JNull = Ok Detector.negative /\
  Detector.detectJsf JUndefined = Ok Detector.negative /\
  Detector.detectJsf (JNumber 7) = Ok Detector.negative.
Proof. repeat split; vm_compute; reflexivity. Qed.

(** ** Categorizer *)

Lemma param_of_categorizeParameter (p : ParsedParameter) :
  param_of (Categorizer.categorizeParameter p) = p.
Proof.
  unfold Categorizer.categorizeParameter.
  destruct (Categorizer.isViewStateParameter (decodedName p)); [reflexivity|].
  destruct (Categorizer.isStandardJsfParameter (decodedName p)); [reflexivity|].
  destruct (Categorizer.isComponentIdParameter (decodedName p)); [reflexivity|].
  destruct (Categorizer.isFormSubmitParameter (decodedName p)); reflexivity.
Qed.

Lemma last_opt_cons {A : Type} (x : A) (xs : list A) :
  Spec.last_opt (x :: xs)
  = match Spec.last_opt xs with Some y => Some y | None => Some x end.
Proof.
  unfold Spec.last_opt. simpl. destruct (rev xs); reflexivity.
Qed.

Lemma last_opt_In {A : Type} (x : A) (xs : list A) :
  Spec.last_opt xs = Some x -> In x xs.
Proof.
  unfold Spec.last_opt. intros H. apply in_rev.
  destruct (rev xs); inversion H; left; reflexivity.
Qed.

(** The loop of [categorizeParameters], started from any result: each
    array grows by the parameters of its category, in order, and the
    ViewState slot ends with the last ViewState parameter met, if any. *)
Lemma place_loop (ps : list ParsedParameter) (r0 : CategorizedParameters) :
  let r := fold_left Categorizer.place ps r0 in
  map ap_param (standardJsf r)
    = map ap_param (standardJsf r0) ++ Spec.of_category standard_jsf ps /\
  map cp_param (componentIds r)
    = map cp_param (componentIds r0) ++ Spec.of_category component_id ps /\
  map ap_param (formSubmit r)
    = map ap_param (formSubmit r0) ++ Spec.of_category form_submit ps /\
  custom_ r = custom_ r0 ++ Spec.of_category custom ps /\
  option_map vp_param (viewState r)
    = match Spec.last_opt (Spec.of_category viewstate ps) with
      | Some p => Some p
      | None => option_map vp_param (viewState r0)
      end.
Proof.
  revert r0; induction ps as [|p ps IH]; intros r0.
  - simpl. rewrite !app_nil_r. auto.
  - cbn [fold_left]. cbv zeta.
    destruct (IH (Categorizer.place r0 p)) as (I1 & I2 & I3 & I4 & I5).
    rewrite I1, I2, I3, I4, I5. clear IH I1 I2 I3 I4 I5.
    unfold Spec.of_category. cbn [filter].
    assert (Hc : Spec.category_of p
                 = Categorizer.category (Categorizer.categorizeParameter p))
      by reflexivity.
    pose proof (param_of_categorizeParameter p) as Hp.
    unfold Categorizer.place.
    destruct (Categorizer.categorizeParameter p) as [c|c|c|c|c];
      cbn [param_of Categorizer.category] in Hp, Hc; rewrite Hc;
      cbn [Spec.category_eqb standardJsf componentIds
           viewState formSubmit custom_ option_map];
      rewrite ?map_app, <- ?app_assoc; cbn [map app];
      rewrite ?Hp, ?last_opt_cons;
      repeat split; try reflexivity.
    match goal with
    | |- context [Spec.last_opt ?l] => destruct (Spec.last_opt l)
    end; reflexivity.
Qed.

(** The five buckets of the result, in terms of the input. *)
Lemma categorizeParameters_buckets (params : list ParsedParameter) :
  Spec.buckets (Categorizer.categorizeParameters params)
  = [ Spec.of_category standard_jsf params;
      Spec.of_category component_id params;
      match Spec.last_opt (Spec.of_category viewstate params) with
      | Some p => [p]
      | None => []
      end;
      Spec.of_category form_submit params;
      Spec.of_category custom params ].
Proof.
  unfold Categorizer.categorizeParameters, Spec.buckets.
  destruct (place_loop params Categorizer.empty_result) as (H1 & H2 & H3 & H4 & H5).
  cbv zeta in *. rewrite H1, H2, H3, H4. simpl app.
  do 2 f_equal. f_equal.
  destruct (viewState (fold_left Categorizer.place params Categorizer.empty_result));
    destruct (Spec.last_opt (Spec.of_category viewstate params));
    simpl in H5; inversion H5; reflexivity.
Qed.

Lemma of_category_In (c : ParameterCategory) (params : list ParsedParameter)
  (p : ParsedParameter) :
  In p (Spec.of_category c params) <-> In p params /\ Spec.category_of p = c.
Proof.
  unfold Spec.of_category. rewrite filter_In.
  assert (E : Spec.category_eqb (Spec.category_of p) c = true
              <-> Spec.category_of p = c)
    by (destruct (Spec.category_of p), c; simpl; split;
        congruence || discriminate).
  tauto.
Qed.

Lemma category_viewstate_iff (p : ParsedParameter) :
  Spec.category_of p = viewstate
  <-> decodedName p = lit "javax.faces.ViewState".
Proof.
  unfold Spec.category_of, Categorizer.categorizeParameter,
    Categorizer.isViewStateParameter.
  rewrite <- streq_eq.
  destruct (streq (decodedName p) (lit "javax.faces.ViewState")).
  - simpl; tauto.
  - destruct (Categorizer.isStandardJsfParameter (decodedName p));
      [simpl; split; discriminate|].
    destruct (Categorizer.isComponentIdParameter (decodedName p));
      [simpl; split; discriminate|].
    destruct (Categorizer.isFormSubmitParameter (decodedName p));
      simpl; split; discriminate.
Qed.

(** A parameter found in a bucket is an input parameter, and the bucket
    is the one of its category. *)
Lemma bucket_membership (params : list ParsedParameter) (p : ParsedParameter)
  (j : nat) :
  (j < 5)%nat ->
  In p (nth j (Spec.buckets (Categorizer.categorizeParameters params)) []) ->
  In p params /\ Spec.bucket_index (Spec.category_of p) = j.
Proof.
  rewrite categorizeParameters_buckets. intros Hj Hin.
  destruct j as [|[|[|[|[|j]]]]]; cbn [nth] in Hin; try lia;
    try (apply of_category_In in Hin; destruct Hin as [Hp ->];
         split; [exact Hp | reflexivity]).
  destruct (Spec.last_opt (Spec.of_category viewstate params)) eqn:L;
    [|destruct Hin].
  destruct Hin as [<-|[]]. apply last_opt_In in L.
  apply of_category_In in L. destruct L as [Hp ->].
  split; [exact Hp | reflexivity].
Qed.

Lemma same_param_eq (p q : ParsedParameter) :
  Spec.same_param p q = true <-> p = q.
Proof.
  unfold Spec.same_param. rewrite !andb_true_iff, !streq_eq.
  destruct p, q; cbn [name decodedName value decodedValue]. split.
  - intros [[[-> ->] ->] ->]. reflexivity.
  - intros H; inversion H; auto.
Qed.

Lemma occurrences_pos (p : ParsedParameter) (l : list ParsedParameter) :
  In p l <-> (0 < Spec.occurrences p l)%nat.
Proof.
  unfold Spec.occurrences. split.
  - intros H.
    assert (F : In p (filter (Spec.same_param p) l))
      by (apply filter_In; split; [exact H | apply same_param_eq; reflexivity]).
    destruct (filter (Spec.same_param p) l); [destruct F | simpl; lia].
  - intros H. destruct (filter (Spec.same_param p) l) as [|q l'] eqn:E;
      [simpl in H; lia|].
    assert (F : In q (filter (Spec.same_param p) l))
      by (rewrite E; left; reflexivity).
    apply filter_In in F. destruct F as [F1 F2].
    apply same_param_eq in F2. subst q. exact F1.
Qed.

Lemma occurrences_app (p : ParsedParameter) (l1 l2 : list ParsedParameter) :
  Spec.occurrences p (l1 ++ l2)
  = (Spec.occurrences p l1 + Spec.occurrences p l2)%nat.
Proof. unfold Spec.occurrences. rewrite filter_app, length_app. reflexivity. Qed.

(** The occurrences of a parameter among those of one category. *)
Lemma occurrences_of_category (c : ParameterCategory)
  (params : list ParsedParameter) (p : ParsedParameter) :
  Spec.occurrences p (Spec.of_category c params)
  = if Spec.category_eqb (Spec.category_of p) c
    then Spec.occurrences p params else 0%nat.
Proof.
  unfold Spec.occurrences, Spec.of_category.
  induction params as [|q params IH]; [destruct Spec.category_eqb; reflexivity|].
  cbn [filter].
  destruct (Spec.same_param p q) eqn:E.
  - apply same_param_eq in E. subst q.
    destruct (Spec.category_eqb (Spec.category_of p) c) eqn:C.
    + cbn [filter]. rewrite (proj2 (same_param_eq p p) eq_refl).
      cbn [length]. rewrite IH. reflexivity.
    + exact IH.
  - destruct (Spec.category_eqb (Spec.category_of q) c).
    + cbn [filter]. rewrite E. exact IH.
    + exact IH.
Qed.

Lemma viewstate_named_category (p : ParsedParameter) :
  Spec.viewstate_named p = Spec.category_eqb (Spec.category_of p) viewstate.
Proof.
  unfold Spec.viewstate_named, Spec.category_of,
    Categorizer.categorizeParameter, Categorizer.isViewStateParameter.
  destruct (streq (decodedName p) (lit "javax.faces.ViewState"));
    [reflexivity|].
  destruct (Categorizer.isStandardJsfParameter (decodedName p)); [reflexivity|].
  destruct (Categorizer.isComponentIdParameter (decodedName p)); [reflexivity|].
  destruct (Categorizer.isFormSubmitParameter (decodedName p)); reflexivity.
Qed.

Lemma viewstate_named_filter (params : list ParsedParameter) :
  filter Spec.viewstate_named params = Spec.of_category viewstate params.
Proof.
  unfold Spec.of_category. apply filter_ext.
  intros p. apply viewstate_named_category.
Qed.

(** The occurrences of a parameter in each of the five buckets. *)
Lemma bucket_occurrences (params : list ParsedParameter) (p : ParsedParameter)
  (j : nat) :
  Spec.occurrences p
    (nth j (Spec.buckets (Categorizer.categorizeParameters params)) [])
  = if (j =? Spec.bucket_index (Spec.category_of p))%nat
    then Spec.kept params p else 0%nat.
Proof.
  rewrite categorizeParameters_buckets. unfold Spec.kept.
  rewrite viewstate_named_filter, viewstate_named_category.
  destruct j as [|[|[|[|[|j]]]]]; cbn [nth];
    rewrite ?occurrences_of_category;
    try (destruct (Spec.category_of p); reflexivity).
  - destruct (Spec.last_opt (Spec.of_category viewstate params)) as [q|] eqn:L.
    + destruct (Spec.category_of p) eqn:C; cbn [Spec.bucket_index Nat.eqb
        Spec.category_eqb]; unfold Spec.occurrences; cbn [filter];
        try (destruct (Spec.same_param p q) eqn:E; [|reflexivity];
             apply same_param_eq in E; subst q;
             apply last_opt_In in L; apply of_category_In in L;
             destruct L as [_ L]; congruence).
      destruct (Spec.same_param p q); reflexivity.
    + destruct (Spec.category_of p); reflexivity.
  - destruct j; destruct (Spec.category_of p); reflexivity.
Qed.

(** C5, as the code has it.  For every list of parameters, the empty one
    included, the ViewState slot holds the last ViewState-named parameter
    of the input, and nothing when there is none.  Counting occurrences:
    a parameter that is not ViewState-named occurs in the bucket of its
    category as often as in the input and in no other bucket; a
    ViewState-named one occurs once, in the slot, when it is the last
    ViewState-named parameter of the input, and in none of the five
    buckets otherwise, so that every earlier ViewState-named occurrence
    is lost.  A parameter lies in exactly one bucket iff the buckets keep
    an occurrence of it; the category of a parameter is the ViewState one
    exactly when it is ViewState-named, so that its bucket is the slot. *)
Theorem bucket_placement (params : list ParsedParameter) (p : ParsedParameter) :
  let r := Categorizer.categorizeParameters params in
  option_map vp_param (viewState r)
  = Spec.last_opt (filter Spec.viewstate_named params) /\
  (forall j, Spec.occurrences p (nth j (Spec.buckets r) [])
             = if (j =? Spec.bucket_index (Spec.category_of p))%nat
               then Spec.kept params p else 0%nat) /\
  Spec.occurrences p (concat (Spec.buckets r)) = Spec.kept params p /\
  (Spec.in_exactly_one_bucket p r <-> (0 < Spec.kept params p)%nat) /\
  (Spec.viewstate_named p = true <-> Spec.category_of p = viewstate).
Proof.
  cbv zeta.
  pose proof (bucket_occurrences params p) as B.
  split; [|split; [exact B|split; [|split]]];
    [| | |rewrite viewstate_named_category;
          destruct (Spec.category_of p); simpl; split;
          congruence || discriminate].
  - rewrite viewstate_named_filter.
    unfold Categorizer.categorizeParameters.
    destruct (place_loop params Categorizer.empty_result) as (_ & _ & _ & _ & H5).
    cbv zeta in H5. rewrite H5.
    destruct (Spec.last_opt (Spec.of_category viewstate params)); reflexivity.
  - pose proof (B 0%nat) as B0. pose proof (B 1%nat) as B1.
    pose proof (B 2%nat) as B2. pose proof (B 3%nat) as B3.
    pose proof (B 4%nat) as B4.
    unfold Spec.buckets in *. cbn [nth concat] in *.
    rewrite !occurrences_app, B0, B1, B2, B3, B4.
    destruct (Spec.category_of p); cbn [Spec.bucket_index Nat.eqb];
      unfold Spec.occurrences; cbn [filter length]; lia.
  - unfold Spec.in_exactly_one_bucket. split.
    + intros (i & _ & Hin & _). apply occurrences_pos in Hin.
      rewrite B in Hin.
      destruct (i =? Spec.bucket_index (Spec.category_of p))%nat;
        [exact Hin | lia].
    + intros K. exists (Spec.bucket_index (Spec.category_of p)).
      split; [destruct (Spec.category_of p); simpl; lia|]. split.
      * apply occurrences_pos. rewrite B, Nat.eqb_refl. exact K.
      * intros j _ Hin. apply occurrences_pos in Hin. rewrite B in Hin.
        destruct (j =? Spec.bucket_index (Spec.category_of p))%nat eqn:E;
          [apply Nat.eqb_eq; exact E | lia].
Qed.

(** Two identical ViewState parameters around a custom one: of the two
    occurrences the buckets keep one, in the slot; the custom parameter is
    kept as it is. *)
Lemma bucket_placement_witness :
  let vs := Spec.segment_parameter (lit "javax.faces.ViewState=a") in
  let params := [ vs; Spec.segment_parameter (lit "key=value"); vs ] in
  let r := Categorizer.categorizeParameters params in
  (Spec.occurrences vs params = 2%nat /\ Spec.kept params vs = 1%nat) /\
  option_map vp_param (viewState r)
  = Spec.last_opt (filter Spec.viewstate_named params) /\
  (forall j, Spec.occurrences vs (nth j (Spec.buckets r) [])
             = if (j =? Spec.bucket_index (Spec.category_of vs))%nat
               then Spec.kept params vs else 0%nat) /\
  Spec.occurrences vs (concat (Spec.buckets r)) = Spec.kept params vs /\
  (Spec.in_exactly_one_bucket vs r <-> (0 < Spec.kept params vs)%nat) /\
  (Spec.viewstate_named vs = true <-> Spec.category_of vs = viewstate).
Proof.
  split.
  - split; vm_compute; reflexivity.
  - exact (bucket_placement
             [ Spec.segment_parameter (lit "javax.faces.ViewState=a");
               Spec.segment_parameter (lit "key=value");
               Spec.segment_parameter (lit "javax.faces.ViewState=a") ]
             (Spec.segment_parameter (lit "javax.faces.ViewState=a"))).
Defined.

(** C5 fails as stated: of the two ViewState parameters of the body
    "javax.faces.ViewState=a&javax.faces.ViewState=b" the first is in none
    of the five buckets. *)
Lemma exhaustive_and_exclusive_counterexample :
  exists params,
    Parser.parseUrlEncodedBody
      (JString (lit "javax.faces.ViewState=a&javax.faces.ViewState=b"))
    = Ok params /\
    ~ Spec.exhaustive_and_exclusive params.
Proof.
  eexists; split; [vm_compute; reflexivity|].
  intros H.
  match type of H with
  | Spec.exhaustive_and_exclusive (?a :: _) =>
      destruct (H a (or_introl eq_refl)) as (i & Hi & Hin & _)
  end.
  destruct i as [|[|[|[|[|i]]]]]; try lia; vm_compute in Hin;
    try contradiction.
  destruct Hin as [Hin|[]]. discriminate Hin.
Qed.

(** ** View-state analyzer *)

Lemma isBase64_total (v : jsval) : exists b, ViewState.isBase64 v = Ok b.
Proof.
  unfold ViewState.isBase64.
  destruct (not_a_string v); [eexists; reflexivity|].
  destruct (negb (ViewState.base64Regex_test (str_of v))); [eexists; reflexivity|].
  destruct (negb (strlen (str_of v) mod 4 =? 0)%Z); [eexists; reflexivity|].
  destruct (atob (str_of v)); eexists; reflexivity.
Qed.

(** The analyzer never raises; its result has one of three shapes. *)
Lemma analyzeViewState_shape (v : jsval) :
  exists a,
    ViewState.analyzeViewState v = Ok a /\
    ((not_a_string v = true /\
      a = {| encoding := unknown_encoding; decodedContent := None;
             isSerializedJava := false;
             warnings := [ViewState.EMPTY_WARNING] |}) \/
     (not_a_string v = false /\ ViewState.isBase64 v = Ok false /\
      encoding a = encrypted /\ decodedContent a = None /\
      warnings a = [ViewState.NOT_BASE64_WARNING]) \/
     (not_a_string v = false /\ ViewState.isBase64 v = Ok true /\
      encoding a = base64 /\
      incl (warnings a) [ViewState.JAVA_WARNING; ViewState.DECODE_WARNING])).
Proof.
  unfold ViewState.analyzeViewState.
  destruct (not_a_string v) eqn:G.
  - eexists; split; [reflexivity|]. left; auto.
  - destruct (isBase64_total v) as [b Hb]. rewrite Hb. cbn [bind].
    destruct b.
    + destruct (atob (str_of v)) as [decoded|e]; cbn [bind try_catch].
      * destruct (ViewState.detectSerializedJava (ViewState.to_Uint8Array decoded));
          eexists; (split; [reflexivity|]); right; right;
          repeat split; auto; cbn; intros w Hw; simpl in *; tauto.
      * eexists; split; [reflexivity|]. right; right.
        repeat split; auto; cbn; intros w Hw; simpl in *; tauto.
    + eexists; split; [reflexivity|]. right; left. repeat split; auto.
Qed.

(** C10: for the empty string and for every value that is not a string the
    analyzer returns encoding "unknown", no decoded content and the single
    warning "ViewState value is empty or invalid"; the encoding is
    "encrypted" exactly for the non-empty strings that [isBase64] rejects. *)
Theorem empty_viewstate_is_unknown (v : jsval) :
  exists a,
    ViewState.analyzeViewState v = Ok a /\
    (a = {| encoding := unknown_encoding; decodedContent := None;
            isSerializedJava := false;
            warnings := [lit "ViewState value is empty or invalid"] |}
     <-> not_a_string v = true) /\
    (encoding a = encrypted
     <-> not_a_string v = false /\ ViewState.isBase64 v = Ok false) /\
    (not_a_string v = true
     <-> v = JString [] \/ typeof_string v = false).
Proof.
  destruct (analyzeViewState_shape v) as (a & Ha & Hs).
  exists a; split; [exact Ha|].
  split; [|split].
  - destruct Hs as [(G & ->) | [(G & B & E & _) | (G & B & E & _)]].
    + tauto.
    + split; [intros ->; discriminate | congruence].
    + split; [intros ->; discriminate | congruence].
  - destruct Hs as [(G & ->) | [(G & B & E & _) | (G & B & E & _)]].
    + split; [discriminate | intros [G' _]; congruence].
    + tauto.
    + split; [congruence | intros [_ B']; congruence].
  - unfold not_a_string.
    destruct v as [| |b|z|[|c s]]; simpl; rewrite ?orb_true_r;
      split; auto; intros [H|H]; discriminate.
Qed.

Example empty_viewstate_example :
  ViewState.analyzeViewState (JString [])
  = Ok {| encoding := unknown_encoding; decodedContent := None;
          isSerializedJava := false;
          warnings := [lit "ViewState value is empty or invalid"] |}
  /\ ViewState.analyzeViewState JUndefined
     = ViewState.analyzeViewState (JString [])
  /\ ViewState.analyzeViewState JNull
     = ViewState.analyzeViewState (JString []).
Proof. repeat split. Qed.

Lemma large_warning_not_listed :
  ~ In ValueAnalyzer.LARGE_WARNING
       [ViewState.EMPTY_WARNING; ViewState.NOT_BASE64_WARNING;
        ViewState.JAVA_WARNING; ViewState.DECODE_WARNING].
Proof.
  intros H. vm_compute in H.
  repeat (destruct H as [H|H]; [discriminate H|]). exact H.
Qed.

(** C2, as the code has it: for a ViewState value longer than 10,000 units
    it is the value explainer (valueAnalyzer.ts) that reports the
    large-size warning, in its [warning] field and whatever the encoding
    branch; the view-state analyzer (viewstate.ts) has no size check: it
    returns encoding base64 or encrypted and its warnings do not include
    the large-size warning. *)
Theorem large_viewstate_warning (v : jsstring) :
  (10000 < strlen v)%Z ->
  ValueAnalyzer.warning (ValueAnalyzer.analyzeViewState v)
  = Some (lit "Large ViewState detected - may impact performance and bandwidth")
  /\ exists a,
      ViewState.analyzeViewState (JString v) = Ok a /\
      (encoding a = base64 \/ encoding a = encrypted) /\
      incl (warnings a)
           [ViewState.NOT_BASE64_WARNING; ViewState.JAVA_WARNING;
            ViewState.DECODE_WARNING] /\
      ~ In ValueAnalyzer.LARGE_WARNING (warnings a).
Proof.
  intros Hlen. split.
  - unfold ValueAnalyzer.analyzeViewState.
    apply Z.ltb_lt in Hlen.
    cbv zeta.
    destruct (ValueAnalyzer.isBase64 v);
      [destruct (100 <? strlen v)%Z | destruct (startsWith v (lit "stateless"))];
      cbn [ValueAnalyzer.warning]; rewrite Hlen; reflexivity.
  - destruct (analyzeViewState_shape (JString v)) as (a & Ha & Hs).
    exists a; split; [exact Ha|].
    assert (Hv : not_a_string (JString v) = false).
    { destruct v; [vm_compute in Hlen; discriminate | reflexivity]. }
    destruct Hs as [(G & _) | [(_ & _ & E & _ & W) | (_ & _ & E & W)]];
      [congruence | |].
    + split; [right; exact E|]. rewrite W. split.
      * intros w [<-|[]]; left; reflexivity.
      * intros [H|[]]. apply large_warning_not_listed. right; left; exact H.
    + split; [left; exact E|]. split.
      * intros w Hw. right. apply W; exact Hw.
      * intros H. apply W in H. apply large_warning_not_listed.
        right; right; exact H.
Qed.

Lemma large_viewstate_warning_witness :
  ValueAnalyzer.warning (ValueAnalyzer.analyzeViewState (repeat 65%N (Z.to_nat 15000)))
  = Some (lit "Large ViewState detected - may impact performance and bandwidth")
  /\ exists a,
      ViewState.analyzeViewState (JString (repeat 65%N (Z.to_nat 15000))) = Ok a /\
      (encoding a = base64 \/ encoding a = encrypted) /\
      incl (warnings a)
           [ViewState.NOT_BASE64_WARNING; ViewState.JAVA_WARNING;
            ViewState.DECODE_WARNING] /\
      ~ In ValueAnalyzer.LARGE_WARNING (warnings a).
Proof.
  apply (large_viewstate_warning (repeat 65%N (Z.to_nat 15000))).
  vm_compute; reflexivity.
Defined.

(** C2 fails as stated: for the 15,000 letters "A", a base64-shaped value,
    the view-state analyzer returns encoding base64 and an empty list of
    warnings, and the ViewState parameter that the categorizer builds for
    that value has no warning either. *)
Lemma large_viewstate_counterexample :
  (10000 < strlen (repeat 65%N (Z.to_nat 15000)))%Z /\
  ViewState.analyzeViewState (JString (repeat 65%N (Z.to_nat 15000)))
  = Ok {| encoding := base64;
          decodedContent := Some (repeat 0%N (Z.to_nat 11250));
          isSerializedJava := false;
          warnings := [] |} /\
  option_map vp_warnings
    (viewState
       (Categorizer.categorizeParameters
          [ {| name := lit "javax.faces.ViewState";
               decodedName := lit "javax.faces.ViewState";
               value := repeat 65%N (Z.to_nat 15000);
               decodedValue := repeat 65%N (Z.to_nat 15000) |} ]))
  = Some [].
Proof.
  split; [vm_compute; reflexivity|].
  split; vm_compute; reflexivity.
Qed.

(** C3: on the body "javax.faces.ViewState=abc123" the detector answers
    detected with high confidence and the categorizer fills the ViewState
    slot, without a size warning; but the slot's encoding is "unknown"
    with no warning at all, because the categorizer calls its own
    placeholder, where the view-state analyzer of viewstate.ts answers
    "encrypted" for the same value. *)
Lemma scenario1_viewstate_encoding :
  (exists r,
      Detector.detectJsf (JString (lit "javax.faces.ViewState=abc123")) = Ok r /\
      isJsf r = true /\ confidence r = high) /\
  (exists p,
      Parser.parseUrlEncodedBody (JString (lit "javax.faces.ViewState=abc123"))
      = Ok [p] /\
      decodedValue p = lit "abc123" /\
      Categorizer.categorizeParameters [p]
      = {| standardJsf := []; componentIds := [];
           viewState := Some {| vp_param := p;
                                vp_encoding := unknown_encoding;
                                vp_decodedContent := None;
                                vp_warnings := [] |};
           formSubmit := []; custom_ := [] |}) /\
  ViewState.analyzeViewState (JString (lit "abc123"))
  = Ok {| encoding := encrypted; decodedContent := None;
          isSerializedJava := false;
          warnings := [ViewState.NOT_BASE64_WARNING] |}.
Proof.
  split; [|split].
  - eexists; split; [vm_compute; reflexivity|]. split; reflexivity.
  - eexists; split; [vm_compute; reflexivity|]. split; vm_compute; reflexivity.
  - vm_compute; reflexivity.
Qed.

(** * Further properties of the code *)

(** ** Percent-encoding *)

Lemma lor_shiftl_add (a k r : N) :
  (r < 2 ^ k)%N -> N.lor (N.shiftl a k) r = (a * 2 ^ k + r)%N.
Proof.
  intros H. rewrite N.shiftl_mul_pow2.
  assert (L : N.land (a * 2 ^ k) r = 0%N).
  { apply N.bits_inj. intros n. rewrite N.land_spec, N.bits_0.
    destruct (N.lt_ge_cases n k) as [Hn|Hn].
    - rewrite N.mul_pow2_bits_low by assumption. reflexivity.
    - destruct (N.eq_dec r 0) as [->|Hr];
        [rewrite N.bits_0, andb_false_r; reflexivity|].
      rewrite (N.bits_above_log2 r n), andb_false_r; [reflexivity|].
      apply N.lt_le_trans with k; [|assumption].
      apply N.log2_lt_pow2; lia. }
  rewrite <- N.lxor_lor by assumption. symmetry.
  apply N.add_nocarry_lxor; assumption.
Qed.

Lemma hexval_hexdigit (d : N) : (d < 16)%N -> hexval (hexdigit d) = Some d.
Proof.
  intros H. unfold hexdigit, hexval, is_digit.
  destruct (d <? 10)%N eqn:E.
  - apply N.ltb_lt in E.
    replace (48 <=? 48 + d)%N with true by (symmetry; apply N.leb_le; lia).
    replace (48 + d <=? 57)%N with true by (symmetry; apply N.leb_le; lia).
    cbn [andb]. f_equal. lia.
  - apply N.ltb_ge in E.
    replace (55 + d <=? 57)%N with false by (symmetry; apply N.leb_gt; lia).
    rewrite andb_false_r.
    replace (65 <=? 55 + d)%N with true by (symmetry; apply N.leb_le; lia).
    replace (55 + d <=? 70)%N with true by (symmetry; apply N.leb_le; lia).
    cbn [andb]. f_equal. lia.
Qed.

Lemma ParseHexOctet_escape (B : N) :
  (B < 256)%N -> ParseHexOctet (hexdigit (B / 16)) (hexdigit (B mod 16)) = Some B.
Proof.
  intros H. unfold ParseHexOctet.
  rewrite !hexval_hexdigit by ndiv. f_equal. ndiv.
Qed.

Lemma Decode_escape_first (B : N) (rest : jsstring) :
  (B < 256)%N ->
  Decode (escape_octet B ++ rest) 0 [] =
  if (leading_ones B =? 0)%nat then r <- Decode rest 0 [] ;; ret (B :: r)
  else if (leading_ones B =? 1)%nat || (4 <? leading_ones B)%nat
       then Throw URIError
       else Decode rest (leading_ones B - 1) [B].
Proof.
  intros H. unfold escape_octet. cbn [app Decode].
  rewrite N.eqb_refl, ParseHexOctet_escape by assumption. reflexivity.
Qed.

Lemma Decode_escape_next (B : N) (rest : jsstring) (need : nat)
  (octets : list N) :
  (B < 256)%N -> is_continuation B = true ->
  Decode (escape_octet B ++ rest) (S need) octets =
  match need with
  | O => match utf8_code_point (octets ++ [B]) with
         | None => Throw URIError
         | Some V => r <- Decode rest 0 [] ;; ret (UTF16EncodeCodePoint V ++ r)
         end
  | S _ => Decode rest need (octets ++ [B])
  end.
Proof.
  intros H C. unfold escape_octet. cbn [app Decode].
  rewrite N.eqb_refl, ParseHexOctet_escape, C by assumption. reflexivity.
Qed.

Lemma is_continuation_low6 (x : N) :
  (x < 64)%N -> is_continuation (128 + x) = true.
Proof.
  intros H. unfold is_continuation.
  rewrite andb_true_iff, !N.leb_le. lia.
Qed.

Lemma utf8_code_point_2 (V : N) :
  (128 <= V < 2048)%N ->
  utf8_code_point [(192 + V / 64)%N; (128 + V mod 64)%N] = Some V.
Proof.
  intros H. unfold utf8_code_point.
  change 31%N with (N.ones 5). change 63%N with (N.ones 6).
  rewrite !N.land_ones.
  rewrite lor_shiftl_add by (apply N.mod_lt; discriminate).
  rewrite is_continuation_low6 by (apply N.mod_lt; discriminate).
  assert (E : ((192 + V / 64) mod 2 ^ 5 * 2 ^ 6 + (128 + V mod 64) mod 2 ^ 6 = V)%N).
  { change (2 ^ 5)%N with 32%N. change (2 ^ 6)%N with 64%N. ndiv. }
  rewrite E.
  replace (128 <=? V)%N with true by (symmetry; apply N.leb_le; lia).
  reflexivity.
Qed.

Lemma utf8_code_point_3 (V : N) :
  (2048 <= V < 65536)%N -> (V < 55296 \/ 57343 < V)%N ->
  utf8_code_point [(224 + V / 4096)%N; (128 + (V / 64) mod 64)%N;
                   (128 + V mod 64)%N] = Some V.
Proof.
  intros H Hs. unfold utf8_code_point.
  change 15%N with (N.ones 4). change 63%N with (N.ones 6).
  rewrite !N.land_ones.
  change (2 ^ 4)%N with 16%N. change (2 ^ 6)%N with 64%N.
  rewrite (lor_shiftl_add _ 6) by (change (2 ^ 6)%N with 64%N; apply N.mod_lt; discriminate).
  rewrite (lor_shiftl_add _ 12) by (change (2 ^ 12)%N with 4096%N; change (2 ^ 6)%N with 64%N; ndiv).
  rewrite !is_continuation_low6 by (apply N.mod_lt; discriminate).
  change (2 ^ 12)%N with 4096%N. change (2 ^ 6)%N with 64%N.
  assert (E : ((224 + V / 4096) mod 16 * 4096 +
               ((128 + (V / 64) mod 64) mod 64 * 64 + (128 + V mod 64) mod 64)
               = V)%N) by ndiv.
  rewrite E.
  replace (2048 <=? V)%N with true by (symmetry; apply N.leb_le; lia).
  replace ((55296 <=? V)%N && (V <=? 57343)%N) with false.
  - reflexivity.
  - symmetry. apply andb_false_iff. rewrite N.leb_gt, N.leb_gt. lia.
Qed.

Lemma utf8_code_point_4 (V : N) :
  (65536 <= V < 1114112)%N ->
  utf8_code_point [(240 + V / 262144)%N; (128 + (V / 4096) mod 64)%N;
                   (128 + (V / 64) mod 64)%N; (128 + V mod 64)%N] = Some V.
Proof.
  intros H. unfold utf8_code_point.
  change 7%N with (N.ones 3). change 63%N with (N.ones 6).
  rewrite !N.land_ones.
  change (2 ^ 3)%N with 8%N. change (2 ^ 6)%N with 64%N.
  rewrite (lor_shiftl_add _ 6) by (change (2 ^ 6)%N with 64%N; apply N.mod_lt; discriminate).
  rewrite (lor_shiftl_add _ 12) by (change (2 ^ 12)%N with 4096%N; change (2 ^ 6)%N with 64%N; ndiv).
  rewrite (lor_shiftl_add _ 18) by (change (2 ^ 18)%N with 262144%N; change (2 ^ 12)%N with 4096%N; change (2 ^ 6)%N with 64%N; ndiv).
  rewrite !is_continuation_low6 by (apply N.mod_lt; discriminate).
  change (2 ^ 18)%N with 262144%N. change (2 ^ 12)%N with 4096%N.
  change (2 ^ 6)%N with 64%N.
  assert (E : ((240 + V / 262144) mod 8 * 262144 +
               ((128 + (V / 4096) mod 64) mod 64 * 4096 +
                ((128 + (V / 64) mod 64) mod 64 * 64 + (128 + V mod 64) mod 64))
               = V)%N) by ndiv.
  rewrite E.
  replace (65536 <=? V)%N with true by (symmetry; apply N.leb_le; lia).
  replace (V <=? 1114111)%N with true by (symmetry; apply N.leb_le; lia).
  reflexivity.
Qed.

Lemma leading_ones_range (B : N) :
  (B < 128 -> leading_ones B = 0%nat)%N /\
  (192 <= B < 224 -> leading_ones B = 2%nat)%N /\
  (224 <= B < 240 -> leading_ones B = 3%nat)%N /\
  (240 <= B < 248 -> leading_ones B = 4%nat)%N.
Proof.
  unfold leading_ones.
  destruct (B <? 128)%N eqn:E1; [apply N.ltb_lt in E1 | apply N.ltb_ge in E1];
  destruct (B <? 192)%N eqn:E2; [apply N.ltb_lt in E2 | apply N.ltb_ge in E2 | apply N.ltb_lt in E2 | apply N.ltb_ge in E2];
  destruct (B <? 224)%N eqn:E3; try apply N.ltb_lt in E3; try apply N.ltb_ge in E3;
  destruct (B <? 240)%N eqn:E4; try apply N.ltb_lt in E4; try apply N.ltb_ge in E4;
  destruct (B <? 248)%N eqn:E5; try apply N.ltb_lt in E5; try apply N.ltb_ge in E5;
  repeat split; intros; try reflexivity; lia.
Qed.

(** Decoding the escape of one code point gives its UTF-16 units back. *)
Lemma Decode_escape_code_point (V : N) (rest : jsstring) :
  (V < 1114112)%N -> (V < 55296 \/ 57343 < V)%N ->
  Decode (escape_code_point V ++ rest) 0 [] =
  (r <- Decode rest 0 [] ;; ret (UTF16EncodeCodePoint V ++ r)).
Proof.
  intros Hmax Hs. unfold escape_code_point, utf8_octets.
  destruct (V <? 128)%N eqn:E1; [apply N.ltb_lt in E1 | apply N.ltb_ge in E1].
  { cbn [flat_map]. rewrite app_nil_r, Decode_escape_first by lia.
    destruct (leading_ones_range V) as (L & _). rewrite L by lia.
    cbn [Nat.eqb]. unfold UTF16EncodeCodePoint.
    replace (V <=? 65535)%N with true by (symmetry; apply N.leb_le; lia).
    reflexivity. }
  destruct (V <? 2048)%N eqn:E2; [apply N.ltb_lt in E2 | apply N.ltb_ge in E2].
  { cbn [flat_map]. rewrite app_nil_r, <- app_assoc.
    rewrite Decode_escape_first by ndiv.
    destruct (leading_ones_range (192 + V / 64)) as (_ & L & _).
    rewrite L by ndiv. cbn [Nat.eqb Nat.ltb Nat.leb orb Nat.sub].
    rewrite Decode_escape_next
      by (try apply is_continuation_low6; ndiv).
    cbn [app]. rewrite utf8_code_point_2 by lia. reflexivity. }
  destruct (V <? 65536)%N eqn:E3; [apply N.ltb_lt in E3 | apply N.ltb_ge in E3].
  { cbn [flat_map]. rewrite app_nil_r, <- !app_assoc.
    rewrite Decode_escape_first by ndiv.
    destruct (leading_ones_range (224 + V / 4096)) as (_ & _ & L & _).
    rewrite L by ndiv. cbn [Nat.eqb Nat.ltb Nat.leb orb Nat.sub].
    rewrite Decode_escape_next
      by (try apply is_continuation_low6; ndiv).
    rewrite Decode_escape_next
      by (try apply is_continuation_low6; ndiv).
    cbn [app]. rewrite utf8_code_point_3 by lia. reflexivity. }
  cbn [flat_map]. rewrite app_nil_r, <- !app_assoc.
  rewrite Decode_escape_first by ndiv.
  destruct (leading_ones_range (240 + V / 262144)) as (_ & _ & _ & L).
  rewrite L by ndiv. cbn [Nat.eqb Nat.ltb Nat.leb orb Nat.sub].
  do 3 rewrite Decode_escape_next
    by (try apply is_continuation_low6; ndiv).
  cbn [app]. rewrite utf8_code_point_4 by lia. reflexivity.
Qed.

Lemma unescaped_not_percent (C : N) :
  is_unescaped C = true -> (C =? PERCENT)%N = false.
Proof.
  intros U. destruct (N.eqb_spec C PERCENT) as [->|]; [|reflexivity].
  vm_compute in U. discriminate.
Qed.

Lemma surrogate_pair_units (C second : N) :
  is_leading_surrogate C = true -> is_trailing_surrogate second = true ->
  let cp := UTF16SurrogatePairToCodePoint C second in
  (57343 < cp < 1114112)%N /\ UTF16EncodeCodePoint cp = [C; second].
Proof.
  unfold is_leading_surrogate, is_trailing_surrogate,
    UTF16SurrogatePairToCodePoint, UTF16EncodeCodePoint.
  rewrite !andb_true_iff, !N.leb_le. intros [L1 L2] [T1 T2]. cbv zeta.
  split; [lia|].
  replace ((C - 55296) * 1024 + (second - 56320) + 65536 <=? 65535)%N
    with false by (symmetry; apply N.leb_gt; lia).
  f_equal; [|f_equal]; ndiv.
Qed.

Lemma hexdigit_unescaped (d : N) :
  (d < 16)%N -> is_unescaped (hexdigit d) = true.
Proof.
  intros H. unfold hexdigit, is_unescaped, is_upper, is_lower, is_digit.
  destruct (d <? 10)%N eqn:E;
    [apply N.ltb_lt in E | apply N.ltb_ge in E].
  - replace (48 <=? 48 + d)%N with true by (symmetry; apply N.leb_le; lia).
    replace (48 + d <=? 57)%N with true by (symmetry; apply N.leb_le; lia).
    cbn [andb]. rewrite !orb_true_r. reflexivity.
  - replace (65 <=? 55 + d)%N with true by (symmetry; apply N.leb_le; lia).
    replace (55 + d <=? 90)%N with true by (symmetry; apply N.leb_le; lia).
    reflexivity.
Qed.

Lemma utf8_octets_bytes (V : N) :
  (V < 1114112)%N -> Forall (fun B => (B < 256)%N) (utf8_octets V).
Proof.
  intros H. unfold utf8_octets.
  destruct (V <? 128)%N eqn:E1; [apply N.ltb_lt in E1 | apply N.ltb_ge in E1].
  { repeat constructor. lia. }
  destruct (V <? 2048)%N eqn:E2; [apply N.ltb_lt in E2 | apply N.ltb_ge in E2].
  { repeat constructor; ndiv. }
  destruct (V <? 65536)%N eqn:E3; [apply N.ltb_lt in E3 | apply N.ltb_ge in E3].
  { repeat constructor; ndiv. }
  repeat constructor; ndiv.
Qed.

Lemma escape_code_point_safe (V : N) :
  (V < 1114112)%N -> Forall url_safe (escape_code_point V).
Proof.
  intros H. unfold escape_code_point.
  apply Forall_flat_map.
  eapply Forall_impl; [|apply utf8_octets_bytes; exact H].
  intros B HB. cbv beta in HB. unfold escape_octet.
  constructor; [right; reflexivity|].
  constructor; [left; apply hexdigit_unescaped; ndiv|].
  constructor; [|constructor].
  left. apply hexdigit_unescaped. apply N.mod_lt; discriminate.
Qed.

(** The encoder and the decoder, by induction on a bound of the length
    (a surrogate pair takes two units at once). *)
Lemma Encode_Decode_bounded (n : nat) (s e : jsstring) :
  (length s <= n)%nat ->
  Forall (fun c => (c < 65536)%N) s ->
  Encode s = Ok e ->
  Decode e 0 [] = Ok s /\ Forall url_safe e.
Proof.
  revert s e; induction n as [|n IH]; intros s e Hl Hw He.
  - destruct s; [|simpl in Hl; lia]. inversion He; split; [reflexivity|constructor].
  - destruct s as [|C rest]; [inversion He; split; [reflexivity|constructor]|].
    simpl in Hl. inversion Hw as [|? ? HC Hrest]; subst.
    cbn [Encode] in He.
    destruct (is_unescaped C) eqn:U.
    + destruct (Encode rest) as [r|] eqn:Er; [|discriminate].
      inversion He; subst e. cbn [Decode].
      rewrite (unescaped_not_percent C U).
      destruct (IH rest r) as [D S]; [lia|auto|auto|].
      rewrite D. split; [reflexivity|]. constructor; [left; exact U|exact S].
    + destruct (is_trailing_surrogate C) eqn:T; [discriminate|].
      destruct (is_leading_surrogate C) eqn:L; cbn [negb] in He.
      * destruct rest as [|second rest']; [discriminate|].
        destruct (is_trailing_surrogate second) eqn:T2; cbn [negb] in He;
          [|discriminate].
        destruct (Encode rest') as [r|] eqn:Er; [|discriminate].
        inversion He; subst e.
        destruct (surrogate_pair_units C second L T2) as [Hcp Hu].
        cbv zeta in Hcp, Hu.
        rewrite Decode_escape_code_point by lia.
        inversion Hrest; subst. simpl in Hl.
        destruct (IH rest' r) as [D S]; [lia|auto|auto|].
        rewrite D. cbn [bind ret]. rewrite Hu. split; [reflexivity|].
        apply Forall_app; split; [apply escape_code_point_safe; lia|exact S].
      * destruct (Encode rest) as [r|] eqn:Er; [|discriminate].
        inversion He; subst e.
        assert (Hs : (C < 55296 \/ 57343 < C)%N).
        { unfold is_trailing_surrogate, is_leading_surrogate in T, L.
          apply andb_false_iff in T, L. rewrite !N.leb_gt in T, L. lia. }
        rewrite Decode_escape_code_point by lia.
        destruct (IH rest r) as [D S]; [lia|auto|auto|].
        rewrite D. cbn [bind ret]. unfold UTF16EncodeCodePoint.
        replace (C <=? 65535)%N with true by (symmetry; apply N.leb_le; lia).
        split; [reflexivity|].
        apply Forall_app; split; [apply escape_code_point_safe; lia|exact S].
Qed.

Lemma Encode_Decode (s e : jsstring) :
  Forall (fun c => (c < 65536)%N) s ->
  encodeURIComponent s = Ok e ->
  decodeURIComponent e = Ok s /\ Forall url_safe e.
Proof. apply (Encode_Decode_bounded (length s)); lia. Qed.

(** Strings without surrogates are always encoded. *)
Lemma Encode_no_surrogate (s : jsstring) :
  Forall (fun c => (c < 55296 \/ 57343 < c)%N) s ->
  exists e, Encode s = Ok e.
Proof.
  induction 1 as [|C rest HC _ [r IH]]; [exists []; reflexivity|].
  cbn [Encode]. rewrite IH. cbn [bind ret].
  destruct (is_unescaped C); [eexists; reflexivity|].
  unfold is_trailing_surrogate, is_leading_surrogate.
  replace ((56320 <=? C)%N && (C <=? 57343)%N) with false
    by (symmetry; apply andb_false_iff; rewrite !N.leb_gt; lia).
  replace ((55296 <=? C)%N && (C <=? 56319)%N) with false
    by (symmetry; apply andb_false_iff; rewrite !N.leb_gt; lia).
  eexists; reflexivity.
Qed.

Lemma url_safe_not_separator (c : N) :
  url_safe c -> c <> AMPERSAND /\ c <> EQUALS.
Proof.
  intros [U| ->]; [|split; discriminate].
  split; intros ->; vm_compute in U; discriminate.
Qed.

Lemma split_no_sep (s : jsstring) (sep : N) :
  ~ In sep s -> split s sep = [s].
Proof.
  induction s as [|c s IH]; intros H; [reflexivity|].
  cbn [split].
  destruct (N.eqb_spec c sep) as [->|Hc]; [exfalso; apply H; left; reflexivity|].
  rewrite IH by (intros Hin; apply H; right; exact Hin). reflexivity.
Qed.

Lemma split_app_sep (a b : jsstring) (sep : N) :
  split (a ++ sep :: b) sep = split a sep ++ split b sep.
Proof.
  induction a as [|c a IH]; cbn [app split].
  - rewrite N.eqb_refl. reflexivity.
  - rewrite IH. destruct (c =? sep)%N; [reflexivity|].
    pose proof (split_not_nil a sep) as Hn.
    destruct (split a sep); [congruence|reflexivity].
Qed.

Lemma name_value_parts (a b : jsstring) :
  ~ In EQUALS a ->
  Spec.name_part (a ++ EQUALS :: b) = a /\
  Spec.value_part (a ++ EQUALS :: b) = b.
Proof.
  induction a as [|c a IH]; intros H; cbn [app Spec.name_part Spec.value_part].
  - rewrite N.eqb_refl. split; reflexivity.
  - destruct (N.eqb_spec c EQUALS) as [->|Hc];
      [exfalso; apply H; left; reflexivity|].
    destruct IH as [I1 I2]; [intros Hin; apply H; right; exact Hin|].
    rewrite I1, I2. split; reflexivity.
Qed.

Lemma url_safe_ascii (c : N) : url_safe c -> (c < 128)%N.
Proof.
  intros [U| ->]; [|reflexivity].
  unfold is_unescaped, is_upper, is_lower, is_digit in U.
  repeat (apply orb_true_iff in U; destruct U as [U|U]);
    try (apply andb_true_iff in U; destruct U as [_ U]; apply N.leb_le in U; lia);
    apply N.eqb_eq in U; subst; reflexivity.
Qed.

(** X1: what [encodeParameter] produces from a string of 16-bit units,
    [decodeParameter] turns back into that string. *)
Theorem encode_then_decode (s e : jsstring) :
  Forall (fun c => (c < 65536)%N) s ->
  Decoder.encodeParameter (JString s) = Ok e ->
  Decoder.decodeParameter (JString e) = Ok s.
Proof.
  intros Hw He. rewrite decodeParameter_once.
  unfold Spec.percent_decode_once.
  destruct s as [|c s].
  - inversion He; subst e. reflexivity.
  - unfold Decoder.encodeParameter in He.
    cbn [not_a_string truthy typeof_string negb orb str_of] in He.
    destruct (Encode_Decode (c :: s) e Hw He) as [D _]. rewrite D. reflexivity.
Qed.

Lemma encodeParameter_Encode (s : jsstring) :
  Decoder.encodeParameter (JString s) = Encode s.
Proof. destruct s; reflexivity. Qed.

(** X2: the output of [encodeParameter] holds only unescaped ASCII units and
    "%": no "&", no "=", nothing above 127; and it is empty only for the
    empty string. *)
Theorem encode_output_alphabet (s e : jsstring) :
  Forall (fun c => (c < 65536)%N) s ->
  Decoder.encodeParameter (JString s) = Ok e ->
  Forall (fun c => is_unescaped c = true \/ c = PERCENT) e /\
  Forall (fun c => (c < 128)%N /\ c <> AMPERSAND /\ c <> EQUALS) e /\
  (s <> [] -> e <> []).
Proof.
  intros Hw He. rewrite encodeParameter_Encode in He.
  destruct (Encode_Decode s e Hw He) as [D S].
  split; [exact S|]. split.
  - eapply Forall_impl; [|exact S]. intros c Hc. cbv beta.
    split; [apply url_safe_ascii; exact Hc | apply url_safe_not_separator; exact Hc].
  - intros Hs ->. apply Hs. inversion D. reflexivity.
Qed.

(** X3: [encodeParameter] raises only on surrogates: a string without
    surrogate units is always encoded. *)
Theorem encode_succeeds (s : jsstring) :
  Forall (fun c => (c < 55296 \/ 57343 < c)%N) s ->
  exists e, Decoder.encodeParameter (JString s) = Ok e.
Proof.
  intros H. rewrite encodeParameter_Encode. apply Encode_no_surrogate; exact H.
Qed.

(** X4: an encoded string can be encoded again, and each call of
    [decodeParameter] undoes exactly one level. *)
Theorem double_encode_decode (s e1 : jsstring) :
  Forall (fun c => (c < 65536)%N) s ->
  Decoder.encodeParameter (JString s) = Ok e1 ->
  exists e2,
    Decoder.encodeParameter (JString e1) = Ok e2 /\
    Decoder.decodeParameter (JString e2) = Ok e1 /\
    Decoder.decodeParameter (JString e1) = Ok s.
Proof.
  intros Hw He. pose proof He as He'. rewrite encodeParameter_Encode in He'.
  destruct (Encode_Decode s e1 Hw He') as [D S].
  assert (A : Forall (fun c => (c < 128)%N) e1)
    by (eapply Forall_impl; [|exact S]; intros c Hc; apply url_safe_ascii; exact Hc).
  destruct (Encode_no_surrogate e1) as [e2 E2].
  { eapply Forall_impl; [|exact A]. cbv beta. intros; lia. }
  exists e2. rewrite encodeParameter_Encode. split; [exact E2|]. split.
  - rewrite decodeParameter_once. unfold Spec.percent_decode_once.
    destruct (Encode_Decode e1 e2) as [D2 _]; [|exact E2|rewrite D2; reflexivity].
    eapply Forall_impl; [|exact A]. cbv beta. intros; lia.
  - rewrite decodeParameter_once. unfold Spec.percent_decode_once.
    rewrite D. reflexivity.
Qed.

(** X5: a form field built from an encoded name, "=" and an encoded value
    is parsed into one parameter whose decoded name and value are the
    original ones. *)
Theorem form_field_roundtrip (n v en ev : jsstring) :
  Forall (fun c => (c < 65536)%N) n ->
  Forall (fun c => (c < 65536)%N) v ->
  Decoder.encodeParameter (JString n) = Ok en ->
  Decoder.encodeParameter (JString v) = Ok ev ->
  Parser.parseUrlEncodedBody (JString (en ++ lit "=" ++ ev))
  = Ok [ {| name := en; decodedName := n; value := ev; decodedValue := v |} ].
Proof.
  intros Hn Hv En Ev. rewrite encodeParameter_Encode in En, Ev.
  destruct (Encode_Decode n en Hn En) as [Dn Sn].
  destruct (Encode_Decode v ev Hv Ev) as [Dv Sv].
  rewrite Forall_forall in Sn, Sv.
  assert (NoAmpN : ~ In AMPERSAND en)
    by (intros Hin; apply (proj1 (url_safe_not_separator _ (Sn _ Hin))); reflexivity).
  assert (NoEqN : ~ In EQUALS en)
    by (intros Hin; apply (proj2 (url_safe_not_separator _ (Sn _ Hin))); reflexivity).
  assert (NoAmpV : ~ In AMPERSAND ev)
    by (intros Hin; apply (proj1 (url_safe_not_separator _ (Sv _ Hin))); reflexivity).
  rewrite parseUrlEncodedBody_segments. unfold Spec.segments.
  change (lit "=") with [EQUALS]. cbn [app].
  rewrite split_no_sep.
  - assert (Hne : Spec.nonempty (en ++ EQUALS :: ev) = true)
      by (destruct en; reflexivity).
    cbn [filter]. rewrite Hne. cbn [map]. unfold Spec.segment_parameter.
    destruct (name_value_parts en ev NoEqN) as [-> ->].
    unfold Spec.percent_decode_once. rewrite Dn, Dv. reflexivity.
  - intros Hin. apply in_app_or in Hin. destruct Hin as [Hin|[Hin|Hin]]; auto.
    discriminate Hin.
Qed.

(** X6: parsing two bodies joined by "&" gives the parameters of the first
    followed by those of the second. *)
Theorem parse_distributes_over_ampersand (a b : jsstring) :
  exists pa pb,
    Parser.parseUrlEncodedBody (JString a) = Ok pa /\
    Parser.parseUrlEncodedBody (JString b) = Ok pb /\
    Parser.parseUrlEncodedBody (JString (a ++ lit "&" ++ b)) = Ok (pa ++ pb).
Proof.
  do 2 eexists. rewrite !parseUrlEncodedBody_segments.
  split; [reflexivity|]. split; [reflexivity|].
  unfold Spec.segments. change (lit "&") with [AMPERSAND]. cbn [app].
  rewrite split_app_sep, filter_app, map_app. reflexivity.
Qed.

Lemma Decode_not_encoded (s : jsstring) :
  Decoder.re_percent_hex2 s = false ->
  Decode s 0 [] = Ok s \/ exists e, Decode s 0 [] = Throw e.
Proof.
  induction s as [|c rest IH]; intros H; [left; reflexivity|].
  cbn [Decoder.re_percent_hex2] in H. apply orb_false_iff in H.
  destruct H as [H1 H2]. cbn [Decode].
  destruct (c =? PERCENT)%N.
  - right. cbn [andb] in H1.
    destruct rest as [|h1 [|h2 rest']]; try (eexists; reflexivity).
    unfold ParseHexOctet. unfold Decoder.is_hex in H1.
    destruct (hexval h1); [|eexists; reflexivity].
    destruct (hexval h2); [discriminate|eexists; reflexivity].
  - destruct (IH H2) as [-> | [e ->]]; [left; reflexivity | right; eexists; reflexivity].
Qed.

(** X7: a string in which [isUrlEncoded] finds no escape comes out of
    [decodeParameter] unchanged, also when it holds a stray "%". *)
Theorem decode_leaves_unencoded (s : jsstring) :
  Decoder.isUrlEncoded (JString s) = false ->
  Decoder.decodeParameter (JString s) = Ok s.
Proof.
  intros H. rewrite decodeParameter_once. unfold Spec.percent_decode_once.
  destruct s as [|c s]; [reflexivity|].
  unfold Decoder.isUrlEncoded in H.
  cbn [not_a_string truthy typeof_string negb orb str_of] in H.
  unfold decodeURIComponent.
  destruct (Decode_not_encoded (c :: s) H) as [-> | [e ->]]; reflexivity.
Qed.


(** ** Base64 and the view-state analyzer *)

Lemma b64_not_whitespace (c : N) :
  is_b64 c = true -> is_ascii_whitespace c = false.
Proof.
  intros H. destruct (is_ascii_whitespace c) eqn:W; [|reflexivity].
  unfold is_ascii_whitespace in W.
  repeat (apply orb_true_iff in W; destruct W as [W|W]);
    apply N.eqb_eq in W; subst c; vm_compute in H; discriminate.
Qed.

Lemma after_b64_split (s : jsstring) :
  exists body, s = body ++ ViewState.after_b64 s /\ forallb is_b64 body = true.
Proof.
  induction s as [|c s (body & E & F)]; [exists []; split; reflexivity|].
  cbn [ViewState.after_b64]. destruct (is_b64 c) eqn:B.
  - exists (c :: body). cbn [app forallb]. rewrite B, F, <- E. split; reflexivity.
  - exists []. split; reflexivity.
Qed.

Lemma strip_padding_spec (data : jsstring) :
  strip_padding data =
  match rev data with
  | x :: rest =>
      if (x =? 61)%N then
        match rest with
        | y :: r => if (y =? 61)%N then rev r else rev rest
        | [] => rev rest
        end
      else data
  | [] => data
  end.
Proof.
  unfold strip_padding. destruct (rev data) as [|x rest]; [reflexivity|].
  destruct x as [|p]; [reflexivity|].
  do 7 (try destruct p as [p|p|]); try reflexivity.
  destruct rest as [|y r]; [reflexivity|].
  destruct y as [|p]; [reflexivity|].
  do 7 (try destruct p as [p|p|]); reflexivity.
Qed.

Lemma padding_cases (t : jsstring) :
  match t with
  | [] => true
  | [61%N] => true
  | [61%N; 61%N] => true
  | _ => false
  end = true <-> t = [] \/ t = [61%N] \/ t = [61%N; 61%N].
Proof.
  split.
  - destruct t as [|x [|y [|z r]]]; auto.
    + destruct x as [|p]; [discriminate|].
      do 7 (try destruct p as [p|p|]); try discriminate. auto.
    + destruct x as [|p]; [discriminate|].
      do 7 (try destruct p as [p|p|]); try discriminate.
      destruct y as [|p]; [discriminate|].
      do 7 (try destruct p as [p|p|]); try discriminate. auto.
    + destruct x as [|p]; [discriminate|].
      do 7 (try destruct p as [p|p|]); try discriminate.
      destruct y as [|p]; [discriminate|].
      do 7 (try destruct p as [p|p|]); discriminate.
  - intros [->|[->| ->]]; reflexivity.
Qed.

Lemma filter_all {A : Type} (f : A -> bool) (l : list A) :
  forallb f l = true -> filter f l = l.
Proof.
  induction l as [|x l IH]; simpl; [reflexivity|].
  intros H. apply andb_true_iff in H. destruct H as [-> H].
  rewrite IH by assumption. reflexivity.
Qed.

Lemma last_b64_not_equals (body : jsstring) (x : N) (r : jsstring) :
  forallb is_b64 body = true -> rev body = x :: r -> (x =? 61)%N = false.
Proof.
  intros F E. rewrite forallb_forall in F.
  assert (Hx : In x body) by (apply in_rev; rewrite E; left; reflexivity).
  apply F in Hx. destruct (N.eqb_spec x 61) as [->|]; [|reflexivity].
  vm_compute in Hx. discriminate.
Qed.

(** What [atob] does to a string that passed the two tests of [isBase64]. *)
Lemma atob_accepted (s : jsstring) :
  ViewState.base64Regex_test s = true ->
  (strlen s mod 4 = 0)%Z ->
  s <> [] ->
  exists body pad,
    s = body ++ repeat 61%N pad /\ (pad <= 2)%nat /\
    forallb is_b64 body = true /\ (2 <= length body)%nat /\
    atob s = Ok (b64_octets (map sextet body)).
Proof.
  intros R L Hne. unfold ViewState.base64Regex_test in R.
  apply padding_cases in R.
  destruct (after_b64_split s) as (body & E & F).
  assert (P : exists pad, (pad <= 2)%nat /\ ViewState.after_b64 s = repeat 61%N pad).
  { destruct R as [R|[R|R]]; rewrite R;
      [exists 0%nat | exists 1%nat | exists 2%nat]; split; try reflexivity; lia. }
  destruct P as (pad & Hpad & T). rewrite T in E. clear R T.
  assert (Hlen : length s = (length body + pad)%nat)
    by (rewrite E, length_app, repeat_length; reflexivity).
  unfold strlen in L.
  assert (Hmod : (length s mod 4 = 0)%nat).
  { apply Nat2Z.inj. rewrite Nat2Z.inj_mod. exact L. }
  assert (Hs4 : (4 <= length s)%nat).
  { destruct s as [|c s]; [congruence|].
    destruct (length (c :: s)) as [|[|[|[|n]]]] eqn:El; simpl in *; try discriminate; lia. }
  exists body, pad. split; [exact E|]. split; [exact Hpad|].
  split; [exact F|]. split; [lia|].
  unfold atob.
  assert (W : filter (fun c => negb (is_ascii_whitespace c)) s = s).
  { apply filter_all. rewrite E, forallb_app. apply andb_true_iff; split.
    - rewrite forallb_forall in F |- *. intros c Hc.
      rewrite b64_not_whitespace by (apply F; exact Hc). reflexivity.
    - rewrite forallb_forall. intros c Hc. apply repeat_spec in Hc. subst c.
      reflexivity. }
  rewrite W, Hmod. cbn [Nat.eqb].
  assert (SP : strip_padding s = body).
  { rewrite strip_padding_spec, E, rev_app_distr.
    destruct pad as [|[|[|pad]]]; [| | |lia]; cbn [repeat rev app].
    - rewrite app_nil_r.
      destruct (rev body) as [|x r] eqn:Er; [reflexivity|].
      rewrite (last_b64_not_equals body x r F Er). reflexivity.
    - rewrite N.eqb_refl.
      destruct (rev body) as [|y r] eqn:Er.
      + apply (f_equal (@rev N)) in Er. rewrite rev_involutive in Er.
        rewrite Er. reflexivity.
      + rewrite (last_b64_not_equals body y r F Er).
        rewrite <- Er, rev_involutive. reflexivity.
    - rewrite !N.eqb_refl. apply rev_involutive. }
  rewrite SP.
  assert (Hb : (length body mod 4 =? 1)%nat = false).
  { apply Nat.eqb_neq. intros Hb.
    assert (Hm : ((length body + pad) mod 4 = 0)%nat) by (rewrite <- Hlen; exact Hmod).
    rewrite Nat.Div0.add_mod, Hb in Hm.
    destruct pad as [|[|[|pad]]]; [| | |lia]; simpl in Hm; discriminate. }
  rewrite Hb, F. cbn [negb]. reflexivity.
Qed.

Lemma b64_octets_nonempty (l : list N) :
  (2 <= length l)%nat -> b64_octets l <> [].
Proof.
  destruct l as [|a [|b [|c [|d more]]]]; simpl; intros H; try lia; discriminate.
Qed.

Lemma strlen_mod4 (s : jsstring) :
  (strlen s mod 4 =? 0)%Z = true <-> (strlen s mod 4 = 0)%Z.
Proof. apply Z.eqb_eq. Qed.

Lemma isBase64_spec (s : jsstring) :
  ViewState.isBase64 (JString s)
  = Ok (Spec.nonempty s && ViewState.base64Regex_test s
        && (strlen s mod 4 =? 0)%Z).
Proof.
  unfold ViewState.isBase64.
  destruct s as [|c s]; [reflexivity|].
  cbn [not_a_string truthy typeof_string negb orb str_of Spec.nonempty andb].
  destruct (ViewState.base64Regex_test (c :: s)) eqn:R; [|reflexivity].
  destruct (strlen (c :: s) mod 4 =? 0)%Z eqn:L; [|reflexivity].
  cbn [negb andb].
  destruct (atob_accepted (c :: s) R) as (body & pad & _ & _ & _ & H2 & A);
    [apply Z.eqb_eq; exact L | discriminate |].
  rewrite A. cbn [bind try_catch ret].
  pose proof (b64_octets_nonempty (map sextet body)) as Hn.
  rewrite length_map in Hn. specialize (Hn H2).
  destruct (b64_octets (map sextet body)); [congruence|reflexivity].
Qed.

Lemma warnings_distinct :
  NoDup [ViewState.EMPTY_WARNING; ViewState.NOT_BASE64_WARNING;
         ViewState.JAVA_WARNING; ViewState.DECODE_WARNING].
Proof.
  repeat constructor; intros H; vm_compute in H;
    repeat (destruct H as [H|H]; [discriminate H|]); exact H.
Qed.

(** The result of the analyzer on a string that [isBase64] accepts. *)
Lemma analyzeViewState_base64 (s : jsstring) :
  ViewState.isBase64 (JString s) = Ok true ->
  exists body pad,
    s = body ++ repeat 61%N pad /\ (pad <= 2)%nat /\
    forallb is_b64 body = true /\ (2 <= length body)%nat /\
    let decoded := b64_octets (map sextet body) in
    let java := ViewState.detectSerializedJava (ViewState.to_Uint8Array decoded) in
    ViewState.analyzeViewState (JString s)
    = Ok {| encoding := base64;
            decodedContent := Some decoded;
            isSerializedJava := java;
            warnings := if java then [ViewState.JAVA_WARNING] else [] |}.
Proof.
  intros B. pose proof B as B'. rewrite isBase64_spec in B'.
  assert (B'' : Spec.nonempty s && ViewState.base64Regex_test s
                && (strlen s mod 4 =? 0)%Z = true) by congruence.
  clear B'. apply andb_true_iff in B''. destruct B'' as [B1 L].
  apply andb_true_iff in B1. destruct B1 as [Hne R].
  destruct (atob_accepted s R) as (body & pad & E & Hp & F & H2 & A);
    [apply Z.eqb_eq; exact L | destruct s; [discriminate Hne|discriminate] |].
  exists body, pad. repeat (split; [assumption|]).
  cbv zeta. unfold ViewState.analyzeViewState.
  destruct s as [|c s]; [discriminate|].
  cbn [not_a_string truthy typeof_string negb orb str_of].
  rewrite B. cbn [bind]. rewrite A. cbn [bind try_catch].
  destruct (ViewState.detectSerializedJava
              (ViewState.to_Uint8Array (b64_octets (map sextet body))));
    reflexivity.
Qed.

(** The sextets of the letters "r", "O" and "0" to "3". *)
Lemma sextet_facts (x : N) :
  is_b64 x = true ->
  (sextet x < 64)%N /\
  (sextet x = 43%N <-> x = 114%N) /\
  (sextet x = 14%N <-> x = 79%N) /\
  ((52 <= sextet x <= 55)%N <-> (48 <= x <= 51)%N).
Proof.
  unfold is_b64, sextet, b64val, is_upper, is_lower, is_digit.
  bool_to_prop; cbn [andb]; intros H; try discriminate H;
    repeat split; intros; try lia.
Qed.

Lemma java_magic_3 (a b c : N) :
  (a < 64)%N -> (b < 64)%N -> (c < 64)%N ->
  ViewState.detectSerializedJava (ViewState.to_Uint8Array (b64_octets [a; b; c]))
  = true <-> a = 43%N /\ b = 14%N /\ (52 <= c <= 55)%N.
Proof.
  intros Ha Hb Hc.
  cbn [b64_octets ViewState.to_Uint8Array map].
  unfold ViewState.detectSerializedJava.
  cbn [arrlen length Z.of_nat Z.ltb Z.compare nth_error
       ViewState.JAVA_SERIALIZATION_MAGIC Pos.of_succ_nat Pos.succ Pos.compare Pos.compare_cont].
  rewrite andb_true_iff, !N.eqb_eq.
  split; [intros [H1 H2] | intros (-> & -> & H)]; ndiv.
Qed.

Lemma java_magic_4 (a b c d : N) (more : list N) :
  (a < 64)%N -> (b < 64)%N -> (c < 64)%N -> (d < 64)%N ->
  ViewState.detectSerializedJava
    (ViewState.to_Uint8Array (b64_octets (a :: b :: c :: d :: more)))
  = true <-> a = 43%N /\ b = 14%N /\ (52 <= c <= 55)%N.
Proof.
  intros Ha Hb Hc Hd.
  cbn [b64_octets ViewState.to_Uint8Array map].
  unfold ViewState.detectSerializedJava.
  match goal with
  | |- context [(arrlen ?l <? 2)%Z] =>
      replace (arrlen l <? 2)%Z with false
        by (symmetry; apply Z.ltb_ge; unfold arrlen; cbn [length]; lia)
  end.
  cbn [nth_error ViewState.JAVA_SERIALIZATION_MAGIC].
  rewrite andb_true_iff, !N.eqb_eq.
  split; [intros [H1 H2] | intros (-> & -> & H)]; ndiv.
Qed.

Lemma four_step_ind (P : list N -> Prop) :
  P [] -> (forall a, P [a]) -> (forall a b, P [a; b]) ->
  (forall a b c, P [a; b; c]) ->
  (forall a b c d more, P more -> P (a :: b :: c :: d :: more)) ->
  forall l, P l.
Proof.
  intros H0 H1 H2 H3 H4.
  fix IH 1. intros [|a [|b [|c [|d more]]]];
    [exact H0 | apply H1 | apply H2 | apply H3 | apply H4; apply IH].
Qed.

Lemma b64_octets_length (l : list N) :
  length (b64_octets l) = (length l * 3 / 4)%nat.
Proof.
  induction l as [| | | |a b c d more IH] using four_step_ind;
    try reflexivity.
  cbn [b64_octets length]. rewrite IH.
  replace (S (S (S (S (length more)))) * 3)%nat
    with (length more * 3 + 3 * 4)%nat by lia.
  rewrite Nat.div_add by discriminate. lia.
Qed.

Lemma b64_octets_bytes (l : list N) :
  Forall (fun v => (v < 64)%N) l ->
  Forall (fun B => (B < 256)%N) (b64_octets l).
Proof.
  induction l as [| | | |a b c d more IH] using four_step_ind; intros H;
    cbn [b64_octets]; try (constructor; fail).
  - inversion H as [|? ? Ha H']; inversion H' as [|? ? Hb _]; subst.
    repeat constructor. ndiv.
  - inversion H as [|? ? Ha H']; inversion H' as [|? ? Hb H''];
      inversion H'' as [|? ? Hc _]; subst.
    repeat constructor; ndiv.
  - inversion H as [|? ? Ha H']; inversion H' as [|? ? Hb H''];
      inversion H'' as [|? ? Hc G3]; inversion G3 as [|? ? Hd G4]; subst.
    repeat (constructor; [ndiv|]). apply IH; exact G4.
Qed.

Lemma count_equals (body : jsstring) (pad : nat) :
  forallb is_b64 body = true ->
  length (filter (N.eqb 61) (body ++ repeat 61%N pad)) = pad.
Proof.
  intros F. rewrite filter_app, length_app.
  assert (H0 : filter (N.eqb 61) body = []).
  { induction body as [|x body IH]; [reflexivity|].
    cbn [forallb] in F. apply andb_true_iff in F. destruct F as [Fx F].
    cbn [filter]. destruct (N.eqb_spec 61 x) as [<-|_];
      [vm_compute in Fx; discriminate | apply IH; exact F]. }
  rewrite H0. cbn [length Nat.add].
  induction pad as [|pad IH]; [reflexivity|].
  cbn [repeat filter]. rewrite N.eqb_refl. cbn [length]. rewrite IH. reflexivity.
Qed.

(** X8: for a value that [isBase64] accepts, the analyzer reports base64
    and a decoded content of bytes whose length is three for every four
    units of the value, less the number of "=". *)
Theorem decoded_content_size (s : jsstring) :
  ViewState.isBase64 (JString s) = Ok true ->
  exists a d,
    ViewState.analyzeViewState (JString s) = Ok a /\
    encoding a = base64 /\
    decodedContent a = Some d /\
    (strlen d = 3 * (strlen s / 4)
                - Z.of_nat (length (filter (N.eqb 61) s)))%Z /\
    Forall (fun B => (B < 256)%N) d.
Proof.
  intros B.
  pose proof B as B'. rewrite isBase64_spec in B'.
  assert (L : (strlen s mod 4 =? 0)%Z = true).
  { assert (X : Spec.nonempty s && ViewState.base64Regex_test s
                && (strlen s mod 4 =? 0)%Z = true) by congruence.
    apply andb_true_iff in X. tauto. }
  apply Z.eqb_eq in L.
  destruct (analyzeViewState_base64 s B) as (body & pad & E & Hp & F & H2 & A).
  cbv zeta in A. eexists; eexists. split; [exact A|].
  split; [reflexivity|]. split; [reflexivity|]. split.
  - rewrite E at 2. rewrite (count_equals body pad F).
    unfold strlen in *. rewrite b64_octets_length, length_map.
    assert (Hlen : length s = (length body + pad)%nat)
      by (rewrite E, length_app, repeat_length; reflexivity).
    rewrite Hlen in *.
    rewrite Nat2Z.inj_div, Nat2Z.inj_mul. 
    destruct pad as [|[|[|pad]]]; [| | |lia];
      zify; Z.to_euclidean_division_equations; lia.
  - apply b64_octets_bytes. rewrite forallb_forall in F.
    apply Forall_forall. intros v Hv. apply in_map_iff in Hv.
    destruct Hv as (x & <- & Hx). apply sextet_facts. apply F; exact Hx.
Qed.

(** X9: the analyzer flags serialized Java exactly for the values that
    [isBase64] accepts and that start with "rO0", "rO1", "rO2" or "rO3";
    the warning about it is present exactly when the flag is set. *)
Theorem java_detection_prefix (s : jsstring) :
  exists a,
    ViewState.analyzeViewState (JString s) = Ok a /\
    (isSerializedJava a = true <->
     ViewState.isBase64 (JString s) = Ok true /\
     exists c rest, s = 114%N :: 79%N :: c :: rest /\ (48 <= c <= 51)%N) /\
    (In ViewState.JAVA_WARNING (warnings a) <-> isSerializedJava a = true).
Proof.
  destruct (isBase64_total (JString s)) as [[|] B].
  - destruct (analyzeViewState_base64 s B) as (body & pad & E & Hp & F & H2 & A).
    cbv zeta in A. eexists; split; [exact A|].
    cbn [isSerializedJava warnings].
    set (java := ViewState.detectSerializedJava _).
    split.
    + assert (J : java = true <->
                  exists c rest', body = 114%N :: 79%N :: c :: rest' /\ (48 <= c <= 51)%N).
      { subst java. rewrite forallb_forall in F.
        destruct body as [|x [|y [|z [|w more]]]]; cbn [length] in H2; try lia.
        - split; [discriminate | intros (c & r & Hb & _); discriminate].
        - cbn [map].
          destruct (sextet_facts x) as (X1 & X2 & _); [apply F; simpl; auto|].
          destruct (sextet_facts y) as (Y1 & _ & Y2 & _); [apply F; simpl; auto|].
          destruct (sextet_facts z) as (Z1 & _ & _ & Z2); [apply F; simpl; auto|].
          rewrite java_magic_3 by assumption. rewrite X2, Y2, Z2.
          split.
          + intros (-> & -> & Hz). exists z, []. auto.
          + intros (c & r & Hb & Hc). inversion Hb; subst. auto.
        - cbn [map].
          destruct (sextet_facts x) as (X1 & X2 & _); [apply F; simpl; auto|].
          destruct (sextet_facts y) as (Y1 & _ & Y2 & _); [apply F; simpl; auto|].
          destruct (sextet_facts z) as (Z1 & _ & _ & Z2); [apply F; simpl; auto|].
          destruct (sextet_facts w) as (W1 & _); [apply F; simpl; auto|].
          rewrite java_magic_4 by assumption. rewrite X2, Y2, Z2.
          split.
          + intros (-> & -> & Hz). exists z, (w :: more). auto.
          + intros (c & r & Hb & Hc). inversion Hb; subst. auto. }
      rewrite J. split.
      * intros (c & r & -> & Hc). split; [exact B|].
        exists c, (r ++ repeat 61%N pad). rewrite E. split; [reflexivity|exact Hc].
      * intros (_ & c & r & Hs & Hc). rewrite E in Hs.
        destruct body as [|x [|y body']]; cbn [length] in H2; try lia.
        cbn [app] in Hs. inversion Hs as [[Hx Hy Hr]]. subst x y.
        destruct body' as [|z body''].
        -- cbn [app] in Hr. destruct pad; [discriminate|].
           cbn [repeat] in Hr. inversion Hr; subst. lia.
        -- cbn [app] in Hr. inversion Hr; subst. exists c, body''. auto.
    + destruct java; cbn [In]; split; auto; try discriminate.
  - assert (A : ViewState.analyzeViewState (JString s)
                = Ok {| encoding := if not_a_string (JString s)
                                    then unknown_encoding else encrypted;
                        decodedContent := None;
                        isSerializedJava := false;
                        warnings := if not_a_string (JString s)
                                    then [ViewState.EMPTY_WARNING]
                                    else [ViewState.NOT_BASE64_WARNING] |}).
    { unfold ViewState.analyzeViewState.
      destruct (not_a_string (JString s)); [reflexivity|].
      rewrite B. reflexivity. }
    eexists; split; [exact A|]. cbn [isSerializedJava warnings].
    split; [split; [discriminate | intros [H _]; rewrite B in H; discriminate]|].
    split; [|discriminate].
    destruct (not_a_string (JString s)); intros [H|[]];
      vm_compute in H; discriminate H.
Qed.


(** X10: the analyzer never raises and never reports a decoding failure:
    it gives at most one warning, and a decoded content exactly when the
    encoding is base64. *)
Theorem analyzer_warnings (v : jsval) :
  exists a,
    ViewState.analyzeViewState v = Ok a /\
    ~ In ViewState.DECODE_WARNING (warnings a) /\
    (length (warnings a) <= 1)%nat /\
    (decodedContent a = None <-> encoding a <> base64).
Proof.
  destruct (not_a_string v) eqn:G.
  - unfold ViewState.analyzeViewState. rewrite G.
    eexists; split; [reflexivity|]. cbn [warnings decodedContent encoding length].
    split; [intros [H|[]]; vm_compute in H; discriminate H|].
    split; [lia|]. split; [discriminate|reflexivity].
  - destruct (not_a_string_false v G) as (c & s & ->).
    destruct (isBase64_total (JString (c :: s))) as [[|] B].
    + destruct (analyzeViewState_base64 (c :: s) B) as (body & pad & _ & _ & _ & _ & A).
      cbv zeta in A. eexists; split; [exact A|].
      cbn [warnings decodedContent encoding].
      destruct (ViewState.detectSerializedJava _); cbn [length In].
      * split; [intros [H|[]]; vm_compute in H; discriminate H|].
        split; [lia|]. split; [discriminate | congruence].
      * split; [tauto|]. split; [lia|]. split; [discriminate | congruence].
    + unfold ViewState.analyzeViewState. rewrite G, B.
      eexists; split; [reflexivity|].
      cbn [warnings decodedContent encoding length ViewState.push_warning
           ViewState.set_encoding app].
      split; [intros [H|[]]; vm_compute in H; discriminate H|].
      split; [lia|]. split; [discriminate|reflexivity].
Qed.

Lemma after_equals_padding (t : jsstring) :
  t = [] \/ t = [61%N] \/ t = [61%N; 61%N] ->
  ValueAnalyzer.after_equals t = [].
Proof. intros [->|[->| ->]]; reflexivity. Qed.

(** X11: every value that the analyzer's [isBase64] accepts is accepted by
    the value explainer's [isBase64] too. *)
Theorem explainer_accepts_analyzer_base64 (s : jsstring) :
  ViewState.isBase64 (JString s) = Ok true ->
  ValueAnalyzer.isBase64 s = true.
Proof.
  intros B. pose proof B as B'. rewrite isBase64_spec in B'.
  assert (X : Spec.nonempty s && ViewState.base64Regex_test s
              && (strlen s mod 4 =? 0)%Z = true) by congruence.
  apply andb_true_iff in X. destruct X as [X L].
  apply andb_true_iff in X. destruct X as [Hne R].
  destruct (atob_accepted s R) as (body & pad & E & Hp & F & H2 & _);
    [apply Z.eqb_eq; exact L | destruct s; [discriminate Hne|discriminate] |].
  unfold ValueAnalyzer.isBase64.
  assert (Hlen : (4 <= strlen s)%Z).
  { apply Z.eqb_eq in L. unfold strlen in *.
    destruct s as [|c s]; [discriminate Hne|].
    cbn [length] in *. zify; Z.to_euclidean_division_equations; lia. }
  replace (strlen s <? 4)%Z with false by (symmetry; apply Z.ltb_ge; exact Hlen).
  destruct s as [|c s]; [discriminate Hne|].
  cbn [truthy negb orb]. rewrite L, andb_true_r.
  unfold ValueAnalyzer.base64Pattern_test.
  unfold ViewState.base64Regex_test in R. apply padding_cases in R.
  rewrite (after_equals_padding _ R), andb_true_r.
  destruct body as [|x body]; [cbn [length] in H2; lia|].
  cbn [app] in E. inversion E; subst. cbn [forallb] in F.
  apply andb_true_iff in F. tauto.
Qed.

(** [startsWith] and [indexOf] in terms of concatenation. *)
Lemma startsWith_iff (s p : jsstring) :
  startsWith s p = true <-> exists b, s = p ++ b.
Proof.
  revert s; induction p as [|x p IH]; intros s; cbn [startsWith].
  - split; [intros _; exists s; reflexivity | reflexivity].
  - destruct s as [|y s].
    + split; [discriminate | intros [b H]; discriminate].
    + rewrite andb_true_iff, N.eqb_eq, IH. split.
      * intros [-> [b ->]]. exists b; reflexivity.
      * intros [b H]. inversion H; subst. split; [reflexivity|exists b; reflexivity].
Qed.

Lemma indexOf_from_spec (s p : jsstring) (k : Z) :
  (indexOf_from s p k = (-1)%Z /\ includes s p = false) \/
  (exists h b,
      s = h ++ p ++ b /\
      indexOf_from s p k = (k + strlen h)%Z /\
      includes s p = true /\
      forall h' b', s = h' ++ p ++ b' -> (length h <= length h')%nat).
Proof.
  revert k; induction s as [|c s IH]; intros k.
  - cbn [indexOf_from includes].
    destruct (startsWith [] p) eqn:S.
    + right. apply startsWith_iff in S. destruct S as [b Hb].
      exists [], b. cbn [app]. split; [exact Hb|]. split; [unfold strlen; simpl; lia|].
      split; [reflexivity|]. intros; simpl; lia.
    + left. auto.
  - cbn [indexOf_from includes].
    destruct (startsWith (c :: s) p) eqn:S.
    + right. apply startsWith_iff in S. destruct S as [b Hb].
      exists [], b. cbn [app]. split; [exact Hb|]. split; [unfold strlen; simpl; lia|].
      split; [reflexivity|]. intros; simpl; lia.
    + cbn [orb].
      destruct (IH (k + 1)%Z) as [(H1 & H2) | (h & b & E & H1 & H2 & H3)].
      * left. auto.
      * right. exists (c :: h), b. cbn [app]. rewrite E at 1.
        split; [reflexivity|]. split.
        -- rewrite H1. unfold strlen. cbn [length]. lia.
        -- split; [exact H2|].
           intros h' b' E'. destruct h' as [|c' h'].
           ++ exfalso. cbn [app] in E'.
              assert (St : startsWith (c :: s) p = true)
                by (apply startsWith_iff; exists b'; exact E').
              congruence.
           ++ cbn [app] in E'. inversion E'; subst c'.
              cbn [length]. apply le_n_S. apply (H3 h' b'). assumption.
Qed.

Lemma skipn_past (h sep b : jsstring) :
  skipn (length h + length sep) (h ++ sep ++ b) = b.
Proof.
  rewrite app_assoc, <- length_app. rewrite skipn_app, skipn_all, Nat.sub_diag.
  reflexivity.
Qed.

(** What [extractBodyFromRaw] finds behind one separator. *)
Lemma substring_past (h sep b : jsstring) :
  substring_from (h ++ sep ++ b) (strlen h + strlen sep) = b.
Proof.
  unfold strlen. rewrite <- Nat2Z.inj_add.
  rewrite substring_suffix by (rewrite !length_app; lia).
  apply skipn_past.
Qed.

Lemma extractBody_first_separator (raw : jsstring) :
  let body := Parser.extractBodyFromRaw (JString raw) in
  (exists h,
      raw = h ++ Parser.CRLFCRLF ++ body /\
      forall h' b', raw = h' ++ Parser.CRLFCRLF ++ b' ->
                    (length h <= length h')%nat) \/
  (includes raw Parser.CRLFCRLF = false /\
   exists h,
     raw = h ++ Parser.LFLF ++ body /\
     forall h' b', raw = h' ++ Parser.LFLF ++ b' ->
                   (length h <= length h')%nat) \/
  (includes raw Parser.CRLFCRLF = false /\
   includes raw Parser.LFLF = false /\ body = []).
Proof.
  cbv zeta. unfold Parser.extractBodyFromRaw.
  destruct raw as [|c raw]; [right; right; repeat split; reflexivity|].
  cbn [not_a_string truthy typeof_string negb orb str_of].
  unfold indexOf. cbv zeta.
  destruct (indexOf_from_spec (c :: raw) Parser.CRLFCRLF 0)
    as [(I1 & N1) | (h & b & E & I1 & _ & F1)].
  - rewrite I1, Z.eqb_refl. cbn [negb].
    destruct (indexOf_from_spec (c :: raw) Parser.LFLF 0)
      as [(I2 & N2) | (h & b & E & I2 & _ & F2)].
    + rewrite I2, !Z.eqb_refl. cbn [negb]. right; right. auto.
    + rewrite I2. right; left. split; [exact N1|].
      assert (Hk : ((0 + strlen h =? -1) = false)%Z)
        by (apply Z.eqb_neq; unfold strlen; lia).
      rewrite Hk. cbn [negb].
      assert (Hk2 : ((0 + strlen h + 2 =? -1) = false)%Z)
        by (apply Z.eqb_neq; unfold strlen; lia).
      rewrite Hk2.
      exists h. rewrite E at 2.
      replace (0 + strlen h + 2)%Z with (strlen h + strlen Parser.LFLF)%Z
        by (unfold strlen; simpl; lia).
      rewrite substring_past. split; [exact E | exact F2].
  - left. rewrite I1.
    assert (Hk : ((0 + strlen h =? -1) = false)%Z)
      by (apply Z.eqb_neq; unfold strlen; lia).
    rewrite Hk. cbn [negb].
    assert (Hk2 : ((0 + strlen h + 4 =? -1) = false)%Z)
      by (apply Z.eqb_neq; unfold strlen; lia).
    rewrite Hk2.
    exists h. rewrite E at 2.
    replace (0 + strlen h + 4)%Z with (strlen h + strlen Parser.CRLFCRLF)%Z
      by (unfold strlen; simpl; lia).
    rewrite substring_past. split; [exact E | exact F1].
Qed.

Lemma includes_iff (s p : jsstring) :
  includes s p = true <-> exists a b, s = a ++ p ++ b.
Proof.
  split.
  - intros H. destruct (indexOf_from_spec s p 0) as [(_ & N) | (h & b & E & _)];
      [congruence | exists h, b; exact E].
  - intros (a & b & ->). induction a as [|c a IH]; cbn [app].
    + assert (S : startsWith (p ++ b) p = true)
        by (apply startsWith_iff; exists b; reflexivity).
      destruct (p ++ b); cbn [includes]; rewrite S; reflexivity.
    + cbn [includes]. rewrite IH. apply orb_true_r.
Qed.

(** The body of a message whose first blank line ends the header block. *)
Lemma extractBody_message (h body : jsstring) :
  includes (h ++ [13; 10; 13]%N) Parser.CRLFCRLF = false ->
  Parser.extractBodyFromRaw (JString (h ++ Parser.CRLFCRLF ++ body)) = body.
Proof.
  intros Hh.
  destruct (extractBody_first_separator (h ++ Parser.CRLFCRLF ++ body))
    as [(h0 & E & Hmin) | [(N & _) | (N & _)]]; cbv zeta in *.
  - pose proof (Hmin h body eq_refl) as Hle.
    destruct (Nat.eq_dec (length h0) (length h)) as [Heq|Hne].
    + apply (f_equal (skipn (length h0 + length Parser.CRLFCRLF))) in E.
      rewrite skipn_past in E. rewrite Heq, skipn_past in E. symmetry; exact E.
    + exfalso.
      assert (Hin : includes (h ++ [13; 10; 13]%N) Parser.CRLFCRLF = true).
      { apply includes_iff.
        set (b0 := Parser.extractBodyFromRaw _) in E.
        exists h0, (firstn (length h + 3 - (length h0 + 4)) b0).
        apply (f_equal (firstn (length h + 3))) in E.
        change (h ++ Parser.CRLFCRLF ++ body)
          with (h ++ ([13; 10; 13]%N ++ [10%N] ++ body)) in E.
        rewrite app_assoc in E.
        rewrite firstn_app in E.
        rewrite firstn_all2 in E by (rewrite length_app; simpl; lia).
        replace (length h + 3 - length (h ++ [13; 10; 13]%N))%nat with 0%nat in E
          by (rewrite length_app; simpl; lia).
        cbn [firstn] in E. rewrite app_nil_r in E. rewrite E.
        rewrite (app_assoc h0), firstn_app.
        rewrite firstn_all2 by (rewrite length_app; simpl; lia).
        rewrite length_app. cbn [length Parser.CRLFCRLF].
        rewrite <- app_assoc. reflexivity. }
      congruence.
  - exfalso.
    assert (Hin : includes (h ++ Parser.CRLFCRLF ++ body) Parser.CRLFCRLF = true)
      by (apply includes_iff; exists h, body; reflexivity).
    congruence.
  - exfalso.
    assert (Hin : includes (h ++ Parser.CRLFCRLF ++ body) Parser.CRLFCRLF = true)
      by (apply includes_iff; exists h, body; reflexivity).
    congruence.
Qed.

Lemma parseJsfBody_plain (body : jsstring) :
  includes body Parser.CRLFCRLF = false ->
  includes body Parser.LFLF = false ->
  Parser.parseJsfBody (JString body)
  = Ok {| parameters := map Spec.segment_parameter (Spec.segments body);
          rawBody := body |}.
Proof.
  intros N1 N2. unfold Parser.parseJsfBody.
  destruct body as [|c body]; [reflexivity|].
  cbn [not_a_string truthy typeof_string negb orb str_of].
  rewrite N1, N2. cbn [orb].
  rewrite parseUrlEncodedBody_segments. reflexivity.
Qed.

Lemma parseJsfBody_message (h body : jsstring) :
  includes (h ++ [13; 10; 13]%N) Parser.CRLFCRLF = false ->
  Parser.parseJsfBody (JString (h ++ Parser.CRLFCRLF ++ body))
  = Ok {| parameters := map Spec.segment_parameter (Spec.segments body);
          rawBody := body |}.
Proof.
  intros Hh. unfold Parser.parseJsfBody.
  assert (Hin : includes (h ++ Parser.CRLFCRLF ++ body) Parser.CRLFCRLF = true)
    by (apply includes_iff; exists h, body; reflexivity).
  destruct (h ++ Parser.CRLFCRLF ++ body) as [|c raw] eqn:E;
    [destruct h; discriminate E|].
  cbn [not_a_string truthy typeof_string negb orb str_of].
  rewrite Hin. cbn [orb]. rewrite <- E.
  rewrite extractBody_message by exact Hh.
  rewrite parseUrlEncodedBody_segments. reflexivity.
Qed.

(** X12: for a message whose first CRLF CRLF ends the header block and
    whose body holds no blank line, [parseJsfBody] returns the parameters
    of the body, and the detector answers on the message as on the body
    alone. *)
Theorem message_and_body_agree (h body : jsstring) :
  includes (h ++ [13; 10; 13]%N) Parser.CRLFCRLF = false ->
  includes body Parser.CRLFCRLF = false ->
  includes body Parser.LFLF = false ->
  (exists ps,
      Parser.parseUrlEncodedBody (JString body) = Ok ps /\
      Parser.parseJsfBody (JString (h ++ Parser.CRLFCRLF ++ body))
      = Ok {| parameters := ps; rawBody := body |}) /\
  Detector.detectJsf (JString (h ++ Parser.CRLFCRLF ++ body))
  = Detector.detectJsf (JString body).
Proof.
  intros Hh N1 N2. split.
  - eexists. rewrite parseUrlEncodedBody_segments. split; [reflexivity|].
    apply parseJsfBody_message; exact Hh.
  - destruct (detectJsf_string (h ++ Parser.CRLFCRLF ++ body)) as (pr1 & P1 & ->).
    destruct (detectJsf_string body) as (pr2 & P2 & ->).
    rewrite parseJsfBody_message in P1 by exact Hh.
    rewrite parseJsfBody_plain in P2 by assumption.
    inversion P1; inversion P2; subst. reflexivity.
Qed.


(** *** Detector: version features *)

Lemma array_includes_In (xs : list jsstring) (x : jsstring) :
  Detector.array_includes xs x = true <-> In x xs.
Proof.
  unfold Detector.array_includes. rewrite existsb_exists. split.
  - intros (y & Hy & E). apply streq_eq in E. subst; exact Hy.
  - intros H. exists x. split; [exact H | apply streq_refl].
Qed.

Lemma version_loop_nodup (n : jsstring) (entries : Annotations.table)
  (vf : list jsstring) :
  NoDup vf ->
  let vf' := fold_left (Detector.version_step n) entries vf in
  NoDup vf' /\
  forall x, In x vf' -> In x vf \/ In (n, x) entries.
Proof.
  revert vf; induction entries as [|[key version] entries IH]; intros vf ND;
    cbn [fold_left]; [split; [exact ND | auto]|].
  cbv zeta.
  assert (Step : NoDup (Detector.version_step n vf (key, version)) /\
                 forall x, In x (Detector.version_step n vf (key, version)) ->
                           In x vf \/ (n, x) = (key, version)).
  { unfold Detector.version_step.
    destruct (streq n key) eqn:E; cbn [andb]; [|split; [exact ND | auto]].
    destruct (Detector.array_includes vf version) eqn:I; cbn [negb];
      [split; [exact ND | auto]|].
    apply streq_eq in E. subst key. split.
    - apply NoDup_app; [exact ND | repeat constructor; intros [] |].
      intros x Hx [<-|[]].
      apply array_includes_In in Hx. congruence.
    - intros x Hx. apply in_app_or in Hx. destruct Hx as [Hx|[<-|[]]]; auto. }
  destruct Step as [ND' Sub].
  destruct (IH _ ND') as [ND'' Sub']. cbv zeta in ND'', Sub'.
  split; [exact ND''|].
  intros x Hx. destruct (Sub' x Hx) as [H|H]; [|right; right; exact H].
  destruct (Sub x H) as [H'|H']; [left; exact H' | right; left; symmetry; exact H'].
Qed.

Lemma versionFeatures_param_step (st : Detector.LoopVars) (p : ParsedParameter) :
  Detector.versionFeatures (Detector.param_step st p)
  = fold_left (Detector.version_step (decodedName p))
      Detector.VERSION_INDICATORS (Detector.versionFeatures st).
Proof.
  unfold Detector.param_step.
  destruct (startsWith (decodedName p) (lit "javax.faces."));
    destruct (streq (decodedName p) (lit "javax.faces.partial.ajax"));
    destruct (streq (decodedName p) (lit "javax.faces.ViewState"));
    destruct (endsWith (decodedName p) (lit "_SUBMIT")); reflexivity.
Qed.

Lemma versionFeatures_loop (ps : list ParsedParameter) (st : Detector.LoopVars) :
  NoDup (Detector.versionFeatures st) ->
  let vf := Detector.versionFeatures (fold_left Detector.param_step ps st) in
  NoDup vf /\
  forall x, In x vf ->
            In x (Detector.versionFeatures st) \/
            exists p, In p ps /\ In (decodedName p, x) Detector.VERSION_INDICATORS.
Proof.
  revert st; induction ps as [|p ps IH]; intros st ND; cbn [fold_left];
    [split; [exact ND | auto]|].
  cbv zeta.
  destruct (version_loop_nodup (decodedName p) Detector.VERSION_INDICATORS
              (Detector.versionFeatures st) ND) as [ND' Sub].
  cbv zeta in ND', Sub. rewrite <- versionFeatures_param_step in ND', Sub.
  destruct (IH _ ND') as [ND'' Sub']. cbv zeta in ND'', Sub'.
  split; [exact ND''|].
  intros x Hx. destruct (Sub' x Hx) as [H|(q & Hq & H)].
  - destruct (Sub x H) as [H'|H']; [left; exact H'|].
    right. exists p. split; [left; reflexivity | exact H'].
  - right. exists q. split; [right; exact Hq | exact H].
Qed.

Lemma version_step_keeps (n : jsstring) (vf : list jsstring)
  (e : jsstring * jsstring) (x : jsstring) :
  In x vf -> In x (Detector.version_step n vf e).
Proof.
  intros H. unfold Detector.version_step. destruct e as [key version].
  destruct (streq n key && negb (Detector.array_includes vf version));
    [apply in_or_app; left; exact H | exact H].
Qed.

Lemma version_loop_keeps (n : jsstring) (entries : Annotations.table)
  (vf : list jsstring) (x : jsstring) :
  In x vf \/ In (n, x) entries ->
  In x (fold_left (Detector.version_step n) entries vf).
Proof.
  revert vf; induction entries as [|[key version] entries IH]; intros vf H;
    cbn [fold_left].
  - destruct H as [H|[]]; exact H.
  - apply IH. destruct H as [H|[H|H]].
    + left. apply version_step_keeps; exact H.
    + inversion H; subst. left. unfold Detector.version_step.
      rewrite streq_refl. cbn [andb].
      destruct (Detector.array_includes vf x) eqn:I; cbn [negb].
      * apply array_includes_In; exact I.
      * apply in_or_app; right; left; reflexivity.
    + right; exact H.
Qed.

Lemma versionFeatures_loop_keeps (ps : list ParsedParameter)
  (st : Detector.LoopVars) (x : jsstring) :
  In x (Detector.versionFeatures st) \/
  (exists p, In p ps /\ In (decodedName p, x) Detector.VERSION_INDICATORS) ->
  In x (Detector.versionFeatures (fold_left Detector.param_step ps st)).
Proof.
  revert st; induction ps as [|p ps IH]; intros st H; cbn [fold_left].
  - destruct H as [H|(p & [] & _)]; exact H.
  - apply IH. rewrite versionFeatures_param_step.
    destruct H as [H|(q & [<-|Hq] & H)].
    + left. apply version_loop_keeps; left; exact H.
    + left. apply version_loop_keeps; right; exact H.
    + right. exists q; split; assumption.
Qed.

Lemma version_features_deduplicated (ps : list ParsedParameter) :
  let vf := Detector.versionFeatures
              (fold_left Detector.param_step ps Detector.init_vars) in
  NoDup vf /\
  (forall x, In x vf <->
             exists p, In p ps /\
                       In (decodedName p, x) Detector.VERSION_INDICATORS) /\
  (length vf <= 5)%nat.
Proof.
  cbv zeta.
  destruct (versionFeatures_loop ps Detector.init_vars) as [ND Sub];
    [constructor|]. cbv zeta in ND, Sub.
  split; [exact ND|]. split.
  - intros x. split.
    + intros Hx. destruct (Sub x Hx) as [[]|H]. exact H.
    + intros H. apply versionFeatures_loop_keeps. right; exact H.
  - change 5%nat with (length (map snd Detector.VERSION_INDICATORS)).
    apply NoDup_incl_length; [exact ND|].
    intros x Hx. destruct (Sub x Hx) as [[]|(p & _ & H)].
    apply in_map_iff. exists (decodedName p, x). split; [reflexivity|exact H].
Qed.

(** *** Detector: request type *)

Lemma flags_param_step (st : Detector.LoopVars) (p : ParsedParameter) :
  let st' := Detector.param_step st p in
  Detector.hasAjax st' = Detector.hasAjax st || streq (decodedName p) AJAX_NAME /\
  Detector.hasViewState st'
    = Detector.hasViewState st || streq (decodedName p) VIEWSTATE_NAME /\
  (Forall loop_line (Detector.v_indicators st) ->
   Forall loop_line (Detector.v_indicators st')).
Proof.
  cbv zeta. unfold AJAX_NAME, VIEWSTATE_NAME.
  assert (A : streq (decodedName p) (lit "javax.faces.partial.ajax") = true ->
              startsWith (decodedName p) (lit "javax.faces.") = true
              /\ streq (decodedName p) (lit "javax.faces.ViewState") = false).
  { intros E. apply streq_eq in E. rewrite E. split; reflexivity. }
  assert (V : streq (decodedName p) (lit "javax.faces.ViewState") = true ->
              startsWith (decodedName p) (lit "javax.faces.") = true).
  { intros E. apply streq_eq in E. rewrite E. reflexivity. }
  unfold Detector.param_step.
  destruct st as [ind std ajax vs vf].
  destruct (startsWith (decodedName p) (lit "javax.faces.")) eqn:S;
    destruct (streq (decodedName p) (lit "javax.faces.partial.ajax")) eqn:EA;
    destruct (streq (decodedName p) (lit "javax.faces.ViewState")) eqn:EV;
    try (destruct (A eq_refl); discriminate);
    try (specialize (V eq_refl); discriminate);
    destruct (endsWith (decodedName p) (lit "_SUBMIT"));
    cbn [Detector.set_hasStandardJsf Detector.push_indicator
         Detector.set_hasAjax Detector.set_hasViewState
         Detector.set_versionFeatures Detector.v_indicators
         Detector.hasStandardJsf Detector.hasAjax Detector.hasViewState
         Detector.versionFeatures];
    rewrite ?orb_true_r, ?orb_false_r;
    (split; [reflexivity|]); (split; [reflexivity|]);
    intros F; rewrite ?Forall_app; repeat split; auto;
    repeat constructor; eexists; eexists; (split; [reflexivity|discriminate]).
Qed.

Lemma flags_param_loop (ps : list ParsedParameter) (st : Detector.LoopVars) :
  let st' := fold_left Detector.param_step ps st in
  let names := map decodedName ps in
  Detector.hasAjax st'
    = Detector.hasAjax st || existsb (fun n => streq n AJAX_NAME) names /\
  Detector.hasViewState st'
    = Detector.hasViewState st || existsb (fun n => streq n VIEWSTATE_NAME) names /\
  (Forall loop_line (Detector.v_indicators st) ->
   Forall loop_line (Detector.v_indicators st')).
Proof.
  revert st; induction ps as [|p ps IH]; intros st.
  - cbn. rewrite !orb_false_r. auto.
  - cbn [fold_left map existsb]. cbv zeta.
    destruct (flags_param_step st p) as (S1 & S2 & S3).
    destruct (IH (Detector.param_step st p)) as (L1 & L2 & L3).
    cbv zeta in *. rewrite L1, L2, S1, S2, !orb_assoc. auto.
Qed.

Lemma conclude_indicators (names : list jsstring) (st : Detector.LoopVars) :
  Forall loop_line (Detector.v_indicators st) ->
  exists base,
    Forall loop_line base /\
    indicators (Detector.conclude names st)
    = base ++ (if Detector.hasAjax st then [AJAX_LINE]
               else if Detector.hasViewState st then [POSTBACK_LINE] else []) /\
    (Detector.versionFeatures st <> [] ->
     In ((lit "Version features: " ++ join (Detector.versionFeatures st) (lit ", "))) base).
Proof.
  intros F. unfold Detector.conclude. cbn [indicators].
  set (i1 := match Annotations.detectImplementation names with
             | Some impl =>
                 if truthy (JString impl)
                 then Detector.v_indicators st ++ [lit "Implementation: " ++ impl]
                 else Detector.v_indicators st
             | None => Detector.v_indicators st
             end).
  assert (F1 : Forall loop_line i1).
  { subst i1. destruct (Annotations.detectImplementation names) as [impl|];
      [|exact F].
    destruct (truthy (JString impl)); [|exact F].
    apply Forall_app; split; [exact F|].
    repeat constructor. eexists; eexists; split; [reflexivity|discriminate]. }
  set (i2 := if (0 <? arrlen (Detector.versionFeatures st))%Z
             then i1 ++ [lit "Version features: " ++
                         join (Detector.versionFeatures st) (lit ", ")]
             else i1).
  exists i2. split; [|split].
  - subst i2. destruct (0 <? arrlen (Detector.versionFeatures st))%Z; [|exact F1].
    apply Forall_app; split; [exact F1|].
    repeat constructor. eexists; eexists; split; [reflexivity|discriminate].
  - destruct (Detector.hasAjax st); [reflexivity|].
    destruct (Detector.hasViewState st); [reflexivity|].
    rewrite app_nil_r; reflexivity.
  - intros Hne. subst i2. rewrite arrlen_pos.
    destruct (Detector.versionFeatures st); [congruence|].
    apply in_or_app; right; left; reflexivity.
Qed.

Lemma loop_line_not_request (base : list jsstring) :
  Forall loop_line base -> ~ In AJAX_LINE base /\ ~ In POSTBACK_LINE base.
Proof.
  intros F. rewrite Forall_forall in F.
  split; intros H; destruct (F _ H) as (c & t & E & Hc);
    vm_compute in E; inversion E; subst; apply Hc; reflexivity.
Qed.

(** X13: the indicators hold the AJAX request-type line exactly when a
    decoded name is "javax.faces.partial.ajax", and the postback line
    exactly when none is but one is "javax.faces.ViewState". *)
Theorem request_type_indicator (raw : jsstring) :
  exists r,
    Detector.detectJsf (JString raw) = Ok r /\
    (In (lit "Request type: AJAX Partial Request") (indicators r) <->
     existsb (fun n => streq n (lit "javax.faces.partial.ajax"))
       (Spec.decodedNames raw) = true) /\
    (In (lit "Request type: Full Page Postback") (indicators r) <->
     existsb (fun n => streq n (lit "javax.faces.partial.ajax"))
       (Spec.decodedNames raw) = false /\
     existsb (fun n => streq n (lit "javax.faces.ViewState"))
       (Spec.decodedNames raw) = true).
Proof.
  destruct (detectJsf_string raw) as (pr & Hp & Hd).
  rewrite (decodedNames_of raw pr Hp).
  eexists; split; [exact Hd|].
  destruct (parameters pr) as [|p ps] eqn:E.
  - cbn. split; split; try tauto; try discriminate. intros [_ H]; discriminate H.
  - rewrite <- E. clear E p ps Hp Hd.
    set (ps := parameters pr).
    destruct (flags_param_loop ps Detector.init_vars) as (L1 & L2 & L3).
    cbv zeta in L1, L2, L3. cbn [Detector.init_vars Detector.hasAjax
      Detector.hasViewState Detector.v_indicators orb] in L1, L2, L3.
    specialize (L3 (Forall_nil _)).
    destruct (conclude_indicators (map decodedName ps)
                (fold_left Detector.param_step ps Detector.init_vars) L3)
      as (base & Fb & Ei & _).
    rewrite Ei, L1, L2.
    destruct (loop_line_not_request base Fb) as [NA NP].
    fold AJAX_NAME VIEWSTATE_NAME AJAX_LINE POSTBACK_LINE.
    destruct (existsb (fun n => streq n AJAX_NAME) (map decodedName ps));
      [|destruct (existsb (fun n => streq n VIEWSTATE_NAME) (map decodedName ps))];
      rewrite !in_app_iff; cbn [In]; split; split;
      try tauto; try discriminate;
      try (intros [H|[H|[]]]; try contradiction; vm_compute in H; discriminate H);
      try (intros [H _]; discriminate H);
      try (intros [_ H]; discriminate H).
Qed.

(** X14: the version features are the labels of the version keys that
    occur among the decoded names, each once and at most five; when there
    is one, the indicators hold the line that lists them. *)
Theorem version_features_line (raw : jsstring) :
  exists r vf,
    Detector.detectJsf (JString raw) = Ok r /\
    NoDup vf /\
    (forall x, In x vf <->
               exists n, In n (Spec.decodedNames raw) /\
                         In (n, x) Detector.VERSION_INDICATORS) /\
    (length vf <= 5)%nat /\
    (vf = [] \/
     In (lit "Version features: " ++ join vf (lit ", ")) (indicators r)).
Proof.
  destruct (detectJsf_string raw) as (pr & Hp & Hd).
  rewrite (decodedNames_of raw pr Hp).
  set (ps := parameters pr) in *.
  exists (match ps with
          | [] => Detector.negative
          | _ :: _ => Detector.conclude (map decodedName ps)
                        (fold_left Detector.param_step ps Detector.init_vars)
          end),
    (Detector.versionFeatures (fold_left Detector.param_step ps Detector.init_vars)).
  split; [exact Hd|].
  destruct (version_features_deduplicated ps) as (ND & M & L5).
  cbv zeta in ND, M, L5.
  split; [exact ND|]. split; [|split; [exact L5|]].
  - intros x. rewrite M. split.
    + intros (p & Hp' & H). exists (decodedName p). split; [apply in_map; exact Hp'|exact H].
    + intros (n & Hn & H). apply in_map_iff in Hn. destruct Hn as (p & <- & Hp').
      exists p; split; assumption.
  - destruct ps as [|p ps'] eqn:E; [left; reflexivity|]. rewrite <- E.
    destruct (flags_param_loop ps Detector.init_vars) as (_ & _ & L3).
    cbv zeta in L3. specialize (L3 (Forall_nil _)). rewrite E in L3.
    destruct (conclude_indicators (map decodedName (p :: ps'))
                (fold_left Detector.param_step (p :: ps') Detector.init_vars) L3)
      as (base & _ & Ei & Hv).
    rewrite E.
    destruct (Detector.versionFeatures
                (fold_left Detector.param_step (p :: ps') Detector.init_vars))
      as [|v vs] eqn:V; [left; reflexivity|].
    right. rewrite Ei. apply in_or_app. left. apply Hv. discriminate.
Qed.


(** *** Categorizer *)

Lemma category_of_name (p : ParsedParameter) :
  let n := decodedName p in
  Spec.category_of p =
  if streq n (lit "javax.faces.ViewState") then viewstate
  else if startsWith n (lit "javax.faces.") then standard_jsf
  else if includes n (lit "j_id_") then component_id
  else if endsWith n (lit "_SUBMIT") then form_submit
  else custom.
Proof.
  cbv zeta. unfold Spec.category_of, Categorizer.categorizeParameter,
    Categorizer.isViewStateParameter, Categorizer.isStandardJsfParameter,
    Categorizer.isComponentIdParameter, Categorizer.isFormSubmitParameter.
  destruct (streq (decodedName p) (lit "javax.faces.ViewState")); [reflexivity|].
  destruct (startsWith (decodedName p) (lit "javax.faces.")); [reflexivity|].
  destruct (includes (decodedName p) (lit "j_id_")); [reflexivity|].
  destruct (endsWith (decodedName p) (lit "_SUBMIT")); reflexivity.
Qed.

Lemma viewstate_name_in_namespace (n : jsstring) :
  streq n (lit "javax.faces.ViewState") = true ->
  startsWith n (lit "javax.faces.") = true.
Proof. intros E. apply streq_eq in E. rewrite E. reflexivity. Qed.

Lemma category_partition (params : list ParsedParameter) :
  (length (Spec.of_category standard_jsf params)
   + length (Spec.of_category component_id params)
   + length (Spec.of_category viewstate params)
   + length (Spec.of_category form_submit params)
   + length (Spec.of_category custom params) = length params)%nat.
Proof.
  induction params as [|p params IH]; [reflexivity|].
  unfold Spec.of_category in *. cbn [filter].
  destruct (Spec.category_of p); cbn [Spec.category_eqb length]; lia.
Qed.

(** X15: the four arrays and the ViewState-named parameters account for
    every input parameter, and the ViewState slot is empty exactly when no
    parameter is ViewState-named. *)
Theorem bucket_sizes (params : list ParsedParameter) :
  let r := Categorizer.categorizeParameters params in
  let named_viewstate :=
    filter (fun p => streq (decodedName p) (lit "javax.faces.ViewState")) params in
  (length (standardJsf r) + length (componentIds r) + length (formSubmit r)
   + length (custom_ r) + length named_viewstate = length params)%nat /\
  (viewState r = None <-> named_viewstate = []).
Proof.
  cbv zeta. unfold Categorizer.categorizeParameters.
  destruct (place_loop params Categorizer.empty_result) as (H1 & H2 & H3 & H4 & H5).
  cbv zeta in *. cbn [Categorizer.empty_result standardJsf componentIds
    formSubmit custom_ viewState map app option_map] in *.
  assert (V : Spec.of_category viewstate params
              = filter (fun p => streq (decodedName p) (lit "javax.faces.ViewState"))
                  params).
  { unfold Spec.of_category. apply filter_ext. intros p.
    rewrite category_of_name. cbv zeta.
    destruct (streq (decodedName p) (lit "javax.faces.ViewState")); [reflexivity|].
    destruct (startsWith (decodedName p) (lit "javax.faces.")); [reflexivity|].
    destruct (includes (decodedName p) (lit "j_id_")); [reflexivity|].
    destruct (endsWith (decodedName p) (lit "_SUBMIT")); reflexivity. }
  rewrite <- V. split.
  - pose proof (category_partition params) as P.
    rewrite <- H1, <- H2, <- H3, <- H4 in P. rewrite !length_map in P. lia.
  - destruct (viewState (fold_left Categorizer.place params Categorizer.empty_result));
      unfold Spec.last_opt in H5; cbn [option_map] in H5.
    + split; [discriminate|]. intros E. rewrite E in H5. discriminate.
    + split; [|reflexivity]. intros _.
      destruct (rev (Spec.of_category viewstate params)) eqn:R; [|discriminate].
      apply (f_equal (@rev _)) in R. rewrite rev_involutive in R. exact R.
Qed.

(** X16: each array holds, in input order and with repetitions, the input
    parameters that its rule selects by decoded name, earlier rules taking
    precedence. *)
Theorem buckets_by_name (params : list ParsedParameter) :
  let r := Categorizer.categorizeParameters params in
  let ns p := startsWith (decodedName p) (lit "javax.faces.") in
  let vs p := streq (decodedName p) (lit "javax.faces.ViewState") in
  let jid p := includes (decodedName p) (lit "j_id_") in
  let sub p := endsWith (decodedName p) (lit "_SUBMIT") in
  map ap_param (standardJsf r) = filter (fun p => ns p && negb (vs p)) params /\
  map cp_param (componentIds r) = filter (fun p => negb (ns p) && jid p) params /\
  map ap_param (formSubmit r)
    = filter (fun p => negb (ns p) && negb (jid p) && sub p) params /\
  custom_ r
    = filter (fun p => negb (ns p) && negb (jid p) && negb (sub p)) params.
Proof.
  cbv zeta. unfold Categorizer.categorizeParameters.
  destruct (place_loop params Categorizer.empty_result) as (H1 & H2 & H3 & H4 & _).
  cbv zeta in *. cbn [Categorizer.empty_result standardJsf componentIds
    formSubmit custom_ map app] in *.
  rewrite H1, H2, H3, H4. unfold Spec.of_category.
  repeat split; apply filter_ext; intros p; rewrite category_of_name; cbv zeta;
    pose proof (viewstate_name_in_namespace (decodedName p)) as V;
    destruct (streq (decodedName p) (lit "javax.faces.ViewState"));
    try (rewrite V by reflexivity);
    destruct (startsWith (decodedName p) (lit "javax.faces."));
    destruct (includes (decodedName p) (lit "j_id_"));
    destruct (endsWith (decodedName p) (lit "_SUBMIT"));
    try reflexivity; specialize (V eq_refl); discriminate.
Qed.

Lemma place_payload (r : CategorizedParameters) (p : ParsedParameter) :
  payload_ok r -> payload_ok (Categorizer.place r p).
Proof.
  intros (A & B & C & D). unfold Categorizer.place, Categorizer.categorizeParameter.
  destruct (Categorizer.isViewStateParameter (decodedName p)).
  { repeat split; auto. }
  destruct (Categorizer.isStandardJsfParameter (decodedName p)).
  { repeat split; auto. cbn [standardJsf]. apply Forall_app; split; [exact A|].
    repeat constructor. }
  destruct (Categorizer.isComponentIdParameter (decodedName p)).
  { repeat split; auto. cbn [componentIds]. apply Forall_app; split; [exact B|].
    repeat constructor. }
  destruct (Categorizer.isFormSubmitParameter (decodedName p)).
  { repeat split; auto. cbn [formSubmit]. apply Forall_app; split; [exact C|].
    repeat constructor. }
  repeat split; auto.
Qed.

(** X17: what the categorizer attaches: the looked-up annotation or the
    empty string, the submit annotation, a one-level hierarchy of type
    unknown at depth 0 holding the whole name, and for the ViewState slot
    encoding unknown without content or warnings. *)
Theorem categorized_payload (params : list ParsedParameter) :
  let r := Categorizer.categorizeParameters params in
  Forall (fun a => annotation a
                   = Categorizer.or_empty
                       (Annotations.getAnnotation (decodedName (ap_param a))))
         (standardJsf r) /\
  Forall (fun c => hierarchy c
                   = [ {| id := decodedName (cp_param c);
                          type := unknown; depth := 0 |} ])
         (componentIds r) /\
  Forall (fun a => annotation a = Annotations.SUBMIT_ANNOTATION) (formSubmit r) /\
  match viewState r with
  | Some v => vp_encoding v = unknown_encoding /\
              vp_decodedContent v = None /\ vp_warnings v = []
  | None => True
  end.
Proof.
  cbv zeta. unfold Categorizer.categorizeParameters.
  change (payload_ok (fold_left Categorizer.place params Categorizer.empty_result)).
  assert (G : forall r0, payload_ok r0 ->
                         payload_ok (fold_left Categorizer.place params r0)).
  { induction params as [|p ps IH]; intros r0 H; [exact H|].
    cbn [fold_left]. apply IH. apply place_payload; exact H. }
  apply G. repeat split; constructor.
Qed.

(** *** Component identifiers *)

Lemma split_length (s : jsstring) (sep : N) :
  length (split s sep) = S (length (filter (N.eqb sep) s)).
Proof.
  induction s as [|c s IH]; [reflexivity|].
  cbn [split filter]. rewrite (N.eqb_sym sep c).
  destruct (c =? sep)%N; cbn [length]; [rewrite IH; reflexivity|].
  pose proof (split_not_nil s sep) as Hn.
  destruct (split s sep) as [|h t]; [congruence|].
  cbn [length] in *. exact IH.
Qed.

Lemma mapi_from_length {A B : Type} (f : A -> Z -> B) (xs : list A) (k : Z) :
  length (mapi_from f xs k) = length xs.
Proof.
  revert k; induction xs as [|x xs IH]; intros k; cbn [mapi_from length];
    [reflexivity | rewrite IH; reflexivity].
Qed.

Lemma split_tokens_no_sep (s : jsstring) (sep : N) :
  Forall (fun t => ~ In sep t) (split s sep).
Proof.
  induction s as [|c s IH]; cbn [split]; [repeat constructor; intros []|].
  destruct (N.eqb_spec c sep) as [->|Hc].
  - constructor; [intros []|exact IH].
  - pose proof (split_not_nil s sep) as Hn.
    destruct (split s sep) as [|h t]; [congruence|].
    inversion IH as [|? ? Hh Ht]; subst. constructor; [|exact Ht].
    intros [E|Hin]; [congruence|contradiction].
Qed.

(** X18: a non-empty identifier has one level more than it has colons, and
    no level's id contains a colon. *)
Theorem level_count (s : jsstring) :
  s <> [] ->
  let levels := ComponentId.parseComponentId (JString s) in
  length levels = S (length (filter (N.eqb COLON) s)) /\
  Forall (fun l => ~ In COLON (id l)) levels.
Proof.
  intros Hs. cbv zeta. unfold ComponentId.parseComponentId.
  destruct s as [|c s]; [congruence|].
  cbn [not_a_string truthy typeof_string negb orb str_of].
  unfold mapi. split.
  - rewrite mapi_from_length. apply split_length.
  - apply (proj1 (Forall_map id (fun t => ~ In COLON t) _)).
    rewrite map_mapi_from by reflexivity. apply split_tokens_no_sep.
Qed.

Lemma UTF16EncodeCodePoint_length (V : N) :
  (length (UTF16EncodeCodePoint V) <= 2)%nat.
Proof. unfold UTF16EncodeCodePoint. destruct (V <=? 65535)%N; simpl; lia. Qed.

Lemma Decode_length (n : nat) :
  forall (s : jsstring) (need : nat) (octets : list N) (d : jsstring),
    (length s <= n)%nat ->
    Decode s need octets = Ok d -> (length d <= length s)%nat.
Proof.
  induction n as [|n IH]; intros s need octets d Hl H.
  - destruct s; [|simpl in Hl; lia]. cbn [Decode] in H.
    destruct need; inversion H. simpl; lia.
  - destruct s as [|c rest]; cbn [Decode] in H.
    { destruct need; inversion H. simpl; lia. }
    cbn [length] in Hl |- *.
    destruct (c =? PERCENT)%N.
    + destruct rest as [|h1 [|h2 rest']]; try discriminate.
      cbn [length] in Hl |- *.
      destruct (ParseHexOctet h1 h2) as [B|]; [|discriminate].
      destruct need as [|need'].
      * destruct (leading_ones B =? 0)%nat.
        -- destruct (Decode rest' 0 []) as [r|] eqn:Er; [|discriminate].
           inversion H; subst d. apply IH in Er; [|lia]. cbn [length]. lia.
        -- destruct ((leading_ones B =? 1)%nat || (4 <? leading_ones B)%nat);
             [discriminate|].
           apply IH in H; lia.
      * destruct (is_continuation B); [|discriminate].
        destruct need' as [|need''].
        -- destruct (utf8_code_point (octets ++ [B])) as [V|]; [|discriminate].
           destruct (Decode rest' 0 []) as [r|] eqn:Er; [|discriminate].
           inversion H; subst d. apply IH in Er; [|lia].
           rewrite length_app.
           pose proof (UTF16EncodeCodePoint_length V). lia.
        -- apply IH in H; lia.
    + destruct need; [|discriminate].
      destruct (Decode rest 0 []) as [r|] eqn:Er; [|discriminate].
      inversion H; subst d. apply IH in Er; [|lia]. cbn [length]. lia.
Qed.



Lemma digits_then_colon_iff (r : jsstring) (seen : bool) :
  ComponentId.digits_then_colon r seen = true <->
  exists tok rest,
    r = tok ++ COLON :: rest /\ forallb is_digit tok = true /\
    (seen = true \/ tok <> []).
Proof.
  revert seen; induction r as [|c r IH]; intros seen; cbn [ComponentId.digits_then_colon].
  - split; [discriminate|]. intros (tok & rest & E & _). destruct tok; discriminate.
  - destruct (is_digit c) eqn:D.
    + rewrite IH. split.
      * intros (tok & rest & E & F & _). exists (c :: tok), rest.
        cbn [app forallb]. rewrite D, F, E. repeat split. right; discriminate.
      * intros (tok & rest & E & F & _). destruct tok as [|x tok].
        -- cbn [app] in E. inversion E; subst. vm_compute in D. discriminate.
        -- cbn [app forallb] in E, F. inversion E; subst.
           apply andb_true_iff in F. exists tok, rest. repeat split; [tauto|auto].
    + rewrite andb_true_iff, N.eqb_eq. split.
      * intros [-> ->]. exists [], r. repeat split. left; reflexivity.
      * intros (tok & rest & E & F & S). destruct tok as [|x tok].
        -- cbn [app] in E. inversion E; subst. destruct S; [tauto|congruence].
        -- cbn [app forallb] in E, F. inversion E; subst.
           apply andb_true_iff in F. destruct F; congruence.
Qed.

Lemma re_colon_digits_colon_iff (s : jsstring) :
  ComponentId.re_colon_digits_colon s = true <->
  exists pre tok rest,
    s = pre ++ COLON :: tok ++ COLON :: rest /\ re_digits tok = true.
Proof.
  induction s as [|c s IH]; cbn [ComponentId.re_colon_digits_colon].
  - split; [discriminate|]. intros (pre & tok & rest & E & _).
    destruct pre; discriminate.
  - rewrite orb_true_iff, andb_true_iff, N.eqb_eq, digits_then_colon_iff, IH.
    split.
    + intros [[-> (tok & rest & E & F & S)] | (pre & tok & rest & E & R)].
      * exists [], tok, rest. cbn [app]. rewrite E. split; [reflexivity|].
        unfold re_digits. destruct tok; [destruct S; congruence | exact F].
      * exists (c :: pre), tok, rest. cbn [app]. rewrite E. auto.
    + intros (pre & tok & rest & E & R). destruct pre as [|x pre].
      * left. cbn [app] in E. inversion E; subst. split; [reflexivity|].
        exists tok, rest. split; [reflexivity|].
        unfold re_digits in R. destruct tok; [discriminate|].
        split; [exact R | right; discriminate].
      * right. cbn [app] in E. inversion E; subst. exists pre, tok, rest. auto.
Qed.

Lemma digits_no_colon (tok : jsstring) :
  re_digits tok = true -> ~ In COLON tok.
Proof.
  unfold re_digits. destruct tok; [discriminate|].
  intros F Hin. rewrite forallb_forall in F. apply F in Hin.
  vm_compute in Hin. discriminate.
Qed.

Lemma join_app (a b : list jsstring) (sep : jsstring) :
  a <> [] -> b <> [] -> join (a ++ b) sep = join a sep ++ sep ++ join b sep.
Proof.
  intros Ha Hb. induction a as [|x a IH]; [congruence|].
  destruct a as [|y a].
  - cbn [app join]. destruct b; [congruence|]. reflexivity.
  - cbn [app join] in *. rewrite IH by discriminate.
    rewrite <- !app_assoc. reflexivity.
Qed.

Lemma split_around (pre tok rest : jsstring) :
  ~ In COLON tok ->
  split (pre ++ COLON :: tok ++ COLON :: rest) COLON
  = split pre COLON ++ tok :: split rest COLON.
Proof.
  intros H. rewrite split_app_sep, split_app_sep, (split_no_sep tok) by exact H.
  reflexivity.
Qed.

Lemma re_colon_digits_colon_tokens (s : jsstring) :
  ComponentId.re_colon_digits_colon s = true <-> interior_index (split s COLON).
Proof.
  rewrite re_colon_digits_colon_iff. split.
  - intros (pre & tok & rest & -> & R).
    rewrite split_around by (apply digits_no_colon; exact R).
    exists (length (split pre COLON)), tok.
    pose proof (split_not_nil pre COLON) as H1.
    pose proof (split_not_nil rest COLON) as H2.
    split; [destruct (split pre COLON); [congruence|simpl; lia]|].
    split; [rewrite length_app; cbn [length];
            destruct (split rest COLON); [congruence|simpl; lia]|].
    split; [|exact R].
    rewrite nth_error_app2 by lia. rewrite Nat.sub_diag. reflexivity.
  - intros (i & tok & Hi & Hl & Hn & R).
    apply nth_error_split in Hn. destruct Hn as (l1 & l2 & E & Hlen).
    assert (H1 : l1 <> []) by (destruct l1; [simpl in Hlen; lia|discriminate]).
    assert (H2 : l2 <> []).
    { destruct l2; [|discriminate]. rewrite E, length_app in Hl. simpl in Hl. lia. }
    exists (join l1 [COLON]), tok, (join l2 [COLON]). split; [|exact R].
    rewrite <- (join_split s COLON) at 1. rewrite E.
    change (tok :: l2) with ([tok] ++ l2).
    rewrite join_app by (auto; discriminate).
    rewrite (join_app [tok] l2) by (auto; discriminate).
    reflexivity.
Qed.

(** X19: [decodeParameter] returns for every string, and what it returns
    is never longer than its argument. *)
Theorem decode_never_lengthens (s : jsstring) :
  exists d,
    Decoder.decodeParameter (JString s) = Ok d /\ (strlen d <= strlen s)%Z.
Proof.
  rewrite decodeParameter_once. eexists; split; [reflexivity|].
  unfold Spec.percent_decode_once, decodeURIComponent.
  destruct (Decode s 0 []) as [r|] eqn:D; [|lia].
  apply (Decode_length (length s)) in D; [|lia]. unfold strlen. lia.
Qed.

(** X20: [isBase64] never raises, and it accepts a string exactly when the
    string is not empty, matches the pattern and has a length divisible by
    four: [atob] cannot fail on such a string, nor decode it to nothing. *)
Theorem isBase64_decides (s : jsstring) :
  ViewState.isBase64 (JString s)
  = Ok (Spec.nonempty s && ViewState.base64Regex_test s
        && (strlen s mod 4 =? 0)%Z).
Proof. exact (isBase64_spec s). Qed.

(** X21: [extractBodyFromRaw] returns what follows the first CRLF CRLF;
    without one, what follows the first LF LF; without either, the empty
    string. *)
Theorem extractBody_cases (raw : jsstring) :
  let body := Parser.extractBodyFromRaw (JString raw) in
  (exists h,
      raw = h ++ Parser.CRLFCRLF ++ body /\
      forall h' b', raw = h' ++ Parser.CRLFCRLF ++ b' ->
                    (length h <= length h')%nat) \/
  (includes raw Parser.CRLFCRLF = false /\
   exists h,
     raw = h ++ Parser.LFLF ++ body /\
     forall h' b', raw = h' ++ Parser.LFLF ++ b' ->
                   (length h <= length h')%nat) \/
  (includes raw Parser.CRLFCRLF = false /\
   includes raw Parser.LFLF = false /\ body = []).
Proof. exact (extractBody_first_separator raw). Qed.

(** X22: [isComponentId] accepts a string exactly when it contains "j_id_"
    or [parseComponentId] finds in it a level of type index that is
    neither the first nor the last; so it accepts every name that the
    categorizer files under component-id. *)
Theorem isComponentId_iff (s : jsstring) :
  let levels := ComponentId.parseComponentId (JString s) in
  (ComponentId.isComponentId (JString s) = true <->
   includes s (lit "j_id_") = true \/
   exists i lvl,
     (0 < i)%nat /\ (S i < length levels)%nat /\
     nth_error levels i = Some lvl /\ type lvl = index) /\
  (Categorizer.isComponentIdParameter s = true ->
   ComponentId.isComponentId (JString s) = true).
Proof.
  cbv zeta. unfold ComponentId.isComponentId, ComponentId.parseComponentId,
    Categorizer.isComponentIdParameter.
  destruct s as [|c s].
  - cbn [not_a_string truthy typeof_string negb orb length nth_error].
    split; [|discriminate]. split; [discriminate|].
    intros [H|(i & lvl & _ & H & _)]; [discriminate H | simpl in H; lia].
  - cbn [not_a_string truthy typeof_string negb orb str_of].
    split; [|intros ->; reflexivity].
    assert (Hst : startsWith (c :: s) (lit "j_id_") = true ->
                  includes (c :: s) (lit "j_id_") = true)
      by (intros H; cbn [includes]; rewrite H; reflexivity).
    unfold mapi. rewrite mapi_from_length.
    rewrite !orb_true_iff, re_colon_digits_colon_tokens.
    unfold interior_index. split.
    + intros [[H|(i & tok & Hi & Hl & Hn & R)]|H]; auto.
      right. eexists i, _. rewrite nth_error_mapi_from, Hn. cbn [option_map].
      split; [exact Hi|]. split; [exact Hl|]. split; [reflexivity|].
      cbn [type]. rewrite R. reflexivity.
    + intros [H|(i & lvl & Hi & Hl & Hn & T)]; auto.
      left; right. rewrite nth_error_mapi_from in Hn.
      destruct (nth_error (split (c :: s) COLON) i) as [tok|] eqn:E;
        [|discriminate].
      cbn [option_map] in Hn. inversion Hn; subst lvl. cbn [type] in T.
      exists i, tok. split; [exact Hi|]. split; [exact Hl|].
      split; [exact E|].
      destruct (re_digits tok); [reflexivity|].
      destruct tok; discriminate T.
Qed.

(** ** Instances of the conditional properties *)

Lemma encode_then_decode_witness :
  Decoder.decodeParameter (JString (lit "caf%C3%A9%20%F0%9F%98%80%3D1"))
  = Ok [99; 97; 102; 233; 32; 55357; 56832; 61; 49]%N.
Proof.
  apply (encode_then_decode [99; 97; 102; 233; 32; 55357; 56832; 61; 49]%N
           (lit "caf%C3%A9%20%F0%9F%98%80%3D1")).
  - all_units.
  - vm_compute; reflexivity.
Defined.

Lemma encode_output_alphabet_witness :
  Forall (fun c => is_unescaped c = true \/ c = PERCENT) (lit "a%26b%3D%E2%82%AC") /\
  Forall (fun c => (c < 128)%N /\ c <> AMPERSAND /\ c <> EQUALS)
         (lit "a%26b%3D%E2%82%AC") /\
  ([97; 38; 98; 61; 8364]%N <> [] -> lit "a%26b%3D%E2%82%AC" <> []).
Proof.
  apply (encode_output_alphabet [97; 38; 98; 61; 8364]%N (lit "a%26b%3D%E2%82%AC")).
  - all_units.
  - vm_compute; reflexivity.
Defined.

Lemma encode_succeeds_witness :
  exists e, Decoder.encodeParameter (JString (lit "key name@=&")) = Ok e.
Proof.
  apply (encode_succeeds (lit "key name@=&")). all_units.
Defined.

Lemma double_encode_decode_witness :
  exists e2,
    Decoder.encodeParameter (JString (lit "hello%20world")) = Ok e2 /\
    Decoder.decodeParameter (JString e2) = Ok (lit "hello%20world") /\
    Decoder.decodeParameter (JString (lit "hello%20world")) = Ok (lit "hello world").
Proof.
  apply (double_encode_decode (lit "hello world") (lit "hello%20world")).
  - all_units.
  - vm_compute; reflexivity.
Defined.

Lemma form_field_roundtrip_witness :
  Parser.parseUrlEncodedBody
    (JString (lit "j_id_3x%3Aj_id_40" ++ lit "=" ++ lit "a%26b%3Dc"))
  = Ok [ {| name := lit "j_id_3x%3Aj_id_40"; decodedName := lit "j_id_3x:j_id_40";
            value := lit "a%26b%3Dc"; decodedValue := lit "a&b=c" |} ].
Proof.
  apply (form_field_roundtrip (lit "j_id_3x:j_id_40") (lit "a&b=c")
           (lit "j_id_3x%3Aj_id_40") (lit "a%26b%3Dc")).
  - all_units.
  - all_units.
  - vm_compute; reflexivity.
  - vm_compute; reflexivity.
Defined.

Lemma decode_leaves_unencoded_witness :
  Decoder.decodeParameter (JString (lit "100% sure")) = Ok (lit "100% sure").
Proof.
  apply (decode_leaves_unencoded (lit "100% sure")). vm_compute; reflexivity.
Defined.

Lemma decoded_content_size_witness :
  exists a d,
    ViewState.analyzeViewState (JString (lit "rO0ABQ==")) = Ok a /\
    encoding a = base64 /\
    decodedContent a = Some d /\
    (strlen d = 3 * (strlen (lit "rO0ABQ==") / 4)
                - Z.of_nat (length (filter (N.eqb 61) (lit "rO0ABQ=="))))%Z /\
    Forall (fun B => (B < 256)%N) d.
Proof.
  apply (decoded_content_size (lit "rO0ABQ==")). vm_compute; reflexivity.
Defined.

Lemma explainer_accepts_analyzer_base64_witness :
  ValueAnalyzer.isBase64 (lit "rO0ABQ==") = true.
Proof.
  apply (explainer_accepts_analyzer_base64 (lit "rO0ABQ==")).
  vm_compute; reflexivity.
Defined.

Lemma message_and_body_agree_witness :
  let h := lit "POST /test HTTP/1.1" ++ [13; 10]%N ++ lit "Host: example.com" in
  let body := lit "javax.faces.ViewState=abc123&key=value" in
  (exists ps,
      Parser.parseUrlEncodedBody (JString body) = Ok ps /\
      Parser.parseJsfBody (JString (h ++ Parser.CRLFCRLF ++ body))
      = Ok {| parameters := ps; rawBody := body |}) /\
  Detector.detectJsf (JString (h ++ Parser.CRLFCRLF ++ body))
  = Detector.detectJsf (JString body).
Proof.
  apply (message_and_body_agree
           (lit "POST /test HTTP/1.1" ++ [13; 10]%N ++ lit "Host: example.com")
           (lit "javax.faces.ViewState=abc123&key=value")).
  - vm_compute; reflexivity.
  - vm_compute; reflexivity.
  - vm_compute; reflexivity.
Defined.

Lemma level_count_witness :
  let levels := ComponentId.parseComponentId (JString (lit "j_id_3x:0::")) in
  length levels = S (length (filter (N.eqb COLON) (lit "j_id_3x:0::"))) /\
  Forall (fun l => ~ In COLON (id l)) levels.
Proof.
  apply (level_count (lit "j_id_3x:0::")). vm_compute; discriminate.
Defined.
